(** * LibrbdFio: the workload loop, the recovery hand-shake and the output filter

    A shallow embedding of [benchmark/librbdfio.py] (class [LibrbdFio]) and
    the properties of its run loop, its recovery callbacks and its [parse]
    filter.

    Layout:
    - [Py]: the fragment of Python values and built-ins the class relies on
      (dynamic typing is kept: every built-in that can raise returns a
      [result]);
    - [Fio]: the object, the effect monad ([M]: state, event trace, raised
      exceptions, blocking calls) and the methods, in source order;
    - the lemmas and theorems. *)

From Stdlib Require Import ZArith String Ascii List Bool Lia DecimalString.
From stdpp Require Import base option strings gmap list.
Import ListNotations.

Local Open Scope string_scope.
Local Open Scope Z_scope.

(** ** Outcomes *)

(** The exceptions the modelled code can raise (all Python built-ins). *)
Inductive exn : Type :=
| TypeError
| ValueError
| IndexError
| KeyError
| UnboundLocalError
| FileNotFoundError.

(** The outcome of a call: it returns, it raises, or it blocks forever in a
    wait that is never satisfied. *)
Inductive result (A : Type) : Type :=
| Ret (a : A)
| Raise (e : exn)
| Hang.
Arguments Ret {A} a.
Arguments Raise {A} e.
Arguments Hang {A}.

Definition rbind {A B : Type} (r : result A) (k : A -> result B) : result B :=
  match r with
  | Ret a => k a
  | Raise e => Raise e
  | Hang => Hang
  end.

Declare Scope res_scope.
Delimit Scope res_scope with res.
Notation "x <- r ;; k" := (rbind r (fun x => k))
  (at level 100, r at next level, right associativity) : res_scope.

Module Py.

(** *** Characters and text

    A [string] is a Python [str] whose code points are below 256. *)

Definition LF : ascii := "010"%char.
Definition CR : ascii := "013"%char.
Definition TAB : ascii := "009"%char.
Definition DQUOTE : ascii := "034"%char.
Definition SQUOTE : ascii := "039"%char.
Definition BACKSLASH : ascii := "092"%char.

Definition code (c : ascii) : nat := nat_of_ascii c.

(** [str.isspace] on one code point: U+0009..U+000D, U+001C..U+0020,
    U+0085, U+00A0. *)
Definition is_space (c : ascii) : bool :=
  let n := code c in
  ((9 <=? n)%nat && (n <=? 13)%nat)
  || ((28 <=? n)%nat && (n <=? 32)%nat)
  || (n =? 133)%nat
  || (n =? 160)%nat.

Fixpoint lstrip (s : string) : string :=
  match s with
  | EmptyString => EmptyString
  | String c r => if is_space c then lstrip r else s
  end.

Fixpoint rstrip (s : string) : string :=
  match s with
  | EmptyString => EmptyString
  | String c r =>
      match rstrip r with
      | EmptyString => if is_space c then EmptyString else String c EmptyString
      | r' => String c r'
      end
  end.

(** [s.strip()] *)
Definition strip (s : string) : string := rstrip (lstrip s).

(** [needle in hay] on two [str]. *)
Fixpoint str_in (needle hay : string) : bool :=
  String.prefix needle hay
  || match hay with
     | EmptyString => false
     | String _ r => str_in needle r
     end.

(** [sep.join(parts)] *)
Fixpoint join (sep : string) (parts : list string) : string :=
  match parts with
  | [] => ""
  | [p] => p
  | p :: ps => p ++ sep ++ join sep ps
  end.

(** [s.split(sep)] for a one-character separator. *)
Fixpoint split (sep : ascii) (s : string) : list string :=
  match s with
  | EmptyString => [""]
  | String c r =>
      if Ascii.eqb c sep then "" :: split sep r
      else match split sep r with
           | [] => [String c ""]
           | p :: ps => String c p :: ps
           end
  end.

(** Text-mode reading ([open(path)], [newline=None]): every ["\r\n"] and every
    lone ["\r"] is handed to the program as ["\n"]. *)
Fixpoint universal_newlines (s : string) : string :=
  match s with
  | EmptyString => EmptyString
  | String c r =>
      if Ascii.eqb c CR then
        match r with
        | String c2 r2 =>
            if Ascii.eqb c2 LF then String LF (universal_newlines r2)
            else String LF (universal_newlines r)
        | EmptyString => String LF EmptyString
        end
      else String c (universal_newlines r)
  end.

(** [fd.readlines()] on the translated text: the lines, each keeping its
    terminating ["\n"] (the last one may lack it). *)
Fixpoint readlines (s : string) : list string :=
  match s with
  | EmptyString => []
  | String c r =>
      if Ascii.eqb c LF then String c "" :: readlines r
      else match readlines r with
           | [] => [String c ""]
           | l :: ls => String c l :: ls
           end
  end.

(** *** Integers as text *)

(** [str(z)] for an [int]. *)
Definition dec (z : Z) : string := NilZero.string_of_int (Z.to_int z).

Fixpoint zeros (n : nat) : string :=
  match n with
  | O => ""
  | S k => String "0" (zeros k)
  end.

(** [format(z, '0Wd')]: sign first, then zero padding up to width [w]. *)
Definition fmt_0d (w : nat) (z : Z) : string :=
  let sign := if z <? 0 then "-" else "" in
  let digits := dec (Z.abs z) in
  sign ++ zeros (w - String.length sign - String.length digits) ++ digits.

Definition is_digit (c : ascii) : bool :=
  ((48 <=? code c)%nat && (code c <=? 57)%nat).

Definition digit_val (c : ascii) : Z := Z.of_nat (code c - 48).

(** The digits of an integer literal accepted by [int(str)]: decimal digits,
    single underscores allowed between two digits. *)
Fixpoint parse_digits (s : string) (acc : Z) (after_digit : bool) : option Z :=
  match s with
  | EmptyString => if after_digit then Some acc else None
  | String c r =>
      if is_digit c then parse_digits r (10 * acc + digit_val c) true
      else if Ascii.eqb c "_" && after_digit then parse_digits r acc false
      else None
  end.

(** [int(s)] for a [str], base 10. *)
Definition int_of_str (s : string) : option Z :=
  match strip s with
  | String "-" r => Z.opp <$> parse_digits r 0 false
  | String "+" r => parse_digits r 0 false
  | r => parse_digits r 0 false
  end.

(** *** Values *)

#[warnings="-register-all"]
Inductive pyval : Type :=
| VNone
| VBool (b : bool)
| VInt (z : Z)
| VStr (s : string)
| VList (l : list pyval).

Definition hex_digit (n : nat) : ascii :=
  match String.get n "0123456789abcdef" with
  | Some c => c
  | None => "0"%char
  end.

(** [str.isprintable] on one code point below 256. *)
Definition is_printable (c : ascii) : bool :=
  let n := code c in
  ((32 <=? n)%nat && (n <=? 126)%nat)
  || ((161 <=? n)%nat && negb (n =? 173)%nat).

Definition repr_char (quote c : ascii) : string :=
  if Ascii.eqb c quote || Ascii.eqb c BACKSLASH then String BACKSLASH (String c "")
  else if Ascii.eqb c TAB then String BACKSLASH "t"
  else if Ascii.eqb c LF then String BACKSLASH "n"
  else if Ascii.eqb c CR then String BACKSLASH "r"
  else if is_printable c then String c ""
  else String BACKSLASH
         (String "x" (String (hex_digit (code c / 16)) (String (hex_digit (code c mod 16)) ""))).

Fixpoint has_char (c : ascii) (s : string) : bool :=
  match s with
  | EmptyString => false
  | String d r => Ascii.eqb c d || has_char c r
  end.

Fixpoint repr_chars (quote : ascii) (s : string) : string :=
  match s with
  | EmptyString => ""
  | String c r => repr_char quote c ++ repr_chars quote r
  end.

(** [repr(s)] for a [str]: single quotes, unless the text has a single quote
    and no double quote. *)
Definition repr_str (s : string) : string :=
  let quote := if has_char SQUOTE s && negb (has_char DQUOTE s) then DQUOTE else SQUOTE in
  String quote (repr_chars quote s ++ String quote "").

Fixpoint py_repr (v : pyval) : string :=
  match v with
  | VNone => "None"
  | VBool true => "True"
  | VBool false => "False"
  | VInt z => dec z
  | VStr s => repr_str s
  | VList l => "[" ++ join ", " (List.map py_repr l) ++ "]"
  end.

(** [str(v)], which is also what ['%s' % v] and [f'{v}'] insert. *)
Definition py_str (v : pyval) : string :=
  match v with
  | VStr s => s
  | _ => py_repr v
  end.

(** [bool(v)] *)
Definition py_truth (v : pyval) : bool :=
  match v with
  | VNone => false
  | VBool b => b
  | VInt z => negb (z =? 0)
  | VStr s => negb (String.eqb s "")
  | VList l => match l with [] => false | _ => true end
  end.

Definition is_none (v : pyval) : bool :=
  match v with VNone => true | _ => false end.

(** [v is True] *)
Definition is_true (v : pyval) : bool :=
  match v with VBool true => true | _ => false end.

(** [v == s] against a [str] literal. *)
Definition eq_str (v : pyval) (s : string) : bool :=
  match v with VStr x => String.eqb x s | _ => false end.

(** The integer behind an [int] or a [bool]. *)
Definition as_int (v : pyval) : option Z :=
  match v with
  | VInt z => Some z
  | VBool b => Some (if b then 1 else 0)
  | _ => None
  end.

(** [int(v)] *)
Definition py_int (v : pyval) : result Z :=
  match v with
  | VInt z => Ret z
  | VBool b => Ret (if b then 1 else 0)
  | VStr s => match int_of_str s with Some z => Ret z | None => Raise ValueError end
  | VNone | VList _ => Raise TypeError
  end.

(** ['%d' % v] *)
Definition fmt_d (v : pyval) : result string :=
  match as_int v with
  | Some z => Ret (dec z)
  | None => Raise TypeError
  end.

(** [len(v)] *)
Definition py_len (v : pyval) : result nat :=
  match v with
  | VStr s => Ret (String.length s)
  | VList l => Ret (List.length l)
  | _ => Raise TypeError
  end.

(** [v[i]] for an index [i >= 0]. *)
Definition py_index (v : pyval) (i : nat) : result pyval :=
  match v with
  | VList l => match nth_error l i with Some x => Ret x | None => Raise IndexError end
  | VStr s => match String.get i s with Some c => Ret (VStr (String c "")) | None => Raise IndexError end
  | _ => Raise TypeError
  end.

(** [n - v] for an [int] literal [n]. *)
Definition py_rsub (n : Z) (v : pyval) : result pyval :=
  match as_int v with
  | Some z => Ret (VInt (n - z))
  | None => Raise TypeError
  end.

Fixpoint repeat_str (n : nat) (s : string) : string :=
  match n with
  | O => ""
  | S k => s ++ repeat_str k s
  end.

(** [a * b] *)
Definition py_mul (a b : pyval) : result pyval :=
  match as_int a, as_int b with
  | Some x, Some y => Ret (VInt (x * y))
  | Some x, None =>
      match b with
      | VStr s => Ret (VStr (repeat_str (Z.to_nat x) s))
      | VList l => Ret (VList (List.concat (List.repeat l (Z.to_nat x))))
      | _ => Raise TypeError
      end
  | None, Some y =>
      match a with
      | VStr s => Ret (VStr (repeat_str (Z.to_nat y) s))
      | VList l => Ret (VList (List.concat (List.repeat l (Z.to_nat y))))
      | _ => Raise TypeError
      end
  | None, None => Raise TypeError
  end.

(** The indices of [range(v)]. *)
Definition py_range (v : pyval) : result (list nat) :=
  match as_int v with
  | Some z => Ret (List.seq 0 (Z.to_nat z))
  | None => Raise TypeError
  end.

(** The argument check of [time.sleep(v)]: the number of seconds slept. *)
Definition sleep_secs (v : pyval) : result Z :=
  match as_int v with
  | Some z => if z <? 0 then Raise ValueError else Ret z
  | None => Raise TypeError
  end.

(** [d.get(key, default)] and [d[key]] on a string-keyed [dict]. *)
Definition dict_get (d : gmap string pyval) (key : string) (dflt : pyval) : pyval :=
  default dflt (d !! key).

Definition dict_item (d : gmap string pyval) (key : string) : result pyval :=
  match d !! key with
  | Some v => Ret v
  | None => Raise KeyError
  end.

(** [key in d] *)
Definition dict_has (d : gmap string pyval) (key : string) : bool :=
  bool_decide (is_Some (d !! key)).

End Py.

Module Fio.
Import Py.

(** ** The object *)

(** The ten attributes that [backup_global_fio_options] saves and
    [restore_global_fio_options] puts back. *)
Record FioOptions : Type := {
  time_based : pyval;
  ramp : pyval;
  iodepth : pyval;
  numjobs : pyval;
  mode : pyval;
  end_fsync : pyval;
  rwmixread : pyval;
  rwmixwrite : pyval;
  log_avg_msec : pyval;
  op_size : pyval
}.

(** What [Benchmark.__init__] (the base class, outside this file) leaves on
    the object, as far as [LibrbdFio] reads it. [recovery_test] stands for
    ['recovery_test' in self.cluster.config]. *)
Record Benchmark : Type := {
  archive_dir : string;
  bench_run_dir : string;
  osd_ra : pyval;
  log_iops : pyval;
  log_bw : pyval;
  log_lat : pyval;
  recovery_test : bool
}.

(** The workload table: names in declaration order (pairwise distinct, as the
    keys of a [dict]), each with its own option table. *)
Definition Workloads : Type := list (string * gmap string pyval).

Record Config : Type := {
  options : gmap string pyval;
  cfg_workloads : Workloads
}.

(** The attributes [__init__] sets once and no modelled method reassigns. *)
Record Attrs : Type := {
  cmd_path : pyval;
  pool_profile : pyval;
  recov_pool_profile : pyval;
  recov_test_type : pyval;
  data_pool_profile : pyval;
  time : pyval;
  precond_time : pyval;
  pgs : pyval;
  vol_size : pyval;
  vol_object_size : pyval;
  volumes_per_client : pyval;
  procs_per_volume : pyval;
  random_distribution : pyval;
  rate_iops : pyval;
  fio_out_format : pyval;
  use_existing_volumes : bool;
  no_sudo : bool;
  idle_monitor_sleep : pyval;
  pool_name : pyval;
  recov_pool_name : pyval;
  rbdname : pyval;
  workloads : Workloads;
  total_procs : pyval;
  base_run_dir : string;
  out_dir : string;
  norandommap : pyval;
  wait_pgautoscaler_timeout : pyval;
  names : string
}.

Record LibrbdFio : Type := {
  bench : Benchmark;
  attrs : Attrs;
  opts : FioOptions;
  global_fio_options : gmap string pyval;
  run_dir : string
}.

Definition set_opts (f : FioOptions -> FioOptions) (s : LibrbdFio) : LibrbdFio :=
  {| bench := bench s; attrs := attrs s; opts := f (opts s);
     global_fio_options := global_fio_options s; run_dir := run_dir s |}.

Definition set_run_dir (d : string) (s : LibrbdFio) : LibrbdFio :=
  {| bench := bench s; attrs := attrs s; opts := opts s;
     global_fio_options := global_fio_options s; run_dir := d |}.

Definition set_global_fio_options (g : gmap string pyval) (s : LibrbdFio) : LibrbdFio :=
  {| bench := bench s; attrs := attrs s; opts := opts s;
     global_fio_options := g; run_dir := run_dir s |}.

Definition with_mode (v : pyval) (o : FioOptions) : FioOptions :=
  {| time_based := time_based o; ramp := ramp o; iodepth := iodepth o;
     numjobs := numjobs o; mode := v; end_fsync := end_fsync o;
     rwmixread := rwmixread o; rwmixwrite := rwmixwrite o;
     log_avg_msec := log_avg_msec o; op_size := op_size o |}.

Definition with_op_size (v : pyval) (o : FioOptions) : FioOptions :=
  {| time_based := time_based o; ramp := ramp o; iodepth := iodepth o;
     numjobs := numjobs o; mode := mode o; end_fsync := end_fsync o;
     rwmixread := rwmixread o; rwmixwrite := rwmixwrite o;
     log_avg_msec := log_avg_msec o; op_size := v |}.

Definition with_rwmixread (v : pyval) (o : FioOptions) : FioOptions :=
  {| time_based := time_based o; ramp := ramp o; iodepth := iodepth o;
     numjobs := numjobs o; mode := mode o; end_fsync := end_fsync o;
     rwmixread := v; rwmixwrite := rwmixwrite o;
     log_avg_msec := log_avg_msec o; op_size := op_size o |}.

Definition with_rwmixwrite (v : pyval) (o : FioOptions) : FioOptions :=
  {| time_based := time_based o; ramp := ramp o; iodepth := iodepth o;
     numjobs := numjobs o; mode := mode o; end_fsync := end_fsync o;
     rwmixread := rwmixread o; rwmixwrite := v;
     log_avg_msec := log_avg_msec o; op_size := op_size o |}.

Definition with_numjobs (v : pyval) (o : FioOptions) : FioOptions :=
  {| time_based := time_based o; ramp := ramp o; iodepth := iodepth o;
     numjobs := v; mode := mode o; end_fsync := end_fsync o;
     rwmixread := rwmixread o; rwmixwrite := rwmixwrite o;
     log_avg_msec := log_avg_msec o; op_size := op_size o |}.

Definition with_iodepth (v : pyval) (o : FioOptions) : FioOptions :=
  {| time_based := time_based o; ramp := ramp o; iodepth := v;
     numjobs := numjobs o; mode := mode o; end_fsync := end_fsync o;
     rwmixread := rwmixread o; rwmixwrite := rwmixwrite o;
     log_avg_msec := log_avg_msec o; op_size := op_size o |}.

(** ** The world around the object *)

(** The two methods [run] can register with the cluster. *)
Inductive callback : Type :=
| cb_recovery_callback_blocking
| cb_recovery_callback_background.

(** The calls that leave the object, in the order they are made. A call that
    blocks is recorded when it is made; whatever follows it in a trace was
    issued after it returned. Logging is not recorded. *)
Inductive event : Type :=
| EvBenchmarkRun                                   (* super().run() *)
| EvDropCaches                                     (* self.dropcaches() *)
| EvMakeRemoteDir (dir : string)                   (* common.make_remote_dir *)
| EvDumpConfig (dir : string)                      (* cluster.dump_config *)
| EvSleep (secs : Z)                               (* time.sleep *)
| EvCheckPgAutoscaler (timeout : pyval) (log : string)
| EvCreateRecoveryTest (dir : string) (cb : callback) (kind : pyval)
| EvWaitStartIO                                    (* cluster.wait_start_io *)
| EvMonitoringStart (dir : string)                 (* monitoring.start *)
| EvPdsh (handle : nat) (nodes cmd : string)       (* common.pdsh *)
| EvWait (handle : nat)                            (* p.wait() *)
| EvCommunicate (handle : nat)                     (* p.communicate() *)
| EvMonitoringStop (dir : string)                  (* monitoring.stop *)
| EvWaitRecoveryDone                               (* cluster.wait_recovery_done *)
| EvDumpHistoricOps (dir : string)                 (* cluster.dump_historic_ops *)
| EvSyncFiles (src dst : string).                  (* common.sync_files *)

(** What the collaborators ([settings], [common], the cluster, the remote
    processes) answer during one execution. *)
Record Env : Type := {
  clients : string;                     (* settings.getnodes('clients') *)
  host_info_host : string -> string;    (* settings.host_info(c)["host"] *)
  fqdn_cmd : string;                    (* common.get_fqdn_cmd() *)
  start_io_signalled : bool;            (* wait_start_io() returns *)
  recovery_finished : bool;             (* wait_recovery_done() returns *)
  completes : nat -> bool;              (* the remote command of a handle ends *)
  synced : string -> string -> gmap string string -> gmap string string
                                        (* the local disk after sync_files *)
}.

(** The machine state: the object, the next fresh process handle and the
    local files (path to decoded text). *)
Record State : Type := {
  self : LibrbdFio;
  next_handle : nat;
  disk : gmap string string
}.

(** ** The effect monad *)

Definition M (A : Type) : Type := State -> list event * result (A * State).

Definition ret {A : Type} (a : A) : M A := fun st => ([], Ret (a, st)).

Definition bind {A B : Type} (m : M A) (k : A -> M B) : M B :=
  fun st =>
    match m st with
    | (t, Ret (a, st')) => let (t', r) := k a st' in ((t ++ t')%list, r)
    | (t, Raise e) => (t, Raise e)
    | (t, Hang) => (t, Hang)
    end.

Declare Scope fio_scope.
Delimit Scope fio_scope with fio.
Notation "x <- m ;; k" := (bind m (fun x => k))
  (at level 100, m at next level, right associativity) : fio_scope.
Notation "m ;; k" := (bind m (fun _ => k))
  (at level 100, right associativity) : fio_scope.

(** A built-in that can only return or raise. *)
Definition lift {A : Type} (r : result A) : M A :=
  fun st => ([], rbind r (fun a => Ret (a, st))).

Definition emit (ev : event) : M unit := fun st => ([ev], Ret (tt, st)).

(** A blocking call: it returns when its condition is met, and never
    otherwise. *)
Definition block_until (ok : bool) : M unit :=
  fun st => ([], if ok then Ret (tt, st) else Hang).

Definition get_self : M LibrbdFio := fun st => ([], Ret (self st, st)).

Definition modify_self (f : LibrbdFio -> LibrbdFio) : M unit :=
  fun st => ([], Ret (tt, {| self := f (self st); next_handle := next_handle st;
                             disk := disk st |})).

Definition get_disk : M (gmap string string) := fun st => ([], Ret (disk st, st)).

Definition put_disk (d : gmap string string) : M unit :=
  fun st => ([], Ret (tt, {| self := self st; next_handle := next_handle st; disk := d |})).

Definition when (b : bool) (m : M unit) : M unit := if b then m else ret tt.

(** [for x in xs: body x] *)
Fixpoint for_each {A : Type} (xs : list A) (body : A -> M unit) : M unit :=
  match xs with
  | [] => ret tt
  | x :: rest => (body x ;; for_each rest body)%fio
  end.

(** [for x in xs: acc = body acc x], for a loop that grows a local list. *)
Fixpoint for_acc {A B : Type} (xs : list A) (acc : B) (body : B -> A -> M B) : M B :=
  match xs with
  | [] => ret acc
  | x :: rest => (acc' <- body acc x ;; for_acc rest acc' body)%fio
  end.

(** [common.pdsh(nodes, cmd)]: starts the command on the nodes and hands back
    a fresh handle without waiting. *)
Definition pdsh (nodes cmd : string) : M nat :=
  fun st =>
    let h := next_handle st in
    ([EvPdsh h nodes cmd],
     Ret (h, {| self := self st; next_handle := S h; disk := disk st |})).

(** [p.wait()] and [p.communicate()]: both block until the remote command of
    the handle has ended. *)
Definition wait (E : Env) (h : nat) : M unit :=
  (emit (EvWait h) ;; block_until (completes E h))%fio.

Definition communicate (E : Env) (h : nat) : M unit :=
  (emit (EvCommunicate h) ;; block_until (completes E h))%fio.

(** [time.sleep(v)] *)
Definition sleep (v : pyval) : M unit :=
  (secs <- lift (sleep_secs v) ;; emit (EvSleep secs))%fio.

(** ** The methods, in source order *)

(** [backup_global_fio_options] *)
Definition backup_global_fio_options (s : LibrbdFio) : LibrbdFio :=
  let o := opts s in
  set_global_fio_options
    (<["op_size" := op_size o]>
     (<["log_avg_msec" := log_avg_msec o]>
      (<["rwmixwrite" := rwmixwrite o]>
       (<["rwmixread" := rwmixread o]>
        (<["end_fsync" := end_fsync o]>
         (<["mode" := mode o]>
          (<["numjobs" := numjobs o]>
           (<["iodepth" := iodepth o]>
            (<["ramp" := ramp o]>
             (<["time_based" := time_based o]> (global_fio_options s)))))))))))
    s.

(** [restore_global_fio_options]: ten lookups [self.global_fio_options[k]],
    in the order of the assignments. *)
Definition restore_global_fio_options (s : LibrbdFio) : result LibrbdFio :=
  let g := global_fio_options s in
  (v_ramp <- dict_item g "ramp" ;;
   v_iodepth <- dict_item g "iodepth" ;;
   v_numjobs <- dict_item g "numjobs" ;;
   v_mode <- dict_item g "mode" ;;
   v_end_fsync <- dict_item g "end_fsync" ;;
   v_rwmixread <- dict_item g "rwmixread" ;;
   v_rwmixwrite <- dict_item g "rwmixwrite" ;;
   v_log_avg_msec <- dict_item g "log_avg_msec" ;;
   v_op_size <- dict_item g "op_size" ;;
   v_time_based <- dict_item g "time_based" ;;
   Ret (set_opts (fun _ =>
          {| time_based := v_time_based; ramp := v_ramp; iodepth := v_iodepth;
             numjobs := v_numjobs; mode := v_mode; end_fsync := v_end_fsync;
             rwmixread := v_rwmixread; rwmixwrite := v_rwmixwrite;
             log_avg_msec := v_log_avg_msec; op_size := v_op_size |}) s))%res.

(** The [--name=...] arguments built at the end of [__init__]. *)
Definition mk_names (E : Env) (procs : list nat) : string :=
  List.fold_left
    (fun acc proc_num =>
       let rbd_name := "cbt-librbdfio-`" ++ fqdn_cmd E ++ "`-file-"
                       ++ dec (Z.of_nat proc_num) in
       acc ++ "--name=" ++ rbd_name ++ " ")
    procs "".

(** [__init__], after [super().__init__] has produced [b]. *)
Definition init (E : Env) (b : Benchmark) (config : Config) : result LibrbdFio :=
  let get := dict_get (options config) in
  let v_rwmixread := get "rwmixread" (VInt 50) in
  (v_rwmixwrite <- py_rsub 100 v_rwmixread ;;
   let o := {| time_based := VBool (py_truth (get "time_based" (VBool false)));
               ramp := get "ramp" VNone;
               iodepth := get "iodepth" (VInt 16);
               numjobs := get "numjobs" (VInt 1);
               mode := get "mode" (VStr "write");
               end_fsync := get "end_fsync" (VInt 0);
               rwmixread := v_rwmixread;
               rwmixwrite := v_rwmixwrite;
               log_avg_msec := get "log_avg_msec" VNone;
               op_size := get "op_size" (VInt 4194304) |} in
   let v_volumes_per_client := get "volumes_per_client" (VInt 1) in
   let v_procs_per_volume := get "procs_per_volume" (VInt 1) in
   let partial (v_total_procs : pyval) (v_run_dir v_names : string) : LibrbdFio :=
     {| bench := b;
        attrs := {| cmd_path := get "cmd_path" (VStr "/usr/bin/fio");
                    pool_profile := get "pool_profile" (VStr "default");
                    recov_pool_profile := get "recov_pool_profile" (VStr "default");
                    recov_test_type := get "recov_test_type" (VStr "blocking");
                    data_pool_profile := get "data_pool_profile" VNone;
                    time := get "time" VNone;
                    precond_time := get "precond_time" VNone;
                    pgs := get "pgs" (VInt 2048);
                    vol_size := get "vol_size" (VInt 65536);
                    vol_object_size := get "vol_object_size" (VInt 22);
                    volumes_per_client := v_volumes_per_client;
                    procs_per_volume := v_procs_per_volume;
                    random_distribution := get "random_distribution" VNone;
                    rate_iops := get "rate_iops" VNone;
                    fio_out_format := get "fio_out_format" (VStr "json,normal");
                    use_existing_volumes := py_truth (get "use_existing_volumes" (VBool false));
                    no_sudo := py_truth (get "no_sudo" (VBool false));
                    idle_monitor_sleep := get "idle_monitor_sleep" (VInt 60);
                    pool_name := get "poolname" (VStr "cbt-librbdfio");
                    recov_pool_name := get "recov_pool_name" (VStr "cbt-librbdfio-recov");
                    rbdname := get "rbdname" (VStr "");
                    workloads := cfg_workloads config;
                    total_procs := v_total_procs;
                    base_run_dir := bench_run_dir b;
                    out_dir := archive_dir b;
                    norandommap := get "norandommap" (VBool false);
                    wait_pgautoscaler_timeout := get "wait_pgautoscaler_timeout" (VInt (-1));
                    names := v_names |};
        opts := o;
        global_fio_options := ∅;
        run_dir := v_run_dir |} in
   (* if self.workloads: self.backup_global_fio_options() *)
   let backed (s : LibrbdFio) : LibrbdFio :=
     match cfg_workloads config with
     | [] => s
     | _ :: _ => backup_global_fio_options s
     end in
   pv <- py_mul v_procs_per_volume v_volumes_per_client ;;
   v_total_procs <- py_mul pv (VInt (Z.of_nat (List.length (split "," (clients E))))) ;;
   let rd0 := bench_run_dir b ++ "/" in
   rd1 <- (if is_none (osd_ra b) then Ret rd0
           else (ra <- py_int (osd_ra b) ;; Ret (rd0 ++ "osd_ra-" ++ fmt_0d 8 ra ++ "/"))) ;;
   i_op_size <- py_int (op_size o) ;;
   i_total_procs <- py_int v_total_procs ;;
   i_iodepth <- py_int (iodepth o) ;;
   let rd2 := rd1 ++ "op_size-" ++ fmt_0d 8 i_op_size
              ++ "/concurrent_procs-" ++ fmt_0d 3 i_total_procs
              ++ "/iodepth-" ++ fmt_0d 3 i_iodepth ++ "/" ++ py_str (mode o) in
   procs <- py_range v_procs_per_volume ;;
   Ret (backed (partial v_total_procs rd2 (mk_names E procs))))%res.

(** [mkfiocmd(volnum, time)] *)
Definition mkfiocmd (E : Env) (s : LibrbdFio) (volnum : nat) (time_arg : pyval)
  : result string :=
  let a := attrs s in
  let o := opts s in
  let b := bench s in
  ((* if self.use_existing_volumes and len(self.rbdname): *)
   existing <- (if use_existing_volumes a
                then (n <- py_len (rbdname a) ;; Ret (negb (n =? 0)%nat))
                else Ret false) ;;
   let v_rbdname :=
     if existing then py_str (rbdname a)
     else "cbt-librbdfio-`" ++ fqdn_cmd E ++ "`-" ++ dec (Z.of_nat volnum) in
   let out_file := run_dir s ++ "/output." ++ dec (Z.of_nat volnum) in
   let c0 := if no_sudo a then "" else "sudo " in
   let c1 := c0 ++ py_str (cmd_path a) ++ " --ioengine=rbd --clientname=admin --pool="
             ++ py_str (pool_name a) ++ " --rbdname=" ++ v_rbdname ++ " --invalidate=0" in
   let c2 := c1 ++ " --rw=" ++ py_str (mode o) in
   let c3 := c2 ++ " --output-format=" ++ py_str (fio_out_format a) in
   let c4 := if eq_str (mode o) "readwrite" || eq_str (mode o) "randrw"
             then c3 ++ " --rwmixread=" ++ py_str (rwmixread o)
                     ++ " --rwmixwrite=" ++ py_str (rwmixwrite o)
             else c3 in
   c5 <- (if is_none (time a) then Ret c4
          else (t <- fmt_d time_arg ;; Ret (c4 ++ " --runtime=" ++ t))) ;;
   let c6 := if is_true (time_based o) then c5 ++ " --time_based" else c5 in
   c7 <- (if is_none (ramp o) then Ret c6
          else (r <- fmt_d (ramp o) ;; Ret (c6 ++ " --ramp_time=" ++ r))) ;;
   let c8 := c7 ++ " --numjobs=" ++ py_str (numjobs o) in
   let c9 := c8 ++ " --direct=1" in
   bs <- fmt_d (op_size o) ;;
   let c10 := c9 ++ " --bs=" ++ bs ++ "B" in
   iod <- fmt_d (iodepth o) ;;
   let c11 := c10 ++ " --iodepth=" ++ iod in
   ef <- fmt_d (end_fsync o) ;;
   let c12 := c11 ++ " --end_fsync=" ++ ef in
   let c13 := if py_truth (norandommap a) then c12 ++ " --norandommap" else c12 in
   let c14 := if py_truth (log_iops b) then c13 ++ " --write_iops_log=" ++ out_file else c13 in
   let c15 := if py_truth (log_bw b) then c14 ++ " --write_bw_log=" ++ out_file else c14 in
   let c16 := if py_truth (log_lat b) then c15 ++ " --write_lat_log=" ++ out_file else c15 in
   let c17 := if recovery_test b then c16 ++ " --time_based" else c16 in
   let c18 := if is_none (random_distribution a) then c17
              else c17 ++ " --random_distribution=" ++ py_str (random_distribution a) in
   let c19 := if is_none (log_avg_msec o) then c18
              else c18 ++ " --log_avg_msec=" ++ py_str (log_avg_msec o) in
   let c20 := if is_none (rate_iops a) then c19
              else c19 ++ " --rate_iops=" ++ py_str (rate_iops a) in
   Ret (c20 ++ " " ++ names a ++ " > " ++ out_file))%res.

(** Lines 207-210 and 259-262: one [pdsh] per volume index, each handle
    appended to [ps]. *)
Definition dispatch_volumes (E : Env) (time_arg : pyval) (ps : list nat) : M (list nat) :=
  (s <- get_self ;;
   vols <- lift (py_range (volumes_per_client (attrs s))) ;;
   for_acc vols ps (fun ps i =>
     s <- get_self ;;
     fio_cmd <- lift (mkfiocmd E s i time_arg) ;;
     p <- pdsh (clients E) fio_cmd ;;
     ret ((ps ++ [p])%list)))%fio.

(** Lines 186-204 of [run_workloads]: the pair at index [i] and the workload's
    overrides are written onto the object, and the run directory is named. *)
Definition apply_overrides (wk : string) (test : gmap string pyval) (i : nat)
    (s : LibrbdFio) : result LibrbdFio :=
  (v_iodepth <- dict_item test "iodepth" ;;
   iod <- py_index v_iodepth i ;;
   v_numjobs <- dict_item test "numjobs" ;;
   job <- py_index v_numjobs i ;;
   v_mode <- dict_item test "mode" ;;
   let s := set_opts (with_mode v_mode) s in
   s <- (if dict_has test "op_size"
         then (v <- dict_item test "op_size" ;; Ret (set_opts (with_op_size v) s))
         else Ret s) ;;
   s <- (if dict_has test "rwmixread"
         then (v <- dict_item test "rwmixread" ;;
               let s := set_opts (with_rwmixread v) s in
               w <- py_rsub 100 (rwmixread (opts s)) ;;
               Ret (set_opts (with_rwmixwrite w) s))
         else Ret s) ;;
   v_mode <- dict_item test "mode" ;;
   let s := set_opts (with_mode v_mode) s in
   let s := set_opts (with_numjobs job) s in
   let s := set_opts (with_iodepth iod) s in
   i_op_size <- py_int (op_size (opts s)) ;;
   i_iodepth <- py_int (iodepth (opts s)) ;;
   i_numjobs <- py_int (numjobs (opts s)) ;;
   Ret (set_run_dir
          (base_run_dir (attrs s) ++ "/" ++ wk ++ "_" ++ py_str (mode (opts s)) ++ "_"
           ++ dec i_op_size ++ "/iodepth-" ++ fmt_0d 3 i_iodepth
           ++ "/numjobs-" ++ fmt_0d 3 i_numjobs) s))%res.

(** One turn of the loop [for i in range(len(test['iodepth']))]; [ps] is the
    list created once per workload, before this loop. *)
Definition run_pair (E : Env) (wk : string) (test : gmap string pyval)
    (enable_monitor : bool) (fioruntime : pyval) (ps : list nat) (i : nat)
  : M (list nat) :=
  (s <- get_self ;;
   s' <- lift (apply_overrides wk test i s) ;;
   modify_self (fun _ => s') ;;
   emit (EvMakeRemoteDir (run_dir s')) ;;
   ps <- dispatch_volumes E fioruntime ps ;;
   when enable_monitor
     (s <- get_self ;;
      sleep (ramp (opts s)) ;;
      emit (EvMonitoringStart (run_dir s))) ;;
   for_each ps (wait E) ;;
   when enable_monitor
     (s <- get_self ;; emit (EvMonitoringStop (run_dir s))) ;;
   s <- get_self ;;
   r <- lift (restore_global_fio_options s) ;;
   modify_self (fun _ => r) ;;
   ret ps)%fio.

(** The body of [for wk in self.workloads]. *)
Definition run_workload (E : Env) (wk : string) (spec : gmap string pyval) : M unit :=
  (s <- get_self ;;
   let ps : list nat := [] in
   (* dict(self.global_fio_options, **self.workloads[wk]) *)
   let test := spec ∪ global_fio_options s in
   _ <- lift (dict_item test "mode") ;;
   let enable_monitor :=
     match test !! "monitor" with
     | Some v => py_truth v
     | None => true
     end in
   let fioruntime :=
     if dict_has test "precond" then precond_time (attrs s) else time (attrs s) in
   v_iodepth <- lift (dict_item test "iodepth") ;;
   n <- lift (py_len v_iodepth) ;;
   _ <- for_acc (List.seq 0 n) ps (run_pair E wk test enable_monitor fioruntime) ;;
   ret tt)%fio.

(** [run_workloads] *)
Definition run_workloads (E : Env) : M unit :=
  (s <- get_self ;;
   for_each (workloads (attrs s)) (fun w => run_workload E (fst w) (snd w)))%fio.

(** [recovery_callback_blocking] *)
Definition recovery_callback_blocking (E : Env) : M unit :=
  (p <- pdsh (clients E) "sudo killall -2 fio" ;;
   communicate E p)%fio.

(** [recovery_callback_background]: a log line only. *)
Definition recovery_callback_background : M unit := ret tt.

(** The loop over the lines in [parse]: [found] is the 0/1 flag, [json_fd]
    what has been written so far. The third component counts the lines the
    loop has looked at (a ghost of the iteration, nothing the code stores). *)
Fixpoint parse_lines (lines : list string) (found : nat) (json_fd : string)
  : nat * string * nat :=
  match lines with
  | [] => (found, json_fd, 0%nat)
  | line :: rest =>
      if (String.length (strip line) =? 0)%nat then (0%nat, json_fd, 1%nat)
      else
        let json_fd := if (found =? 1)%nat then json_fd ++ line else json_fd in
        let found :=
          if (found =? 0)%nat
          then (if str_in "Starting" line then 1%nat else found)
          else found in
        let '(f, out, n) := parse_lines rest found json_fd in
        (f, out, S n)
  end.

(** The two nested [with open(...)] blocks for one volume of one host. *)
Definition parse_file (out_file json_out_file : string) : M unit :=
  (d <- get_disk ;;
   (* open(out_file) *)
   _ <- lift (match d !! out_file with
              | Some _ => Ret tt
              | None => Raise FileNotFoundError
              end) ;;
   (* open(json_out_file, 'w') creates the file or empties it *)
   let d := <[json_out_file := ""]> d in
   put_disk d ;;
   let lines := readlines (universal_newlines (default "" (d !! out_file))) in
   let '(_, written, _) := parse_lines lines 0 "" in
   put_disk (<[json_out_file := written]> d))%fio.

(** [parse(out_dir)] *)
Definition parse (E : Env) (out_dir : string) : M unit :=
  for_each (split "," (clients E)) (fun client =>
    let host := host_info_host E client in
    (s <- get_self ;;
     vols <- lift (py_range (volumes_per_client (attrs s))) ;;
     for_each vols (fun i =>
       let out_file := out_dir ++ "/output." ++ dec (Z.of_nat i) ++ "." ++ host in
       let json_out_file := out_dir ++ "/json_output." ++ dec (Z.of_nat i) ++ "." ++ host in
       parse_file out_file json_out_file))%fio).

(** [analyze(out_dir)] *)
Definition analyze (E : Env) (out_dir : string) : M unit := parse E out_dir.

(** Lines 251-264 of [run]: the swept workloads if there are any, else the
    single original-style run. *)
Definition run_load (E : Env) : M unit :=
  (s <- get_self ;;
   match workloads (attrs s) with
   | _ :: _ => run_workloads E
   | [] =>
       emit (EvMonitoringStart (run_dir s)) ;;
       ps <- dispatch_volumes E (time (attrs s)) [] ;;
       for_each ps (wait E)
   end)%fio.

(** Lines 265-274 of [run]. *)
Definition run_finish (E : Env) : M unit :=
  (s <- get_self ;;
   when (recovery_test (bench s))
     (emit EvWaitRecoveryDone ;; block_until (recovery_finished E)) ;;
   emit (EvMonitoringStop (run_dir s)) ;;
   emit (EvDumpHistoricOps (run_dir s)) ;;
   emit (EvSyncFiles (run_dir s ++ "/*") (out_dir (attrs s))) ;;
   d <- get_disk ;;
   put_disk (synced E (run_dir s ++ "/*") (out_dir (attrs s)) d) ;;
   analyze E (out_dir (attrs s)))%fio.

(** Lines 224-249 of [run]: everything up to the point where client load may
    start. *)
Definition run_prepare (E : Env) : M unit :=
  (emit EvBenchmarkRun ;;
   emit EvDropCaches ;;
   s <- get_self ;;
   emit (EvMakeRemoteDir (run_dir s)) ;;
   emit (EvDumpConfig (run_dir s)) ;;
   sleep (VInt 5) ;;
   emit (EvCheckPgAutoscaler (wait_pgautoscaler_timeout (attrs s))
                             (run_dir s ++ "/pgautoscaler.log")) ;;
   when (recovery_test (bench s))
     (recovery_callback <-
        lift (if eq_str (recov_test_type (attrs s)) "blocking"
              then Ret cb_recovery_callback_blocking
              else if eq_str (recov_test_type (attrs s)) "background"
              then Ret cb_recovery_callback_background
              else Raise UnboundLocalError) ;;
      emit (EvCreateRecoveryTest (run_dir s) recovery_callback
                                 (recov_test_type (attrs s)))) ;;
   when (recovery_test (bench s) && eq_str (recov_test_type (attrs s)) "background")
     (emit EvWaitStartIO ;; block_until (start_io_signalled E)))%fio.

(** [run] *)
Definition run (E : Env) : M unit :=
  (run_prepare E ;;
   run_load E ;;
   run_finish E)%fio.

(** The bound method behind a registered callback, as the cluster calls it. *)
Definition call_back (E : Env) (cb : callback) : M unit :=
  match cb with
  | cb_recovery_callback_blocking => recovery_callback_blocking E
  | cb_recovery_callback_background => recovery_callback_background
  end.

End Fio.

(** ** The set-up methods

    [initialize], [mkimages], [mkrecovimage] and [prefill]: what they ask of
    the cluster and of the clients before [run]. *)

Module Setup.
Import Py Fio.

(** [s.rpartition(sep)[2]] for a one-character separator: what follows the
    last [sep], the whole text when there is none. *)
Fixpoint rpartition_tail (sep : ascii) (s : string) : string :=
  match s with
  | EmptyString => EmptyString
  | String c r =>
      if has_char sep r then rpartition_tail sep r
      else if Ascii.eqb c sep then r else s
  end.

(** [v + suffix] for a [str] literal [suffix]. *)
Definition py_add_str (v : pyval) (suffix : string) : result pyval :=
  match v with
  | VStr s => Ret (VStr (s ++ suffix))
  | _ => Raise TypeError
  end.

(** [f'{v:d}'] *)
Definition fmt_fd (v : pyval) : result string :=
  match v with
  | VInt z => Ret (dec z)
  | VBool b => Ret (if b then "1" else "0")
  | VStr _ => Raise ValueError
  | VNone | VList _ => Raise TypeError
  end.

(** The calls the set-up methods make, in the order they are made. *)
Inductive call : Type :=
| CInitialize                                      (* super().initialize() *)
| CCleanRemoteDir (dir : string)                   (* common.clean_remote_dir *)
| CMakeRemoteDir (dir : string)                    (* common.make_remote_dir *)
| CMonitoringStart (dir : string)                  (* monitoring.start *)
| CSleep (secs : Z)                                (* time.sleep *)
| CMonitoringStop                                  (* monitoring.stop() *)
| CSyncFiles (src dst : string)                    (* common.sync_files *)
| CRmPool (name profile : pyval)                   (* cluster.rmpool *)
| CMkPool (name profile : pyval) (application : string)   (* cluster.mkpool *)
| CMkImage (name : string) (size pool data_pool object_size : pyval).
                                                   (* cluster.mkimage *)

(** A method that makes calls and returns or raises. *)
Definition W (A : Type) : Type := list call * result A.

Definition wret {A : Type} (a : A) : W A := ([], Ret a).

Definition wbind {A B : Type} (m : W A) (k : A -> W B) : W B :=
  match m with
  | (t, Ret a) => let (t', r) := k a in ((t ++ t')%list, r)
  | (t, Raise e) => (t, Raise e)
  | (t, Hang) => (t, Hang)
  end.

Declare Scope setup_scope.
Delimit Scope setup_scope with setup.
Notation "x <- m ;; k" := (wbind m (fun x => k))
  (at level 100, m at next level, right associativity) : setup_scope.
Notation "m ;; k" := (wbind m (fun _ => k))
  (at level 100, right associativity) : setup_scope.

Definition wlift {A : Type} (r : result A) : W A := ([], r).

Definition wcall (c : call) : W unit := ([c], Ret tt).

(** [for x in xs: acc = body acc x] *)
Fixpoint wfor {A B : Type} (xs : list A) (acc : B) (body : B -> A -> W B) : W B :=
  match xs with
  | [] => wret acc
  | x :: rest => (acc' <- body acc x ;; wfor rest acc' body)%setup
  end.

(** The two nested loops of [mkimages] and [mkrecovimage]: [node] is
    reassigned at every volume. *)
Definition mkimage_loop (nodes : list string) (s : LibrbdFio) (prefix : string)
    (pool data_pool : pyval) : W unit :=
  wfor nodes tt (fun _ node =>
    (vols <- wlift (py_range (volumes_per_client (attrs s))) ;;
     _ <- wfor vols node (fun node volnum =>
            let node := rpartition_tail "@" node in
            (wcall (CMkImage (prefix ++ node ++ "-" ++ dec (Z.of_nat volnum))
                             (vol_size (attrs s)) pool data_pool
                             (vol_object_size (attrs s))) ;;
             wret node)%setup) ;;
     wret tt)%setup).

(** [mkrecovimage]; [nodes] is [common.get_fqdn_list('clients')] and
    [data_pool] the attribute [self.data_pool]. *)
Definition mkrecovimage (nodes : list string) (s : LibrbdFio) (data_pool : pyval)
  : W unit :=
  let a := attrs s in
  (wcall (CMonitoringStart (run_dir s ++ "/recovery_pool_monitoring")) ;;
   (if use_existing_volumes a then wret tt
    else
      (wcall (CRmPool (recov_pool_name a) (recov_pool_profile a)) ;;
       wcall (CMkPool (recov_pool_name a) (recov_pool_profile a) "rbd") ;;
       mkimage_loop nodes s "cbt-librbdfio-recov-" (recov_pool_name a) data_pool)) ;;
   wcall CMonitoringStop)%setup.

(** [mkimages]; it returns the value it leaves in [self.data_pool]. *)
Definition mkimages (nodes : list string) (s : LibrbdFio) (data_pool : pyval)
  : W pyval :=
  let a := attrs s in
  (wcall (CMonitoringStart (run_dir s ++ "/pool_monitoring")) ;;
   data_pool <-
     (if use_existing_volumes a then wret data_pool
      else
        (wcall (CRmPool (pool_name a) (pool_profile a)) ;;
         wcall (CMkPool (pool_name a) (pool_profile a) "rbd") ;;
         data_pool <-
           (if py_truth (data_pool_profile a)
            then (dp <- wlift (py_add_str (pool_name a) "-data") ;;
                  wcall (CRmPool dp (data_pool_profile a)) ;;
                  wcall (CMkPool dp (data_pool_profile a) "rbd") ;;
                  wret dp)
            else wret data_pool) ;;
         mkimage_loop nodes s "cbt-librbdfio-" (pool_name a) data_pool ;;
         wret data_pool)) ;;
   wcall CMonitoringStop ;;
   wret data_pool)%setup.

(** [initialize]; it returns the value it leaves in [self.data_pool]. The
    call of [prefill] is commented out in the source. *)
Definition initialize (nodes : list string) (s : LibrbdFio) (data_pool : pyval)
  : W pyval :=
  (wcall CInitialize ;;
   wcall (CCleanRemoteDir (run_dir s)) ;;
   wcall (CMakeRemoteDir (run_dir s)) ;;
   wcall (CMonitoringStart (run_dir s ++ "/idle_monitoring")) ;;
   secs <- wlift (sleep_secs (idle_monitor_sleep (attrs s))) ;;
   wcall (CSleep secs) ;;
   wcall CMonitoringStop ;;
   wcall (CSyncFiles (run_dir s ++ "/*") (out_dir (attrs s))) ;;
   (if recovery_test (bench s) && eq_str (recov_test_type (attrs s)) "background"
    then mkrecovimage nodes s data_pool
    else wret tt) ;;
   mkimages nodes s data_pool)%setup.

(** The command [prefill] builds for one volume; [prefill_vols] is the
    attribute [__init__] takes from the [prefill] option of the
    configuration. *)
Definition mk_prefill_cmd (E : Env) (s : LibrbdFio) (prefill_vols : gmap string pyval)
    (volnum : nat) : result string :=
  let a := attrs s in
  let rbd_name := "cbt-librbdfio-`" ++ fqdn_cmd E ++ "`-" ++ dec (Z.of_nat volnum) in
  let pre_cmd := if no_sudo a then "" else "sudo " in
  (v_numjobs <- dict_item prefill_vols "numjobs" ;;
   v_bs <- dict_item prefill_vols "blocksize" ;;
   size <- fmt_fd (vol_size a) ;;
   Ret (pre_cmd ++ py_str (cmd_path a) ++ " --ioengine=rbd --clientname=admin"
        ++ " --pool=" ++ py_str (pool_name a)
        ++ " --rbdname=" ++ rbd_name ++ " --invalidate=0  --rw=write"
        ++ " --numjobs=" ++ py_str v_numjobs
        ++ " --bs=" ++ py_str v_bs
        ++ " --size " ++ size ++ "M " ++ names a
        ++ " --output-format=" ++ py_str (fio_out_format a) ++ " > /dev/null"))%res.

(** The value [__init__] gives [prefill_vols] when the configuration has no
    [prefill] option. *)
Definition default_prefill_vols : gmap string pyval :=
  {[ "blocksize" := VStr "4M"; "numjobs" := VStr "1" ]}.

(** [prefill] *)
Definition prefill (E : Env) (prefill_vols : gmap string pyval) : M unit :=
  (s <- get_self ;;
   let ps : list nat := [] in
   when (use_existing_volumes (attrs s))
     (vols <- lift (py_range (volumes_per_client (attrs s))) ;;
      ps <- for_acc vols ps (fun ps volnum =>
              s <- get_self ;;
              pre_cmd <- lift (mk_prefill_cmd E s prefill_vols volnum) ;;
              p <- pdsh (clients E) pre_cmd ;;
              ret ((ps ++ [p])%list)) ;;
      for_each ps (wait E)))%fio.

End Setup.

(** ** Vocabulary of the statements *)

Module Spec.
Import Py Fio.

(** The test [len(line.strip()) == 0] of [parse]. *)
Definition blank (line : string) : bool := (String.length (strip line) =? 0)%nat.

(** The test ["Starting" in line] of [parse]. *)
Definition has_marker (line : string) : bool := str_in "Starting" line.

Fixpoint all_space (s : string) : bool :=
  match s with
  | EmptyString => true
  | String c r => is_space c && all_space r
  end.

(** A line of text with its line feed. *)
Definition ln (s : string) : string := s ++ String LF "".

Definition is_pdsh (ev : event) : bool :=
  match ev with EvPdsh _ _ _ => true | _ => false end.

Definition is_monitoring_start (ev : event) : bool :=
  match ev with EvMonitoringStart _ => true | _ => false end.

Definition is_monitoring_stop (ev : event) : bool :=
  match ev with EvMonitoringStop _ => true | _ => false end.

Definition is_sleep (ev : event) : bool :=
  match ev with EvSleep _ => true | _ => false end.

Definition is_wait (ev : event) : bool :=
  match ev with EvWait _ => true | _ => false end.

Definition is_wait_start_io (ev : event) : bool :=
  match ev with EvWaitStartIO => true | _ => false end.

Definition is_wait_recovery_done (ev : event) : bool :=
  match ev with EvWaitRecoveryDone => true | _ => false end.

(** Neither a sleep, nor a monitoring start, nor a wait. *)
Definition quiet (ev : event) : Prop :=
  is_sleep ev = false /\ is_monitoring_start ev = false /\ is_wait ev = false.

(** Some event satisfying [p] occurs strictly before some event satisfying
    [q]. *)
Fixpoint precedes (p q : event -> bool) (t : list event) : bool :=
  match t with
  | [] => false
  | ev :: rest => (p ev && existsb q rest) || precedes p q rest
  end.

(** The handles waited on, in the order of the waits. *)
Fixpoint waited (t : list event) : list nat :=
  match t with
  | [] => []
  | EvWait h :: rest => h :: waited rest
  | _ :: rest => waited rest
  end.

(** The handles handed out by [pdsh], in the order of the dispatches. *)
Fixpoint dispatched (t : list event) : list nat :=
  match t with
  | [] => []
  | EvPdsh h _ _ :: rest => h :: dispatched rest
  | _ :: rest => dispatched rest
  end.

(** How many times the handle [h] is waited on. *)
Definition wait_count (h : nat) (t : list event) : nat :=
  List.length (List.filter (Nat.eqb h) (waited t)).

(** The trace and the outcome of a computation from a state. *)
Definition trace_of {A : Type} (m : M A) (st : State) : list event := fst (m st).
Definition outcome_of {A : Type} (m : M A) (st : State) : result (A * State) := snd (m st).

Definition returns {A : Type} (r : result A) : bool :=
  match r with Ret _ => true | _ => false end.

(** Read mix and write mix are integers that add up to 100. *)
Definition balanced (o : FioOptions) : Prop :=
  exists r w : Z,
    as_int (rwmixread o) = Some r /\ rwmixwrite o = VInt w /\ r + w = 100.

(** The ten saved options are the ones the object holds. *)
Definition saved (g : gmap string pyval) (o : FioOptions) : Prop :=
  g !! "time_based" = Some (time_based o) /\
  g !! "ramp" = Some (ramp o) /\
  g !! "iodepth" = Some (iodepth o) /\
  g !! "numjobs" = Some (numjobs o) /\
  g !! "mode" = Some (mode o) /\
  g !! "end_fsync" = Some (end_fsync o) /\
  g !! "rwmixread" = Some (rwmixread o) /\
  g !! "rwmixwrite" = Some (rwmixwrite o) /\
  g !! "log_avg_msec" = Some (log_avg_msec o) /\
  g !! "op_size" = Some (op_size o).

(** The option table [run_workloads] builds for one workload. *)
Definition test_of (spec : gmap string pyval) (s : LibrbdFio) : gmap string pyval :=
  spec ∪ global_fio_options s.

(** [enable_monitor] as [run_workloads] computes it from that table. *)
Definition monitor_enabled (test : gmap string pyval) : bool :=
  match test !! "monitor" with
  | Some v => py_truth v
  | None => true
  end.

(** A Hoare triple for [M]: from a state in [P], every event emitted is in
    [T] and, if the computation returns, value and state are in [Q]. *)
Definition triple {A : Type} (P : State -> Prop) (m : M A)
    (T : event -> Prop) (Q : A -> State -> Prop) : Prop :=
  forall st, P st ->
    Forall T (fst (m st)) /\
    forall a st', snd (m st) = Ret (a, st') -> Q a st'.

(** Code that only touches the state leaves no event. *)
Definition silent {A : Type} (m : M A) : Prop := forall st, fst (m st) = [].

(** [LibrbdFio(archive_dir, cluster, config)] followed by a call [m] on the
    new object, with the local files [files]. *)
Definition boot {A : Type} (E : Env) (b : Benchmark) (cfg : Config)
    (files : gmap string string) (m : M A) : list event * result (A * State) :=
  match init E b cfg with
  | Ret s => m {| self := s; next_handle := 0; disk := files |}
  | Raise e => ([], Raise e)
  | Hang => ([], Hang)
  end.

(** The content of a file once the call has returned. *)
Definition file_after {A : Type} (run : list event * result (A * State)) (path : string)
  : option string :=
  match snd run with
  | Ret (_, st) => disk st !! path
  | _ => None
  end.

End Spec.

(** ** Vocabulary for the shape of files and traces *)

Module Shape.
Import Py Fio Spec.

(** The lines before the first blank line. *)
Fixpoint until_blank (lines : list string) : list string :=
  match lines with
  | [] => []
  | l :: rest => if blank l then [] else l :: until_blank rest
  end.

(** The lines after the first line that carries the marker. *)
Fixpoint after_marker (lines : list string) : list string :=
  match lines with
  | [] => []
  | l :: rest => if has_marker l then rest else after_marker rest
  end.

(** The lines strictly between the first marker line and the first blank
    line of a file. *)
Definition block (lines : list string) : list string :=
  after_marker (until_blank lines).

(** No ramp sleep and no monitoring call. *)
Definition unmonitored (ev : event) : Prop :=
  is_sleep ev = false /\ is_monitoring_start ev = false /\
  is_monitoring_stop ev = false.

(** Not a call of the recovery hand-shake. *)
Definition no_recovery_call (ev : event) : Prop :=
  match ev with
  | EvCreateRecoveryTest _ _ _ | EvWaitStartIO | EvWaitRecoveryDone => False
  | _ => True
  end.

(** An [int] or a [bool]: what ['%d'] and [range] accept. *)
Definition is_num (v : pyval) : bool :=
  match as_int v with Some _ => true | None => false end.


(** A step that returns when [ok] holds and raises [TypeError] when it does
    not. *)
Definition type_checked {A : Type} (r : result A) (ok : bool) : Prop :=
  (exists x, r = Ret x /\ ok = true) \/ (r = Raise TypeError /\ ok = false).

(** A value [len] accepts. *)
Definition has_len (v : pyval) : bool :=
  match v with VStr _ | VList _ => true | _ => false end.

(** The handles waited on in a workload of [n] turns with [v] dispatches
    each, the first handle being [h]: turn [k] waits on the handles of the
    turns 0 to [k]. *)
Definition sweep_waits (h v n : nat) : list nat :=
  List.concat (List.map (fun k => seq h ((k + 1) * v)) (seq 0 n)).

(** The paths [parse] reads and writes for volume [i] of [host]. *)
Definition raw_path (out_dir : string) (i : nat) (host : string) : string :=
  out_dir ++ "/output." ++ dec (Z.of_nat i) ++ "." ++ host.

Definition json_path_of (out_dir : string) (i : nat) (host : string) : string :=
  out_dir ++ "/json_output." ++ dec (Z.of_nat i) ++ "." ++ host.

(** The files [parse] goes through, in order: raw file and json file of each
    volume in [vols], for each client. *)
Definition file_pairs (E : Env) (out_dir : string) (vols : list nat)
  : list (string * string) :=
  flat_map (fun client =>
              List.map (fun i => (raw_path out_dir i (host_info_host E client),
                                  json_path_of out_dir i (host_info_host E client)))
                       vols)
           (split "," (clients E)).

(** Raw file and json file of a pair share their suffix. *)
Definition paired (out_dir : string) (p : string * string) : Prop :=
  exists x : string, fst p = out_dir ++ "/output." ++ x /\
                     snd p = out_dir ++ "/json_output." ++ x.

(** What the filter makes of a raw file. *)
Definition filtered (raw : string) : string :=
  String.concat "" (block (readlines (universal_newlines raw))).

(** The images the loops of [mkimages] and [mkrecovimage] ask for: for each
    node its volumes, named after the host part of the node. *)
Definition images (prefix : string) (nodes : list string) (vols : list nat)
    (s : LibrbdFio) (pool data_pool : pyval) : list Setup.call :=
  flat_map (fun node =>
              List.map (fun volnum =>
                          Setup.CMkImage
                            (prefix ++ Setup.rpartition_tail "@" node ++ "-"
                             ++ dec (Z.of_nat volnum))
                            (vol_size (attrs s)) pool data_pool
                            (vol_object_size (attrs s)))
                       vols)
           nodes.

End Shape.

(** ** Sample inputs *)

Module Demo.
Import Py Fio Spec.

(** One client; every wait is answered. *)
Definition env_ok : Env :=
  {| clients := "c1";
     host_info_host := fun c => c;
     fqdn_cmd := "hostname -f";
     start_io_signalled := true;
     recovery_finished := true;
     completes := fun _ => true;
     synced := fun _ dst d => <[dst ++ "/output.0.c1" := "fio: no output"]> d |}.

(** The same client, but no remote command ever ends and the cluster never
    signals. *)
Definition env_stuck : Env :=
  {| clients := "c1";
     host_info_host := fun c => c;
     fqdn_cmd := "hostname -f";
     start_io_signalled := false;
     recovery_finished := false;
     completes := fun _ => false;
     synced := fun _ _ d => d |}.

Definition bench_plain : Benchmark :=
  {| archive_dir := "/arch";
     bench_run_dir := "/tmp/cbt";
     osd_ra := VNone;
     log_iops := VBool false;
     log_bw := VBool false;
     log_lat := VBool false;
     recovery_test := false |}.

Definition bench_recovery : Benchmark :=
  {| archive_dir := "/arch";
     bench_run_dir := "/tmp/cbt";
     osd_ra := VNone;
     log_iops := VBool false;
     log_bw := VBool false;
     log_lat := VBool false;
     recovery_test := true |}.

(** No workload table: the original-style run. *)
Definition cfg_original : Config := {| options := ∅; cfg_workloads := [] |}.

Definition cfg_background : Config :=
  {| options := {[ "recov_test_type" := VStr "background" ]}; cfg_workloads := [] |}.

(** The sweep of the spec's scenario: two pairs, read mix 70. *)
Definition sweep_randrw : gmap string pyval :=
  {[ "mode" := VStr "randrw"; "rwmixread" := VInt 70;
     "iodepth" := VList [VInt 4; VInt 8]; "numjobs" := VList [VInt 1; VInt 2] ]}.

(** Two queue depths, one job count. *)
Definition sweep_short_numjobs : gmap string pyval :=
  {[ "iodepth" := VList [VInt 4; VInt 8]; "numjobs" := VList [VInt 1] ]}.

(** One queue depth, two job counts. *)
Definition sweep_long_numjobs : gmap string pyval :=
  {[ "iodepth" := VList [VInt 4]; "numjobs" := VList [VInt 1; VInt 2] ]}.

Definition cfg_sweep (ramp_opt : gmap string pyval) (name : string)
    (spec : gmap string pyval) : Config :=
  {| options := ramp_opt; cfg_workloads := [(name, spec)] |}.

Definition ramp0 : gmap string pyval := {[ "ramp" := VInt 0 ]}.

(** The object a call of [__init__] returns. *)
Ltac built r :=
  let v := eval vm_compute in r in
  lazymatch v with
  | Ret ?s => exact s
  end.

(** The sweep of two pairs, ramp 0. *)
Definition obj_sweep : LibrbdFio :=
  ltac:(built (init env_ok bench_plain (cfg_sweep ramp0 "w1" sweep_randrw))).

(** The same sweep with no ramp configured. *)
Definition obj_sweep_no_ramp : LibrbdFio :=
  ltac:(built (init env_ok bench_plain (cfg_sweep ∅ "w1" sweep_randrw))).

(** The sweep whose [numjobs] is the shorter list. *)
Definition obj_short_numjobs : LibrbdFio :=
  ltac:(built (init env_ok bench_plain (cfg_sweep ramp0 "w1" sweep_short_numjobs))).

(** A fresh interpreter state around an object; [h] is the next handle. *)
Definition state_of (s : LibrbdFio) (h : nat) : State :=
  {| self := s; next_handle := h; disk := ∅ |}.

(** Raw outputs for [parse]. *)
Definition raw_one_block : string :=
  ln "preamble" ++ ln "Starting 1 process" ++ ln "{json}" ++ ln "".

Definition raw_no_marker : string := ln "preamble" ++ ln "fio-3.35".

Definition raw_two_blocks : string :=
  ln "Starting 1 process" ++ ln "{first}" ++ ln "" ++ ln ""
  ++ ln "Starting 1 process" ++ ln "{second}" ++ ln "".

Definition raw_blank_first : string :=
  ln "fio-3.35" ++ ln "   " ++ ln "Starting 1 process" ++ ln "{json}" ++ ln "".

Definition one_file (raw : string) : gmap string string :=
  {[ "/arch/output.0.c1" := raw ]}.

Definition json_path : string := "/arch/json_output.0.c1".

(** What [parse] leaves in the json file of the one client, given its raw
    output. *)
Definition parsed (raw : string) : option string :=
  file_after (boot env_ok bench_plain cfg_original (one_file raw) (parse env_ok "/arch"))
             json_path.

End Demo.

(** ** Further sample inputs *)

Module Samples.
Import Py Fio Spec.

(** The sample object with one raw output file on the local disk. *)
Definition st_raw (raw : string) : State :=
  {| self := Demo.obj_sweep; next_handle := 0; disk := Demo.one_file raw |}.

(** A workload that names a mode and no list. *)
Definition spec_no_lists : gmap string pyval := {[ "mode" := VStr "randrw" ]}.

Definition cfg_no_lists : Config := Demo.cfg_sweep Demo.ramp0 "w1" spec_no_lists.

Definition obj_no_lists : LibrbdFio :=
  ltac:(Demo.built (init Demo.env_ok Demo.bench_plain cfg_no_lists)).

(** The first turn of the sample sweep: its trace, the handles it leaves in
    the list and the state it ends in. *)
Definition turn0 : M (list nat) :=
  run_pair Demo.env_ok "w1" (test_of Demo.sweep_randrw Demo.obj_sweep) true VNone [] 0.

Definition turn0_trace : list event :=
  ltac:(let r := eval vm_compute in (turn0 (Demo.state_of Demo.obj_sweep 0)) in
        lazymatch r with (?t, Ret (_, _)) => exact t end).

Definition turn0_handles : list nat :=
  ltac:(let r := eval vm_compute in (turn0 (Demo.state_of Demo.obj_sweep 0)) in
        lazymatch r with (_, Ret (?ps, _)) => exact ps end).

Definition turn0_state : State :=
  ltac:(let r := eval vm_compute in (turn0 (Demo.state_of Demo.obj_sweep 0)) in
        lazymatch r with (_, Ret (_, ?st)) => exact st end).

(** What the dispatch loop of the sample object sends. *)
Definition dispatch0_trace : list event :=
  ltac:(let r := eval vm_compute in
                   (dispatch_volumes Demo.env_ok VNone [] (Demo.state_of Demo.obj_sweep 0)) in
        lazymatch r with (?t, Ret (_, _)) => exact t end).

(** The sample sweep with monitoring switched off and no ramp configured. *)
Definition sweep_unmonitored : gmap string pyval :=
  <["monitor" := VBool false]> Demo.sweep_randrw.

Definition obj_unmonitored : LibrbdFio :=
  ltac:(Demo.built (init Demo.env_ok Demo.bench_plain
                         (Demo.cfg_sweep ∅ "w1" sweep_unmonitored))).

(** A recovery test of a kind [run] does not know. *)
Definition cfg_odd_kind : Config :=
  {| options := {[ "recov_test_type" := VStr "async" ]}; cfg_workloads := [] |}.

Definition obj_odd_kind : LibrbdFio :=
  ltac:(Demo.built (init Demo.env_ok Demo.bench_recovery cfg_odd_kind)).

(** The original-style object, no recovery test. *)
Definition obj_original : LibrbdFio :=
  ltac:(Demo.built (init Demo.env_ok Demo.bench_plain Demo.cfg_original)).

(** A background recovery test with an erasure-coded data pool and two
    volumes per client, on two nodes. *)
Definition cfg_setup : Config :=
  {| options := {[ "recov_test_type" := VStr "background";
                   "data_pool_profile" := VStr "ec";
                   "volumes_per_client" := VInt 2 ]};
     cfg_workloads := [] |}.

Definition obj_setup : LibrbdFio :=
  ltac:(Demo.built (init Demo.env_ok Demo.bench_recovery cfg_setup)).

Definition nodes_setup : list string := ["root@c1"; "c2"].

(** The same with an idle sleep that is no number. *)
Definition obj_bad_idle : LibrbdFio :=
  ltac:(Demo.built (init Demo.env_ok Demo.bench_recovery
                         {| options := {[ "idle_monitor_sleep" := VStr "60" ]};
                            cfg_workloads := [] |})).

(** Existing volumes, three per client. *)
Definition obj_existing : LibrbdFio :=
  ltac:(Demo.built (init Demo.env_ok Demo.bench_plain
                         {| options := {[ "use_existing_volumes" := VBool true;
                                          "volumes_per_client" := VInt 3 ]};
                            cfg_workloads := [] |})).

(** The original-style run of the sample object: its trace and final state. *)
Definition run0_trace : list event :=
  ltac:(let r := eval vm_compute in (run Demo.env_ok (Demo.state_of obj_original 0)) in
        lazymatch r with (?t, Ret (_, _)) => exact t end).

Definition run0_state : State :=
  ltac:(let r := eval vm_compute in (run Demo.env_ok (Demo.state_of obj_original 0)) in
        lazymatch r with (_, Ret (_, ?st)) => exact st end).

(** A preconditioning workload on an object with a run time and no
    preconditioning time. *)
Definition sweep_precond : gmap string pyval :=
  <["precond" := VBool true]> Demo.sweep_randrw.

Definition obj_precond : LibrbdFio :=
  ltac:(Demo.built (init Demo.env_ok Demo.bench_plain
                         {| options := {[ "time" := VInt 60; "ramp" := VInt 0 ]};
                            cfg_workloads := [("w1", sweep_precond)] |})).

(** The sample sweep run as one workload: its trace and final state. *)
Definition sweep0_trace : list event :=
  ltac:(let r := eval vm_compute in
                   (run_workload Demo.env_ok "w1" Demo.sweep_randrw
                                 (Demo.state_of Demo.obj_sweep 0)) in
        lazymatch r with (?t, Ret (_, _)) => exact t end).

Definition sweep0_state : State :=
  ltac:(let r := eval vm_compute in
                   (run_workload Demo.env_ok "w1" Demo.sweep_randrw
                                 (Demo.state_of Demo.obj_sweep 0)) in
        lazymatch r with (_, Ret (_, ?st)) => exact st end).

(** The workload with two queue depths and one job count, cut to its first
    queue depth: the calls it makes and the state it ends in. *)
Definition sweep_short_cut : gmap string pyval :=
  <["iodepth" := VList (firstn 1 [VInt 4; VInt 8])]> Demo.sweep_short_numjobs.

Definition short_cut_trace : list event :=
  ltac:(let r := eval vm_compute in
                   (run_workload Demo.env_ok "w1" sweep_short_cut
                                 (Demo.state_of Demo.obj_short_numjobs 0)) in
        lazymatch r with (?t, Ret (_, _)) => exact t end).

Definition short_cut_state : State :=
  ltac:(let r := eval vm_compute in
                   (run_workload Demo.env_ok "w1" sweep_short_cut
                                 (Demo.state_of Demo.obj_short_numjobs 0)) in
        lazymatch r with (_, Ret (_, ?st)) => exact st end).

End Samples.

(** * Properties *)

Import Py Fio Spec.

(** ** The line filter of [parse] *)

Section ParseLines.

Lemma append_cons (c : ascii) (s t : string) : String c s ++ t = String c (s ++ t).
Proof. reflexivity. Qed.

Lemma append_nil_r (s : string) : s ++ "" = s.
Proof. induction s as [|c r IH]; [reflexivity|]. now rewrite append_cons, IH. Qed.

Lemma append_assoc (s t u : string) : (s ++ t) ++ u = s ++ t ++ u.
Proof. induction s as [|c r IH]; [reflexivity|]. now rewrite !append_cons, IH. Qed.

Lemma lstrip_empty (s : string) : lstrip s = "" <-> all_space s = true.
Proof.
  induction s as [|c r IH]; simpl; [tauto|].
  destruct (is_space c); simpl; [exact IH|].
  split; discriminate.
Qed.

Lemma rstrip_head_kept (c : ascii) (r : string) :
  is_space c = false -> rstrip (String c r) <> "".
Proof.
  intros Hc. simpl. destruct (rstrip r); [rewrite Hc|]; discriminate.
Qed.

Lemma lstrip_head (s : string) :
  lstrip s = "" \/ exists c r, lstrip s = String c r /\ is_space c = false.
Proof.
  induction s as [|c r IH]; simpl; [now left|].
  destruct (is_space c) eqn:Hc; [exact IH|].
  right. now exists c, r.
Qed.

Lemma blank_all_space (line : string) : blank line = all_space line.
Proof.
  unfold blank, strip.
  destruct (lstrip_head line) as [He | (c & r & He & Hc)].
  - rewrite He. simpl. symmetry. now apply lstrip_empty.
  - rewrite He.
    pose proof (rstrip_head_kept c r Hc) as Hne.
    destruct (rstrip (String c r)) as [|c' r'] eqn:Hr; [congruence|].
    simpl. destruct (all_space line) eqn:Ha; [|reflexivity].
    apply lstrip_empty in Ha. congruence.
Qed.

(** A line that carries the marker is never blank. *)
Lemma marker_not_blank (line : string) :
  has_marker line = true -> blank line = false.
Proof.
  rewrite blank_all_space. unfold has_marker.
  induction line as [|c r IH]; [discriminate|].
  intros H. cbn [str_in] in H. apply orb_true_iff in H as [H | H].
  - cbn [String.prefix] in H.
    destruct (ascii_dec "S" c) as [<- | _]; [reflexivity | discriminate].
  - cbn [all_space]. rewrite (IH H). apply andb_false_r.
Qed.

(** Once the flag is up, every line is copied until the first blank one. *)
Lemma parse_lines_copying (body : list string) (b : string) (rest : list string)
    (acc : string) :
  Forall (fun l => blank l = false) body ->
  blank b = true ->
  parse_lines (body ++ b :: rest) 1 acc
  = (0%nat, acc ++ String.concat "" body, S (List.length body)).
Proof.
  intros Hbody Hb. revert acc.
  induction Hbody as [|l body Hl _ IH]; intros acc.
  - cbn [app parse_lines]. unfold blank in Hb. rewrite Hb.
    cbn. now rewrite append_nil_r.
  - cbn [app parse_lines]. unfold blank in Hl. rewrite Hl.
    cbn [Nat.eqb]. rewrite IH. f_equal. f_equal.
    destruct body as [|l' body'].
    + cbn. now rewrite append_nil_r.
    + cbn [String.concat]. cbn [append]. now rewrite append_assoc.
Qed.

(** Before the marker, nothing is copied. *)
Lemma parse_lines_searching (pre rest : list string) (acc : string) :
  Forall (fun l => blank l = false /\ has_marker l = false) pre ->
  parse_lines (pre ++ rest) 0 acc
  = let '(f, out, n) := parse_lines rest 0 acc in (f, out, (List.length pre + n)%nat).
Proof.
  intros Hpre. induction Hpre as [|l pre [Hl Hm] _ IH].
  - cbn. now destruct (parse_lines rest 0 acc) as [[f out] n].
  - cbn [app parse_lines]. unfold blank in Hl. rewrite Hl.
    unfold has_marker in Hm. rewrite Hm. cbn [Nat.eqb]. rewrite IH.
    now destruct (parse_lines rest 0 acc) as [[f out] n].
Qed.

Lemma parse_lines_marker (m : string) (rest : list string) (acc : string) :
  has_marker m = true ->
  parse_lines (m :: rest) 0 acc
  = let '(f, out, n) := parse_lines rest 1 acc in (f, out, S n).
Proof.
  intros Hm. cbn [parse_lines].
  pose proof (marker_not_blank m Hm) as Hb. unfold blank in Hb. rewrite Hb.
  unfold has_marker in Hm. rewrite Hm. reflexivity.
Qed.

(** Without a marker line nothing is ever written, whatever else the file
    holds. *)
Lemma parse_lines_no_marker (lines : list string) (acc : string) :
  Forall (fun l => has_marker l = false) lines ->
  snd (fst (parse_lines lines 0 acc)) = acc /\ fst (fst (parse_lines lines 0 acc)) = 0%nat.
Proof.
  intros H. induction H as [|l lines Hm _ IH]; [now cbn|].
  cbn [parse_lines]. destruct (String.length (strip l) =? 0)%nat; [now cbn|].
  unfold has_marker in Hm. rewrite Hm. cbn [Nat.eqb].
  destruct (parse_lines lines 0 acc) as [[f out] n]. exact IH.
Qed.

(** A blank line met while the flag is down ends the scan with nothing
    written. *)
Lemma parse_lines_blank_first (pre : list string) (b : string) (rest : list string) :
  Forall (fun l => blank l = false /\ has_marker l = false) pre ->
  blank b = true ->
  parse_lines (pre ++ b :: rest) 0 "" = (0%nat, "", S (List.length pre)).
Proof.
  intros Hpre Hb. rewrite parse_lines_searching by exact Hpre.
  cbn [parse_lines]. unfold blank in Hb. rewrite Hb. f_equal. lia.
Qed.

(** The number of lines looked at never exceeds the position of a blank
    line. *)
Lemma parse_lines_stops (pre : list string) (b : string) (rest : list string)
    (found : nat) (acc : string) :
  blank b = true ->
  (snd (parse_lines (pre ++ b :: rest) found acc) <= S (List.length pre))%nat.
Proof.
  intros Hb. revert found acc.
  induction pre as [|l pre IH]; intros found acc.
  - cbn [app parse_lines]. unfold blank in Hb. rewrite Hb. cbn. lia.
  - cbn [app parse_lines]. destruct (String.length (strip l) =? 0)%nat; [cbn; lia|].
    match goal with |- context [parse_lines _ ?f ?a] => specialize (IH f a) end.
    destruct (parse_lines (pre ++ b :: rest) _ _) as [[f out] n].
    cbn in *. lia.
Qed.

End ParseLines.

(** [parse_file] on a disk that holds the raw file. *)
Lemma parse_file_run (out_file json_out_file raw : string) (st : State) :
  disk st !! out_file = Some raw ->
  out_file <> json_out_file ->
  parse_file out_file json_out_file st
  = ([], Ret (tt, {| self := self st; next_handle := next_handle st;
                     disk := <[json_out_file :=
                                 snd (fst (parse_lines (readlines (universal_newlines raw)) 0 ""))]>
                               (disk st) |})).
Proof.
  intros Hraw Hne. unfold parse_file, bind, get_disk, lift, put_disk. cbn.
  rewrite Hraw. cbn. rewrite lookup_insert_ne by congruence. rewrite Hraw. cbn.
  destruct (parse_lines _ 0 "") as [[f out] n]. cbn.
  now rewrite insert_insert_eq.
Qed.

Local Open Scope list_scope.

(** ** Running the monad *)

Section MonadLaws.

Context {A B : Type}.

Lemma pair_eta {X Y : Type} (p : X * Y) : p = (fst p, snd p).
Proof. now destruct p. Qed.

Lemma bind_ret (a : A) (k : A -> M B) (st : State) :
  bind (ret a) k st = k a st.
Proof. unfold bind, ret. now destruct (k a st). Qed.

Lemma bind_emit (ev : event) (k : unit -> M B) (st : State) :
  bind (emit ev) k st = (ev :: fst (k tt st), snd (k tt st)).
Proof. unfold bind, emit. now destruct (k tt st). Qed.

Lemma bind_get_self (k : LibrbdFio -> M B) (st : State) :
  bind get_self k st = k (self st) st.
Proof. unfold bind, get_self. now destruct (k (self st) st). Qed.

Lemma bind_get_disk (k : gmap string string -> M B) (st : State) :
  bind get_disk k st = k (disk st) st.
Proof. unfold bind, get_disk. now destruct (k (disk st) st). Qed.

Lemma bind_modify_self (f : LibrbdFio -> LibrbdFio) (k : unit -> M B) (st : State) :
  bind (modify_self f) k st
  = k tt {| self := f (self st); next_handle := next_handle st; disk := disk st |}.
Proof. unfold bind, modify_self. now destruct (k tt _). Qed.

Lemma bind_put_disk (d : gmap string string) (k : unit -> M B) (st : State) :
  bind (put_disk d) k st
  = k tt {| self := self st; next_handle := next_handle st; disk := d |}.
Proof. unfold bind, put_disk. now destruct (k tt _). Qed.

Lemma bind_lift (r : result A) (k : A -> M B) (st : State) :
  bind (lift r) k st
  = match r with
    | Ret a => k a st
    | Raise e => ([], Raise e)
    | Hang => ([], Hang)
    end.
Proof. unfold bind, lift. destruct r; cbn; [now destruct (k a st) | easy | easy]. Qed.

Lemma bind_block_until (ok : bool) (k : unit -> M B) (st : State) :
  bind (block_until ok) k st = if ok then k tt st else ([], Hang).
Proof. unfold bind, block_until. destruct ok; [now destruct (k tt st) | easy]. Qed.

Lemma bind_pdsh (nodes cmd : string) (k : nat -> M B) (st : State) :
  bind (pdsh nodes cmd) k st
  = let st' := {| self := self st; next_handle := S (next_handle st); disk := disk st |} in
    (EvPdsh (next_handle st) nodes cmd :: fst (k (next_handle st) st'),
     snd (k (next_handle st) st')).
Proof. unfold bind, pdsh. cbn. now destruct (k _ _). Qed.

Lemma bind_run (m : M A) (k : A -> M B) (st : State) :
  bind m k st
  = match snd (m st) with
    | Ret (a, st') => (fst (m st) ++ fst (k a st'), snd (k a st'))
    | Raise e => (fst (m st), Raise e)
    | Hang => (fst (m st), Hang)
    end.
Proof.
  unfold bind. destruct (m st) as [t [[a st']|e|]]; cbn; [|easy|easy].
  now destruct (k a st').
Qed.

Lemma bind_returns (m : M A) (k : A -> M B) (st : State) (t : list event)
    (b : B) (st2 : State) :
  bind m k st = (t, Ret (b, st2)) ->
  exists t1 a st1 t2,
    m st = (t1, Ret (a, st1)) /\ k a st1 = (t2, Ret (b, st2)) /\ t = t1 ++ t2.
Proof.
  unfold bind. destruct (m st) as [t1 [[a st1]|e|]]; [|discriminate|discriminate].
  destruct (k a st1) as [t2 r] eqn:Hk. intros [= <- ->].
  now exists t1, a, st1, t2.
Qed.

End MonadLaws.

Lemma bind_assoc {A B C : Type} (m : M A) (f : A -> M B) (g : B -> M C) (st : State) :
  bind (bind m f) g st = bind m (fun a => bind (f a) g) st.
Proof.
  unfold bind. destruct (m st) as [t [[a st1]|e|]]; [|easy|easy].
  destruct (f a st1) as [t2 [[b st2]|e|]]; [|easy|easy].
  destruct (g b st2) as [t3 r]. now rewrite app_assoc.
Qed.

Lemma bind_when {B : Type} (c : bool) (m : M unit) (k : unit -> M B) (st : State) :
  bind (when c m) k st = if c then bind m k st else k tt st.
Proof. destruct c; [reflexivity|]. apply bind_ret. Qed.

Lemma bind_wait {B : Type} (E : Env) (h : nat) (k : unit -> M B) (st : State) :
  bind (wait E h) k st
  = (EvWait h :: (if completes E h then fst (k tt st) else []),
     if completes E h then snd (k tt st) else Hang).
Proof.
  unfold wait. rewrite bind_assoc, bind_emit, bind_block_until.
  now destruct (completes E h).
Qed.

Lemma m_ret_r {A : Type} (m : M A) (st : State) : bind m ret st = m st.
Proof.
  unfold bind, ret. destruct (m st) as [t [[a st1]|e|]]; [|easy|easy].
  now rewrite app_nil_r.
Qed.

(** ** The rules of the triple *)

Section Triples.

Context {A B : Type}.

Lemma triple_weaken (P P' : State -> Prop) (m : M A) (T T' : event -> Prop)
    (Q Q' : A -> State -> Prop) :
  triple P m T Q ->
  (forall st, P' st -> P st) ->
  (forall ev, T ev -> T' ev) ->
  (forall a st, Q a st -> Q' a st) ->
  triple P' m T' Q'.
Proof.
  intros H HP HT HQ st Hst. destruct (H st (HP st Hst)) as [Ht Hq]. split.
  - eapply Forall_impl; [exact Ht | exact HT].
  - intros a st' Hr. apply HQ. now apply Hq.
Qed.

Lemma triple_ret (P : State -> Prop) (a : A) (T : event -> Prop)
    (Q : A -> State -> Prop) :
  (forall st, P st -> Q a st) -> triple P (ret a) T Q.
Proof.
  intros H st Hst. split; [constructor|].
  cbn. intros a' st' [= <- <-]. now apply H.
Qed.

Lemma triple_bind (P : State -> Prop) (m : M A) (k : A -> M B) (T : event -> Prop)
    (R : A -> State -> Prop) (Q : B -> State -> Prop) :
  triple P m T R ->
  (forall a, triple (R a) (k a) T Q) ->
  triple P (bind m k) T Q.
Proof.
  intros Hm Hk st Hst. destruct (Hm st Hst) as [Ht Hr].
  rewrite bind_run. destruct (snd (m st)) as [[a st1]|e|]; cbn.
  - destruct (Hk a st1 (Hr a st1 eq_refl)) as [Ht2 Hq]. split.
    + apply Forall_app. now split.
    + exact Hq.
  - split; [exact Ht | discriminate].
  - split; [exact Ht | discriminate].
Qed.

Lemma triple_lift (P : State -> Prop) (r : result A) (T : event -> Prop)
    (Q : A -> State -> Prop) :
  (forall a st, P st -> r = Ret a -> Q a st) -> triple P (lift r) T Q.
Proof.
  intros H st Hst. split; [constructor|].
  unfold lift. cbn. destruct r; cbn; [|discriminate|discriminate].
  intros a' st' [= <- <-]. now apply H.
Qed.

End Triples.

Lemma triple_emit (P : State -> Prop) (ev : event) (T : event -> Prop)
    (Q : unit -> State -> Prop) :
  T ev -> (forall st, P st -> Q tt st) -> triple P (emit ev) T Q.
Proof.
  intros Hev H st Hst. split; [now repeat constructor|].
  cbn. intros [] st' [= <-]. now apply H.
Qed.

Lemma triple_block_until (P : State -> Prop) (ok : bool) (T : event -> Prop)
    (Q : unit -> State -> Prop) :
  (forall st, P st -> ok = true -> Q tt st) -> triple P (block_until ok) T Q.
Proof.
  intros H st Hst. split; [constructor|].
  unfold block_until. cbn. destruct ok; [|discriminate].
  intros [] st' [= <-]. now apply H.
Qed.

Lemma triple_get_self (P : State -> Prop) (T : event -> Prop)
    (Q : LibrbdFio -> State -> Prop) :
  (forall st, P st -> Q (self st) st) -> triple P get_self T Q.
Proof.
  intros H st Hst. split; [constructor|].
  cbn. intros s st' [= <- <-]. now apply H.
Qed.

Lemma triple_modify_self (P : State -> Prop) (f : LibrbdFio -> LibrbdFio)
    (T : event -> Prop) (Q : unit -> State -> Prop) :
  (forall st, P st ->
     Q tt {| self := f (self st); next_handle := next_handle st; disk := disk st |}) ->
  triple P (modify_self f) T Q.
Proof.
  intros H st Hst. split; [constructor|].
  cbn. intros [] st' [= <-]. now apply H.
Qed.

Lemma triple_get_disk (P : State -> Prop) (T : event -> Prop)
    (Q : gmap string string -> State -> Prop) :
  (forall st, P st -> Q (disk st) st) -> triple P get_disk T Q.
Proof.
  intros H st Hst. split; [constructor|].
  cbn. intros s st' [= <- <-]. now apply H.
Qed.

Lemma triple_put_disk (P : State -> Prop) (d : gmap string string)
    (T : event -> Prop) (Q : unit -> State -> Prop) :
  (forall st, P st ->
     Q tt {| self := self st; next_handle := next_handle st; disk := d |}) ->
  triple P (put_disk d) T Q.
Proof.
  intros H st Hst. split; [constructor|].
  cbn. intros [] st' [= <-]. now apply H.
Qed.

(** Sequencing under an invariant. *)
Lemma triple_seq {A B : Type} (I : State -> Prop) (m : M A) (k : A -> M B)
    (T : event -> Prop) (Q : B -> State -> Prop) :
  triple I m T (fun _ => I) ->
  (forall a, triple I (k a) T Q) ->
  triple I (bind m k) T Q.
Proof. intros Hm Hk. eapply triple_bind; [exact Hm | exact Hk]. Qed.

Lemma triple_pdsh (P : State -> Prop) (nodes cmd : string) (T : event -> Prop)
    (Q : nat -> State -> Prop) :
  (forall h, T (EvPdsh h nodes cmd)) ->
  (forall st, P st ->
     Q (next_handle st)
       {| self := self st; next_handle := S (next_handle st); disk := disk st |}) ->
  triple P (pdsh nodes cmd) T Q.
Proof.
  intros Hev H st Hst. split; [now repeat constructor|].
  cbn. intros h st' [= <- <-]. now apply H.
Qed.

Lemma triple_when (P : State -> Prop) (c : bool) (m : M unit) (T : event -> Prop)
    (Q : unit -> State -> Prop) :
  (c = true -> triple P m T Q) ->
  (c = false -> forall st, P st -> Q tt st) ->
  triple P (when c m) T Q.
Proof.
  intros Hm Hskip. destruct c; cbn; [now apply Hm|].
  apply triple_ret. now apply Hskip.
Qed.

Lemma triple_for_each {A : Type} (I : State -> Prop) (xs : list A)
    (body : A -> M unit) (T : event -> Prop) :
  (forall x, In x xs -> triple I (body x) T (fun _ => I)) ->
  triple I (for_each xs body) T (fun _ => I).
Proof.
  induction xs as [|x xs IH]; intros H; cbn [for_each].
  - now apply triple_ret.
  - eapply triple_bind; [apply H; now left|].
    intros u. apply IH. intros y Hy. apply H. now right.
Qed.

Lemma triple_for_acc {A B : Type} (I : State -> Prop) (xs : list A) (acc : B)
    (body : B -> A -> M B) (T : event -> Prop) :
  (forall acc x, In x xs -> triple I (body acc x) T (fun _ => I)) ->
  triple I (for_acc xs acc body) T (fun _ => I).
Proof.
  revert acc. induction xs as [|x xs IH]; intros acc H; cbn [for_acc].
  - now apply triple_ret.
  - eapply triple_bind; [apply H; now left|].
    intros acc'. apply IH. intros a y Hy. apply H. now right.
Qed.

Lemma silent_bind {A B : Type} (m : M A) (k : A -> M B) :
  silent m -> (forall a, silent (k a)) -> silent (bind m k).
Proof.
  intros Hm Hk st. rewrite bind_run, Hm.
  destruct (snd (m st)) as [[a st1]|e|]; cbn; [apply Hk| easy | easy].
Qed.

Lemma silent_for_each {A : Type} (xs : list A) (body : A -> M unit) :
  (forall x, silent (body x)) -> silent (for_each xs body).
Proof.
  intros H. induction xs as [|x xs IH]; cbn [for_each]; [easy|].
  apply silent_bind; [apply H | intros u; exact IH].
Qed.

Lemma silent_parse_file (out_file json_out_file : string) :
  silent (parse_file out_file json_out_file).
Proof.
  unfold parse_file. apply silent_bind; [easy|]. intros d.
  apply silent_bind; [easy|]. intros u.
  apply silent_bind; [easy|]. intros u'.
  now destruct (parse_lines _ 0 "") as [[f out] n].
Qed.

Lemma silent_parse (E : Env) (dir : string) : silent (parse E dir).
Proof.
  unfold parse. apply silent_for_each. intros client.
  apply silent_bind; [easy|]. intros s.
  apply silent_bind; [easy|]. intros vols.
  apply silent_for_each. intros i. apply silent_parse_file.
Qed.

(** A state predicate that ignores the disk survives [parse]. *)
Lemma triple_parse_file (I : State -> Prop) (out_file json_out_file : string)
    (T : event -> Prop) :
  (forall st d, I st ->
     I {| self := self st; next_handle := next_handle st; disk := d |}) ->
  triple I (parse_file out_file json_out_file) T (fun _ => I).
Proof.
  intros HI. unfold parse_file.
  apply triple_seq; [apply triple_get_disk; intros st Hst; exact Hst|].
  intros d. apply triple_seq; [apply triple_lift; intros a st Hst _; exact Hst|].
  intros u. apply triple_seq; [apply triple_put_disk; intros st Hst; now apply HI|].
  intros u'. destruct (parse_lines _ 0 "") as [[f out] n].
  apply triple_put_disk. intros st Hst. now apply HI.
Qed.

Lemma triple_parse (I : State -> Prop) (E : Env) (dir : string) (T : event -> Prop) :
  (forall st d, I st ->
     I {| self := self st; next_handle := next_handle st; disk := d |}) ->
  triple I (parse E dir) T (fun _ => I).
Proof.
  intros HI. unfold parse. apply triple_for_each. intros client _.
  apply triple_seq; [apply triple_get_self; intros st Hst; exact Hst|].
  intros s. apply triple_seq; [apply triple_lift; intros a st Hst _; exact Hst|].
  intros vols. apply triple_for_each. intros i _. now apply triple_parse_file.
Qed.

(** ** The top-level [run] and the recovery hand-shake *)

Section RunOrder.

Variable E : Env.

(** [run_prepare], case by case: it never touches the state, and it can only
    fail on an unknown recovery kind or block in [wait_start_io]. *)
Lemma run_prepare_run (st : State) :
  run_prepare E st
  = let s := self st in
    let head :=
      [EvBenchmarkRun; EvDropCaches;
       EvMakeRemoteDir (run_dir s);
       EvDumpConfig (run_dir s);
       EvSleep 5;
       EvCheckPgAutoscaler (wait_pgautoscaler_timeout (attrs s))
                           (run_dir s +:+ "/pgautoscaler.log")] in
    if recovery_test (bench s) then
      if eq_str (recov_test_type (attrs s)) "blocking" then
        (head ++ [EvCreateRecoveryTest (run_dir s) cb_recovery_callback_blocking
                                       (recov_test_type (attrs s))],
         Ret (tt, st))
      else if eq_str (recov_test_type (attrs s)) "background" then
        (head ++ [EvCreateRecoveryTest (run_dir s) cb_recovery_callback_background
                                       (recov_test_type (attrs s));
                  EvWaitStartIO],
         if start_io_signalled E then Ret (tt, st) else Hang)
      else (head, Raise UnboundLocalError)
    else (head, Ret (tt, st)).
Proof.
  unfold run_prepare.
  rewrite !bind_emit, bind_get_self, !bind_emit.
  unfold sleep. rewrite bind_assoc, bind_lift. cbn [sleep_secs as_int Z.ltb Z.compare].
  rewrite !bind_emit, bind_when.
  destruct (recovery_test (bench (self st))); cbn [andb].
  - rewrite bind_assoc, bind_lift.
    destruct (eq_str (recov_test_type (attrs (self st))) "blocking") eqn:Hb.
    + rewrite bind_emit.
      destruct (recov_test_type (attrs (self st))) as [| | |x|]; try discriminate.
      cbn in Hb. apply String.eqb_eq in Hb as ->. reflexivity.
    + destruct (eq_str (recov_test_type (attrs (self st))) "background");
        try rewrite bind_emit; cbn; try reflexivity;
        now destruct (start_io_signalled E).
  - reflexivity.
Qed.

(** When [run_prepare] returns, the state is the one it started from. *)
Lemma run_prepare_returns (st st' : State) (t : list event) (u : unit) :
  run_prepare E st = (t, Ret (u, st')) -> st' = st.
Proof.
  rewrite run_prepare_run. cbv zeta.
  repeat match goal with
         | |- context [if ?c then _ else _] => destruct c
         end; intros [= ]; congruence.
Qed.

(** What [run] does before it reaches client load, when a background recovery
    test is configured. *)
Lemma run_background_unfold (st : State) :
  recovery_test (bench (self st)) = true ->
  recov_test_type (attrs (self st)) = VStr "background" ->
  run E st
  = ([EvBenchmarkRun; EvDropCaches;
      EvMakeRemoteDir (run_dir (self st));
      EvDumpConfig (run_dir (self st));
      EvSleep 5;
      EvCheckPgAutoscaler (wait_pgautoscaler_timeout (attrs (self st)))
                          (run_dir (self st) +:+ "/pgautoscaler.log");
      EvCreateRecoveryTest (run_dir (self st)) cb_recovery_callback_background
                           (VStr "background");
      EvWaitStartIO]
     ++ (if start_io_signalled E
         then fst (bind (run_load E) (fun _ => run_finish E) st) else []),
     if start_io_signalled E
     then snd (bind (run_load E) (fun _ => run_finish E) st) else Hang).
Proof.
  intros Hrec Hbg. unfold run. rewrite bind_run, run_prepare_run. cbv zeta.
  rewrite Hrec, Hbg. cbn [eq_str String.eqb Ascii.eqb Bool.eqb fst snd].
  destruct (start_io_signalled E); [reflexivity|]. cbn. reflexivity.
Qed.

(** The registration [run] makes in blocking mode. *)
Lemma run_blocking_registers (st : State) :
  recovery_test (bench (self st)) = true ->
  recov_test_type (attrs (self st)) = VStr "blocking" ->
  In (EvCreateRecoveryTest (run_dir (self st)) cb_recovery_callback_blocking
                           (VStr "blocking"))
     (trace_of (run E) st).
Proof.
  intros Hrec Hbl. unfold trace_of, run. rewrite bind_run, run_prepare_run. cbv zeta.
  rewrite Hrec, Hbl. cbn [eq_str String.eqb Ascii.eqb Bool.eqb fst snd].
  destruct (snd (run_load E st)) as [[a st1]|e|]; cbn [fst];
    try apply in_or_app; try left; cbn; tauto.
Qed.

(** [run_finish] when it returns: the wait for the end of the recovery, then
    the monitoring stop, then the collection. *)
Lemma run_finish_returns (st st' : State) (t : list event) :
  recovery_test (bench (self st)) = true ->
  run_finish E st = (t, Ret (tt, st')) ->
  recovery_finished E = true /\
  self st' = self st /\
  t = [EvWaitRecoveryDone;
       EvMonitoringStop (run_dir (self st));
       EvDumpHistoricOps (run_dir (self st));
       EvSyncFiles (run_dir (self st) +:+ "/*") (out_dir (attrs (self st)))].
Proof.
  intros Hrec. unfold run_finish.
  rewrite bind_get_self, Hrec, bind_when, bind_assoc, bind_emit, bind_block_until.
  destruct (recovery_finished E); [|discriminate].
  rewrite !bind_emit, bind_get_disk, bind_put_disk. cbn [fst snd].
  unfold analyze.
  match goal with |- context [parse E ?d ?s] =>
    pose proof (silent_parse E d s) as Hsil;
    pose proof (proj2 (triple_parse (fun x => self x = self s) E d (fun _ => True)
                         (fun x _ Hx => Hx) s eq_refl)) as Hself
  end.
  destruct (parse E _ _) as [tp rp]. cbn in Hsil, Hself. subst tp. cbn.
  intros [= <- ->]. split; [reflexivity|]. split; [|reflexivity].
  apply (Hself tt st' eq_refl).
Qed.

End RunOrder.

(** ** The workload loop under an invariant *)

Lemma rbind_ret_inv {A B : Type} (r : result A) (k : A -> result B) (b : B) :
  rbind r k = Ret b -> exists a, r = Ret a /\ k a = Ret b.
Proof. destruct r as [a| |]; cbn; [|discriminate|discriminate]. now exists a. Qed.

Ltac rbind_inv H :=
  repeat match type of H with
         | rbind _ _ = Ret _ =>
             let a := fresh "a" in
             let Ha := fresh "Ha" in
             apply rbind_ret_inv in H as (a & Ha & H)
         | (if ?c then _ else _) = Ret _ => destruct c eqn:?
         end.

(** [apply_overrides] writes options and the run directory, nothing else. *)
Lemma apply_overrides_frame (wk : string) (test : gmap string pyval) (i : nat)
    (s s' : LibrbdFio) :
  apply_overrides wk test i s = Ret s' ->
  bench s' = bench s /\ attrs s' = attrs s /\
  global_fio_options s' = global_fio_options s.
Proof.
  unfold apply_overrides. intros H.
  apply rbind_ret_inv in H as (v_iod & _ & H).
  apply rbind_ret_inv in H as (iod & _ & H).
  apply rbind_ret_inv in H as (v_nj & _ & H).
  apply rbind_ret_inv in H as (job & _ & H).
  apply rbind_ret_inv in H as (v_mode & _ & H).
  apply rbind_ret_inv in H as (s1 & H1 & H).
  apply rbind_ret_inv in H as (s2 & H2 & H).
  apply rbind_ret_inv in H as (v_mode' & _ & H).
  apply rbind_ret_inv in H as (z1 & _ & H).
  apply rbind_ret_inv in H as (z2 & _ & H).
  apply rbind_ret_inv in H as (z3 & _ & H).
  injection H as <-. cbn.
  assert (F2 : bench s2 = bench s1 /\ attrs s2 = attrs s1 /\
               global_fio_options s2 = global_fio_options s1).
  { destruct (dict_has test "rwmixread").
    - apply rbind_ret_inv in H2 as (v & _ & H2).
      apply rbind_ret_inv in H2 as (w & _ & H2). now injection H2 as <-.
    - now injection H2 as <-. }
  assert (F1 : bench s1 = bench s /\ attrs s1 = attrs s /\
               global_fio_options s1 = global_fio_options s).
  { destruct (dict_has test "op_size").
    - apply rbind_ret_inv in H1 as (v & _ & H1). now injection H1 as <-.
    - now injection H1 as <-. }
  destruct F1 as (<- & <- & <-), F2 as (<- & <- & <-). now cbn.
Qed.

(** [restore_global_fio_options] rewrites the ten options from the saved
    table, nothing else. *)
Lemma restore_frame (s r : LibrbdFio) :
  restore_global_fio_options s = Ret r ->
  bench r = bench s /\ attrs r = attrs s /\
  global_fio_options r = global_fio_options s /\ run_dir r = run_dir s /\
  saved (global_fio_options s) (opts r).
Proof.
  unfold restore_global_fio_options, dict_item. intros H.
  repeat match type of H with
         | rbind (match ?x with _ => _ end) _ = Ret _ =>
             destruct x eqn:?; cbn [rbind] in H; [|discriminate]
         end.
  injection H as <-. cbn. unfold saved. cbn. tauto.
Qed.

Section LoopRules.

Variable E : Env.
Variable T : event -> Prop.

(** The dispatch loop: every command handed to [pdsh] was built by
    [mkfiocmd] from the object as it stands. *)
Lemma triple_dispatch_volumes (J : LibrbdFio -> Prop) (time_arg : pyval)
    (ps : list nat) :
  (forall s i cmd h, J s -> mkfiocmd E s i time_arg = Ret cmd ->
                     T (EvPdsh h (clients E) cmd)) ->
  triple (fun st => J (self st)) (dispatch_volumes E time_arg ps) T
         (fun _ st => J (self st)).
Proof.
  intros HT. unfold dispatch_volumes.
  apply triple_seq; [apply triple_get_self; now intros st Hst|]. intros s.
  apply triple_seq; [apply triple_lift; now intros a st Hst _|]. intros vols.
  apply triple_for_acc. intros acc i _.
  eapply triple_bind
    with (R := fun s' st => J (self st) /\ s' = self st);
    [apply triple_get_self; now intros st Hst|].
  intros s'.
  eapply triple_bind
    with (R := fun cmd st => J (self st) /\ mkfiocmd E (self st) i time_arg = Ret cmd).
  { apply triple_lift. intros cmd st [HJ ->] Hc. now split. }
  intros cmd.
  eapply triple_bind with (R := fun _ st => J (self st)).
  { intros st [HJ Hc]. split.
    - repeat constructor. eapply HT; eassumption.
    - cbn. intros h st' [= <- <-]. exact HJ. }
  intros p. apply triple_ret. now intros st Hst.
Qed.

Lemma triple_wait_all (I : State -> Prop) (ps : list nat) :
  (forall h, T (EvWait h)) ->
  triple I (for_each ps (wait E)) T (fun _ => I).
Proof.
  intros HT. apply triple_for_each. intros h _. unfold wait.
  apply triple_seq; [apply triple_emit; [apply HT | now intros st Hst]|].
  intros u. apply triple_block_until. now intros st Hst _.
Qed.

(** One turn of the pair loop: [J] holds between the turns, [J'] while the
    overrides are in place. *)
Lemma triple_run_pair (J J' : LibrbdFio -> Prop) (wk : string)
    (test : gmap string pyval) (mon : bool) (rt : pyval) (ps : list nat) (i : nat) :
  (forall s s', J s -> apply_overrides wk test i s = Ret s' -> J' s') ->
  (forall s r, J' s -> restore_global_fio_options s = Ret r -> J r) ->
  (forall s v cmd h, J' s -> mkfiocmd E s v rt = Ret cmd ->
                     T (EvPdsh h (clients E) cmd)) ->
  (forall d, T (EvMakeRemoteDir d)) ->
  (forall h, T (EvWait h)) ->
  (forall d, T (EvMonitoringStop d)) ->
  (mon = true -> forall s z, J' s -> sleep_secs (ramp (opts s)) = Ret z ->
                 T (EvSleep z) /\ forall d, T (EvMonitoringStart d)) ->
  triple (fun st => J (self st)) (run_pair E wk test mon rt ps i) T
         (fun _ st => J (self st)).
Proof.
  intros Hover Hrest Hcmd Hmk Hwait Hstop Hramp. unfold run_pair.
  eapply triple_bind with (R := fun s st => J (self st) /\ s = self st);
    [apply triple_get_self; now intros st Hst|].
  intros s.
  eapply triple_bind with (R := fun s' st => J' s');
    [apply triple_lift; intros s' st [HJ ->] Hs'; now apply (Hover (self st))|].
  intros s'.
  eapply triple_bind with (R := fun _ st => J' (self st));
    [apply triple_modify_self; now intros st Hst|].
  intros u0.
  apply (triple_seq (fun st => J' (self st)));
    [apply triple_emit; [apply Hmk | now intros st Hst]|].
  intros u1.
  apply (triple_seq (fun st => J' (self st)));
    [now apply triple_dispatch_volumes|].
  intros ps'.
  apply (triple_seq (fun st => J' (self st))).
  { apply triple_when; [|now intros _ st Hst]. intros Hmon.
    eapply triple_bind with (R := fun s1 st => J' (self st) /\ s1 = self st);
      [apply triple_get_self; now intros st Hst|].
    intros s1. unfold sleep.
    eapply triple_bind
      with (R := fun _ st => J' (self st) /\ forall d, T (EvMonitoringStart d)).
    { eapply triple_bind
        with (R := fun z st => J' (self st) /\ T (EvSleep z)
                               /\ forall d, T (EvMonitoringStart d)).
      - apply triple_lift. intros z st [HJ ->] Hz.
        destruct (Hramp Hmon (self st) z HJ Hz). now repeat split.
      - intros z st (HJ & Hz & Hd). split; [now repeat constructor|].
        cbn. intros [] st' [= <-]. now split. }
    intros u2 st [HJ Hd]. split; [repeat constructor; apply Hd|].
    cbn. intros [] st' [= <-]. exact HJ. }
  intros u3.
  apply (triple_seq (fun st => J' (self st))); [now apply triple_wait_all|].
  intros u4.
  apply (triple_seq (fun st => J' (self st))).
  { apply triple_when; [|now intros _ st Hst]. intros _.
    apply (triple_seq (fun st => J' (self st)));
      [apply triple_get_self; now intros st Hst|].
    intros s1. apply triple_emit; [apply Hstop | now intros st Hst]. }
  intros u5.
  eapply triple_bind with (R := fun s1 st => J' (self st) /\ s1 = self st);
    [apply triple_get_self; now intros st Hst|].
  intros s1.
  eapply triple_bind with (R := fun r st => J r);
    [apply triple_lift; intros r st [HJ ->] Hr; now apply (Hrest (self st))|].
  intros r.
  eapply triple_bind with (R := fun _ st => J (self st));
    [apply triple_modify_self; now intros st Hst|].
  intros u6. apply triple_ret. now intros st Hst.
Qed.

(** The whole of [run_workloads], given what one turn needs for every
    workload table the object can build. *)
Lemma triple_run_workloads (J : LibrbdFio -> Prop)
    (J' : gmap string pyval -> LibrbdFio -> Prop) :
  (forall wk spec sw s0, J sw -> In (wk, spec) (workloads (attrs sw)) -> J s0 ->
     let test := test_of spec s0 in
     (forall i s s', J s -> apply_overrides wk test i s = Ret s' -> J' test s') /\
     (forall s r, J' test s -> restore_global_fio_options s = Ret r -> J r) /\
     (forall rt s v cmd h, J' test s -> mkfiocmd E s v rt = Ret cmd ->
                        T (EvPdsh h (clients E) cmd)) /\
     (monitor_enabled test = true ->
        forall s z, J' test s -> sleep_secs (ramp (opts s)) = Ret z ->
                    T (EvSleep z) /\ forall d, T (EvMonitoringStart d))) ->
  (forall d, T (EvMakeRemoteDir d)) ->
  (forall h, T (EvWait h)) ->
  (forall d, T (EvMonitoringStop d)) ->
  triple (fun st => J (self st)) (run_workloads E) T (fun _ st => J (self st)).
Proof.
  intros Hpair Hmk Hwait Hstop. unfold run_workloads.
  eapply triple_bind with (R := fun s st => J (self st) /\ J s);
    [apply triple_get_self; now intros st Hst|].
  intros sw.
  assert (Hloop : forall Hsw : J sw,
             triple (fun st => J (self st))
                    (for_each (workloads (attrs sw)) (fun w => run_workload E (fst w) (snd w)))
                    T (fun _ st => J (self st))).
  2:{ intros st [HJ Hsw]. now apply (Hloop Hsw st). }
  intros Hsw.
  apply triple_for_each. intros [wk spec] Hin. cbn [fst snd]. unfold run_workload.
  specialize (Hpair wk spec sw).
  eapply triple_bind with (R := fun s0 st => J (self st) /\ s0 = self st);
    [apply triple_get_self; now intros st Hst|].
  intros s0.
  eapply triple_bind with (R := fun _ st => J (self st) /\ J s0).
  { apply triple_lift. intros v st [HJ ->] _. now split. }
  intros v.
  eapply triple_bind with (R := fun _ st => J (self st) /\ J s0).
  { apply triple_lift. intros v' st H _. exact H. }
  intros v_iod.
  eapply triple_bind with (R := fun _ st => J (self st) /\ J s0).
  { apply triple_lift. intros n st H _. exact H. }
  intros n.
  eapply triple_bind with (R := fun _ st => J (self st)).
  2:{ intros ps. apply triple_ret. now intros st Hst. }
  intros st [HJ HJ0]. revert st HJ.
  change (triple (fun st => J (self st))
            (for_acc (seq 0 n) []
               (run_pair E wk (test_of spec s0) (monitor_enabled (test_of spec s0))
                  (if dict_has (test_of spec s0) "precond"
                   then precond_time (attrs s0) else time (attrs s0))))
            T (fun _ st => J (self st))).
  destruct (Hpair s0 Hsw Hin HJ0) as (Hover & Hrest & Hcmd & Hramp).
  apply triple_for_acc. intros acc i _.
  apply triple_run_pair with (J' := J' (test_of spec s0)); auto.
  - intros s1 s1'. apply Hover.
  - intros s1 v1 cmd h. apply Hcmd.
Qed.

End LoopRules.

(** ** Claims about [run] and the recovery callbacks *)

(** Supplies the object [__init__] builds from concrete arguments. *)
Ltac exists_init E b cfg :=
  let r := eval vm_compute in (init E b cfg) in
  lazymatch r with
  | Ret ?s => exists s
  end.

Lemma app_split_notin {A : Type} (a x pre post : list A) (e : A) :
  a ++ x = pre ++ e :: post -> ~ In e a -> exists c, pre = a ++ c.
Proof.
  revert pre. induction a as [|y a IH]; intros pre Heq Hnot.
  - now exists pre.
  - destruct pre as [|p pre]; cbn in Heq.
    + injection Heq as -> _. exfalso. apply Hnot. now left.
    + injection Heq as -> Heq. destruct (IH pre Heq) as [c ->].
      * intros Hin. apply Hnot. now right.
      * now exists c.
Qed.

Lemma dispatched_app (t1 t2 : list event) :
  dispatched (t1 ++ t2) = dispatched t1 ++ dispatched t2.
Proof.
  induction t1 as [|ev t1 IH]; [reflexivity|].
  destruct ev; cbn; now rewrite ?IH.
Qed.

(** The load phase of [run] leaves the base-class attributes alone. *)
Lemma run_load_bench (E : Env) (st st' : State) (t : list event) (u : unit) :
  run_load E st = (t, Ret (u, st')) ->
  bench (self st') = bench (self st).
Proof.
  intros Hrun.
  assert (Htr : triple (fun x => bench (self x) = bench (self st)) (run_load E)
                       (fun _ => True)
                       (fun _ x => bench (self x) = bench (self st))).
  { unfold run_load.
    eapply triple_bind with (R := fun _ x => bench (self x) = bench (self st));
      [apply triple_get_self; now intros x Hx|].
    intros s. destruct (workloads (attrs s)).
    - apply (triple_seq (fun x => bench (self x) = bench (self st)));
        [apply triple_emit; [exact I | now intros x Hx]|].
      intros u0.
      apply (triple_seq (fun x => bench (self x) = bench (self st))).
      + apply (triple_dispatch_volumes E (fun _ => True)
                 (fun s0 => bench s0 = bench (self st))). now intros.
      + intros ps. now apply triple_wait_all.
    - apply (triple_run_workloads E (fun _ => True)
               (fun s0 => bench s0 = bench (self st))
               (fun _ s0 => bench s0 = bench (self st))); try easy.
      intros wk spec sw s0 _ _ _ test. repeat split; try easy.
      + intros i s1 s1' H1 Ho. apply apply_overrides_frame in Ho as (-> & _). exact H1.
      + intros s1 r H1 Hr. apply restore_frame in Hr as (-> & _). exact H1. }
  destruct (Htr st eq_refl) as [_ Hq]. apply (Hq u st'). now rewrite Hrun.
Qed.

(** C6 — In background recovery mode [run] calls [wait_start_io] before it
    hands any fio command to [pdsh]: in every trace of [run] each dispatch
    comes after the [wait_start_io] call, and when that call never returns
    [run] blocks there having dispatched nothing. *)
Theorem background_dispatch_after_start_io (E : Env) (st : State) :
  recovery_test (bench (self st)) = true ->
  recov_test_type (attrs (self st)) = VStr "background" ->
  (forall pre h nodes cmd post,
      trace_of (run E) st = pre ++ EvPdsh h nodes cmd :: post ->
      In EvWaitStartIO pre) /\
  (start_io_signalled E = false ->
      outcome_of (run E) st = Hang /\ dispatched (trace_of (run E) st) = []).
Proof.
  intros Hrec Hbg. unfold trace_of, outcome_of.
  rewrite (run_background_unfold E st Hrec Hbg). cbn [fst snd]. split.
  - intros pre h nodes cmd post Heq.
    apply app_split_notin in Heq as [c ->].
    + apply in_or_app. left. do 7 right. now left.
    + cbn. intuition discriminate.
  - intros ->. split; [reflexivity|]. reflexivity.
Qed.

(** The same, on the sample object with a cluster that never signals. *)
Lemma background_dispatch_after_start_io_witness :
  exists s, init Demo.env_stuck Demo.bench_recovery Demo.cfg_background = Ret s /\
    let st := {| self := s; next_handle := 0; disk := ∅ |} in
    outcome_of (run Demo.env_stuck) st = Hang /\
    dispatched (trace_of (run Demo.env_stuck) st) = [].
Proof.
  exists_init Demo.env_stuck Demo.bench_recovery Demo.cfg_background.
  lazymatch goal with
  | |- init _ _ _ = Ret ?s /\ _ =>
      split; [vm_compute; reflexivity|];
      exact (proj2 (background_dispatch_after_start_io Demo.env_stuck
                      {| self := s; next_handle := 0; disk := ∅ |}
                      eq_refl eq_refl) eq_refl)
  end.
Defined.

(** C4 (as the code has it) — When a recovery test is configured, a [run]
    that returns has first blocked until the cluster reported the recovery
    done and only then stopped monitoring: its trace ends with the
    recovery-done wait, the monitoring stop, the historic-ops dump and the
    file sync, in this order. *)
Theorem recovery_wait_precedes_monitoring_stop (E : Env) (st st' : State)
    (t : list event) :
  recovery_test (bench (self st)) = true ->
  run E st = (t, Ret (tt, st')) ->
  recovery_finished E = true /\
  exists pre,
    t = pre ++ [EvWaitRecoveryDone;
                EvMonitoringStop (run_dir (self st'));
                EvDumpHistoricOps (run_dir (self st'));
                EvSyncFiles (run_dir (self st') +:+ "/*") (out_dir (attrs (self st')))].
Proof.
  intros Hrec Hrun. unfold run in Hrun.
  apply bind_returns in Hrun as (tp & up & stp & t1 & Hprep & Hrun & ->).
  apply bind_returns in Hrun as (tl & ul & stl & tf & Hload & Hfin & ->).
  apply run_prepare_returns in Hprep as ->.
  apply run_load_bench in Hload.
  apply run_finish_returns in Hfin as (Hdone & Hself & ->);
    [|now rewrite Hload].
  split; [exact Hdone|]. exists (tp ++ tl). now rewrite Hself, <- app_assoc.
Qed.

(** A run of the sample object in the original style, recovery configured. *)
Lemma recovery_wait_precedes_monitoring_stop_witness :
  exists s st' t,
    init Demo.env_ok Demo.bench_recovery Demo.cfg_original = Ret s /\
    run Demo.env_ok {| self := s; next_handle := 0; disk := ∅ |} = (t, Ret (tt, st')) /\
    recovery_finished Demo.env_ok = true /\
    exists pre,
      t = pre ++ [EvWaitRecoveryDone;
                  EvMonitoringStop (run_dir (self st'));
                  EvDumpHistoricOps (run_dir (self st'));
                  EvSyncFiles (run_dir (self st') +:+ "/*")
                              (out_dir (attrs (self st')))].
Proof.
  exists_init Demo.env_ok Demo.bench_recovery Demo.cfg_original.
  lazymatch goal with
  | |- exists st' t, _ /\ run ?E ?st = _ /\ _ =>
      let r := eval vm_compute in (run E st) in
      lazymatch r with
      | (?t, Ret (tt, ?st')) =>
          exists st', t;
          split; [vm_compute; reflexivity|];
          split; [vm_compute; reflexivity|];
          apply (recovery_wait_precedes_monitoring_stop E st st' t);
          vm_compute; reflexivity
      end
  end.
Defined.

(** C4, as stated, fails: in the original-style run of the sample object no
    monitoring stop comes before the recovery-done wait, while the wait does
    come before the stop. *)
Lemma monitoring_stop_not_before_recovery_wait :
  let t := fst (boot Demo.env_ok Demo.bench_recovery Demo.cfg_original ∅
                     (run Demo.env_ok)) in
  precedes is_monitoring_stop is_wait_recovery_done t = false /\
  precedes is_wait_recovery_done is_monitoring_stop t = true /\
  returns (snd (boot Demo.env_ok Demo.bench_recovery Demo.cfg_original ∅
                     (run Demo.env_ok))) = true.
Proof. vm_compute. repeat split; reflexivity. Qed.

(** C5 (as the code has it) — In blocking mode the callback [run] registers
    is [recovery_callback_blocking]; called, it dispatches
    [sudo killall -2 fio] to all clients and then calls [communicate] on the
    handle it got, so it returns only once that remote command has ended and
    blocks forever if it never ends. *)
Theorem blocking_callback_awaits_dispatch (E : Env) (st : State) :
  recovery_test (bench (self st)) = true ->
  recov_test_type (attrs (self st)) = VStr "blocking" ->
  In (EvCreateRecoveryTest (run_dir (self st)) cb_recovery_callback_blocking
                           (VStr "blocking"))
     (trace_of (run E) st) /\
  forall st1 : State,
    call_back E cb_recovery_callback_blocking st1
    = ([EvPdsh (next_handle st1) (clients E) "sudo killall -2 fio";
        EvCommunicate (next_handle st1)],
       if completes E (next_handle st1)
       then Ret (tt, {| self := self st1; next_handle := S (next_handle st1);
                        disk := disk st1 |})
       else Hang).
Proof.
  intros Hrec Hbl. split; [now apply run_blocking_registers|].
  intros st1. cbn [call_back]. unfold recovery_callback_blocking, communicate.
  rewrite bind_pdsh. cbv zeta. unfold bind, emit, block_until. cbn.
  now destruct (completes E (next_handle st1)).
Qed.

Lemma blocking_callback_awaits_dispatch_witness :
  exists s,
    init Demo.env_ok Demo.bench_recovery Demo.cfg_original = Ret s /\
    forall st1 : State,
      call_back Demo.env_ok cb_recovery_callback_blocking st1
      = ([EvPdsh (next_handle st1) "c1" "sudo killall -2 fio";
          EvCommunicate (next_handle st1)],
         Ret (tt, {| self := self st1; next_handle := S (next_handle st1);
                     disk := disk st1 |})).
Proof.
  exists_init Demo.env_ok Demo.bench_recovery Demo.cfg_original.
  lazymatch goal with
  | |- init _ _ _ = Ret ?s /\ _ =>
      split; [vm_compute; reflexivity|];
      exact (proj2 (blocking_callback_awaits_dispatch Demo.env_ok
                      {| self := s; next_handle := 0; disk := ∅ |}
                      eq_refl eq_refl))
  end.
Defined.

(** C5, as stated, fails: when the remote [killall] never ends, the callback
    has called [communicate] on its handle and never returns. *)
Lemma blocking_callback_not_fire_and_forget :
  boot Demo.env_stuck Demo.bench_recovery Demo.cfg_original ∅
       (call_back Demo.env_stuck cb_recovery_callback_blocking)
  = ([EvPdsh 0 "c1" "sudo killall -2 fio"; EvCommunicate 0], Hang).
Proof. vm_compute. reflexivity. Qed.

(** ** Claims about [parse] *)

Import Demo.

(** C3 — [parse] copies a line into the json file only after a line that
    contains "Starting" and stops at the first blank line after it. For a raw
    file whose lines are a preamble, a marker line, a body and a blank line
    (and anything after), the json file holds exactly the body; a raw file
    with no marker line yields a json file that exists and is empty; of two
    marker blocks only the first is copied. *)
Theorem parse_copies_first_marker_block :
  (forall (st : State) (out_file json_out_file raw : string)
          (pre : list string) (m : string) (body : list string) (b : string)
          (rest : list string),
      disk st !! out_file = Some raw ->
      out_file <> json_out_file ->
      readlines (universal_newlines raw) = pre ++ m :: body ++ b :: rest ->
      Forall (fun l => blank l = false /\ has_marker l = false) pre ->
      has_marker m = true ->
      Forall (fun l => blank l = false) body ->
      blank b = true ->
      parse_file out_file json_out_file st
      = ([], Ret (tt, {| self := self st; next_handle := next_handle st;
                         disk := <[json_out_file := String.concat "" body]> (disk st) |}))) /\
  (forall (st : State) (out_file json_out_file raw : string),
      disk st !! out_file = Some raw ->
      out_file <> json_out_file ->
      Forall (fun l => has_marker l = false) (readlines (universal_newlines raw)) ->
      parse_file out_file json_out_file st
      = ([], Ret (tt, {| self := self st; next_handle := next_handle st;
                         disk := <[json_out_file := ""]> (disk st) |}))) /\
  parsed Demo.raw_one_block = Some (ln "{json}") /\
  parsed Demo.raw_no_marker = Some "" /\
  parsed Demo.raw_two_blocks = Some (ln "{first}").
Proof.
  split; [|split; [|repeat split; vm_compute; reflexivity]].
  - intros st out_file json_out_file raw pre m body b rest Hraw Hne Hlines Hpre Hm Hbody Hb.
    rewrite (parse_file_run _ _ raw) by assumption.
    rewrite Hlines, parse_lines_searching by exact Hpre.
    rewrite parse_lines_marker by exact Hm.
    rewrite parse_lines_copying by assumption. reflexivity.
  - intros st out_file json_out_file raw Hraw Hne Hno.
    rewrite (parse_file_run _ _ raw) by assumption.
    now rewrite (proj1 (parse_lines_no_marker _ "" Hno)).
Qed.

Lemma parse_copies_first_marker_block_witness :
  exists s,
    init Demo.env_ok Demo.bench_plain Demo.cfg_original = Ret s /\
    let st := {| self := s; next_handle := 0; disk := Demo.one_file Demo.raw_one_block |} in
    parse_file "/arch/output.0.c1" json_path st
    = ([], Ret (tt, {| self := s; next_handle := 0;
                       disk := <[json_path := String.concat "" [ln "{json}"]]>
                                 (Demo.one_file Demo.raw_one_block) |})).
Proof.
  exists_init Demo.env_ok Demo.bench_plain Demo.cfg_original.
  lazymatch goal with
  | |- init _ _ _ = Ret ?s /\ _ =>
      split; [vm_compute; reflexivity|];
      apply (proj1 parse_copies_first_marker_block
               {| self := s; next_handle := 0; disk := Demo.one_file Demo.raw_one_block |}
               "/arch/output.0.c1" json_path Demo.raw_one_block
               [ln "preamble"] (ln "Starting 1 process") [ln "{json}"] (ln "") [])
  end.
  - vm_compute; reflexivity.
  - discriminate.
  - vm_compute; reflexivity.
  - repeat constructor.
  - vm_compute; reflexivity.
  - repeat constructor.
  - vm_compute; reflexivity.
Defined.

(** C9 — When a blank line comes before any line with the marker, [parse]
    stops at that blank line: the scan looks at no line past it and the json
    file is left empty, whatever follows (a marker and a payload included). *)
Theorem parse_blank_before_marker (st : State) (out_file json_out_file raw : string)
    (pre : list string) (b : string) (rest : list string) :
  disk st !! out_file = Some raw ->
  out_file <> json_out_file ->
  readlines (universal_newlines raw) = pre ++ b :: rest ->
  Forall (fun l => has_marker l = false) pre ->
  blank b = true ->
  parse_file out_file json_out_file st
  = ([], Ret (tt, {| self := self st; next_handle := next_handle st;
                     disk := <[json_out_file := ""]> (disk st) |})) /\
  (snd (parse_lines (pre ++ b :: rest) 0 "") <= S (List.length pre))%nat /\
  (Forall (fun l => blank l = false) pre ->
   parse_lines (pre ++ b :: rest) 0 "" = (0%nat, "", S (List.length pre))).
Proof.
  intros Hraw Hne Hlines Hpre Hb.
  assert (Hout : snd (fst (parse_lines (pre ++ b :: rest) 0 "")) = "").
  { clear Hlines. induction Hpre as [|l pre Hl _ IH].
    - cbn [app parse_lines]. unfold blank in Hb. now rewrite Hb.
    - cbn [app parse_lines]. destruct (String.length (strip l) =? 0)%nat; [reflexivity|].
      unfold has_marker in Hl. rewrite Hl. cbn [Nat.eqb].
      destruct (parse_lines (pre ++ b :: rest) 0 "") as [[f out] n]. exact IH. }
  split; [|split].
  - rewrite (parse_file_run _ _ raw) by assumption. now rewrite Hlines, Hout.
  - now apply parse_lines_stops.
  - intros Hnb. apply parse_lines_blank_first; [|exact Hb].
    clear -Hpre Hnb. induction Hpre as [|l pre Hl _ IH]; [constructor|].
    inversion Hnb; subst. constructor; [now split | now apply IH].
Qed.

Lemma parse_blank_before_marker_witness :
  exists s,
    init Demo.env_ok Demo.bench_plain Demo.cfg_original = Ret s /\
    parsed Demo.raw_blank_first = Some "" /\
    parse_lines (readlines (universal_newlines Demo.raw_blank_first)) 0 ""
    = (0%nat, "", 2%nat).
Proof.
  exists_init Demo.env_ok Demo.bench_plain Demo.cfg_original.
  lazymatch goal with
  | |- init _ _ _ = Ret ?s /\ _ =>
      split; [vm_compute; reflexivity|];
      split; [vm_compute; reflexivity|];
      apply (proj2 (proj2 (parse_blank_before_marker
               {| self := s; next_handle := 0; disk := Demo.one_file Demo.raw_blank_first |}
               "/arch/output.0.c1" json_path Demo.raw_blank_first
               [ln "fio-3.35"] (ln "   ")
               [ln "Starting 1 process"; ln "{json}"; ln ""]
               ltac:(vm_compute; reflexivity) ltac:(discriminate)
               ltac:(vm_compute; reflexivity) ltac:(repeat constructor)
               ltac:(vm_compute; reflexivity))))
  end.
  repeat constructor.
Defined.

(** ** Saved options, read/write mix and ramp *)

Lemma backup_saved (s : LibrbdFio) :
  saved (global_fio_options (backup_global_fio_options s)) (opts s).
Proof.
  unfold backup_global_fio_options, saved. cbn.
  repeat split; simplify_map_eq; reflexivity.
Qed.

Lemma saved_inj (g : gmap string pyval) (o1 o2 : FioOptions) :
  saved g o1 -> saved g o2 -> o1 = o2.
Proof.
  unfold saved. destruct o1, o2. cbn. intros H1 H2.
  decompose [and] H1. decompose [and] H2. congruence.
Qed.

Lemma restore_of_saved (s : LibrbdFio) (o : FioOptions) :
  saved (global_fio_options s) o ->
  restore_global_fio_options s = Ret (set_opts (fun _ => o) s).
Proof.
  unfold saved, restore_global_fio_options, dict_item. intros H.
  decompose [and] H.
  repeat match goal with Hk : _ !! _ = Some _ |- _ => rewrite Hk; clear Hk end.
  cbn. now destruct o.
Qed.

(** [apply_overrides] never touches the ramp, and sets the mixes together. *)
Lemma apply_overrides_opts (wk : string) (test : gmap string pyval) (i : nat)
    (s s' : LibrbdFio) :
  apply_overrides wk test i s = Ret s' ->
  ramp (opts s') = ramp (opts s) /\
  match test !! "rwmixread" with
  | Some v => rwmixread (opts s') = v /\ balanced (opts s')
  | None => rwmixread (opts s') = rwmixread (opts s) /\
            rwmixwrite (opts s') = rwmixwrite (opts s)
  end.
Proof.
  unfold apply_overrides. intros H.
  apply rbind_ret_inv in H as (v_iod & _ & H).
  apply rbind_ret_inv in H as (iod & _ & H).
  apply rbind_ret_inv in H as (v_nj & _ & H).
  apply rbind_ret_inv in H as (job & _ & H).
  apply rbind_ret_inv in H as (v_mode & _ & H).
  apply rbind_ret_inv in H as (s1 & H1 & H).
  apply rbind_ret_inv in H as (s2 & H2 & H).
  apply rbind_ret_inv in H as (v_mode' & _ & H).
  apply rbind_ret_inv in H as (z1 & _ & H).
  apply rbind_ret_inv in H as (z2 & _ & H).
  apply rbind_ret_inv in H as (z3 & _ & H).
  injection H as <-. cbn.
  assert (F1 : ramp (opts s1) = ramp (opts s) /\
               rwmixread (opts s1) = rwmixread (opts s) /\
               rwmixwrite (opts s1) = rwmixwrite (opts s)).
  { destruct (dict_has test "op_size").
    - apply rbind_ret_inv in H1 as (v & _ & H1). now injection H1 as <-.
    - now injection H1 as <-. }
  destruct F1 as (Fr & Frd & Fwr).
  unfold dict_has in H2. unfold dict_item in H2.
  destruct (test !! "rwmixread") as [v|] eqn:Hv.
  - rewrite bool_decide_eq_true_2 in H2 by eauto. cbn in H2.
    apply rbind_ret_inv in H2 as (w & Hw & H2). injection H2 as <-. cbn.
    split; [exact Fr|]. split; [reflexivity|].
    unfold py_rsub in Hw. destruct (as_int v) as [r|] eqn:Hr; [|discriminate].
    injection Hw as <-. exists r, (100 - r). cbn. repeat split; [exact Hr | lia].
  - rewrite bool_decide_eq_false_2 in H2 by (intros [? ?]; discriminate).
    injection H2 as <-. tauto.
Qed.

(** [dispatch_volumes] leaves the object as it is and emits dispatches only. *)
Lemma dispatch_volumes_run (E : Env) (rt : pyval) (ps : list nat) (st : State) :
  Forall (fun ev => is_pdsh ev = true) (fst (dispatch_volumes E rt ps st)) /\
  forall ps' st', snd (dispatch_volumes E rt ps st) = Ret (ps', st') ->
                  self st' = self st.
Proof.
  assert (Htr : triple (fun x => self x = self st) (dispatch_volumes E rt ps)
                       (fun ev => is_pdsh ev = true) (fun _ x => self x = self st)).
  { apply (triple_dispatch_volumes E (fun ev => is_pdsh ev = true)
             (fun s => s = self st)). now intros. }
  destruct (Htr st eq_refl) as [Ht Hq]. split; [exact Ht | exact Hq].
Qed.

(** C8 — [backup_global_fio_options], then any change to the object that
    leaves the saved table alone, then [restore_global_fio_options] gives back
    the ten options as they were; the overlay of [run_workloads] is such a
    change, and every turn of its pair loop that completes ends with the
    options restored, before the next turn starts. *)
Theorem backup_overlay_restore_identity (s : LibrbdFio) :
  (forall s' : LibrbdFio,
      global_fio_options s' = global_fio_options (backup_global_fio_options s) ->
      exists r, restore_global_fio_options s' = Ret r /\ opts r = opts s) /\
  (forall (wk : string) (test : gmap string pyval) (i : nat) (s' : LibrbdFio),
      apply_overrides wk test i (backup_global_fio_options s) = Ret s' ->
      global_fio_options s' = global_fio_options (backup_global_fio_options s)) /\
  (forall (E : Env) (wk : string) (test : gmap string pyval) (mon : bool)
          (rt : pyval) (ps : list nat) (i : nat) (st : State) (t : list event)
          (ps' : list nat) (st' : State),
      self st = backup_global_fio_options s ->
      run_pair E wk test mon rt ps i st = (t, Ret (ps', st')) ->
      opts (self st') = opts s /\
      global_fio_options (self st') = global_fio_options (self st)).
Proof.
  pose proof (backup_saved s) as Hsaved. split; [|split].
  - intros s' Hg. rewrite <- Hg in Hsaved.
    rewrite (restore_of_saved s' (opts s) Hsaved). now eexists.
  - intros wk test i s' H. now apply apply_overrides_frame in H as (_ & _ & ->).
  - intros E wk test mon rt ps i st t ps' st' Hst Hrun.
    set (g := global_fio_options (backup_global_fio_options s)) in *.
    assert (Htr : triple (fun x => global_fio_options (self x) = g /\
                                   opts (self x) = opts s)
                         (run_pair E wk test mon rt ps i) (fun _ => True)
                         (fun _ x => global_fio_options (self x) = g /\
                                     opts (self x) = opts s)).
    { apply (triple_run_pair E (fun _ => True)
               (fun s1 => global_fio_options s1 = g /\ opts s1 = opts s)
               (fun s1 => global_fio_options s1 = g)); try easy.
      - intros s1 s1' [Hg _] Ho. apply apply_overrides_frame in Ho as (_ & _ & ->).
        exact Hg.
      - intros s1 r Hg Hr. apply restore_frame in Hr as (_ & _ & Hgr & _ & Hs).
        split; [congruence|]. rewrite Hg in Hs. now apply (saved_inj g). }
    destruct (Htr st) as [_ Hq]; [rewrite Hst; now split|].
    rewrite Hrun in Hq. destruct (Hq ps' st' eq_refl) as [Hg Ho].
    split; [exact Ho|]. now rewrite Hg, Hst.
Qed.

(** Backup, a change of mode and read mix, restore: on the sample object. *)
Lemma backup_overlay_restore_identity_witness :
  exists s,
    init Demo.env_ok Demo.bench_plain Demo.cfg_original = Ret s /\
    exists r,
      restore_global_fio_options
        (set_opts (with_rwmixread (VInt 70))
           (set_opts (with_mode (VStr "randrw")) (backup_global_fio_options s)))
      = Ret r /\
      opts r = opts s.
Proof.
  exists_init Demo.env_ok Demo.bench_plain Demo.cfg_original.
  lazymatch goal with
  | |- init _ _ _ = Ret ?s /\ _ =>
      split; [vm_compute; reflexivity|];
      apply (proj1 (backup_overlay_restore_identity s)); reflexivity
  end.
Defined.

(** What [__init__] establishes. *)
Lemma init_facts (E : Env) (b : Benchmark) (cfg : Config) (s0 : LibrbdFio) :
  init E b cfg = Ret s0 ->
  bench s0 = b /\
  workloads (attrs s0) = cfg_workloads cfg /\
  balanced (opts s0) /\
  ramp (opts s0) = dict_get (options cfg) "ramp" VNone /\
  (cfg_workloads cfg <> [] -> saved (global_fio_options s0) (opts s0)).
Proof.
  unfold init. intros H.
  apply rbind_ret_inv in H as (w & Hw & H).
  apply rbind_ret_inv in H as (pv & _ & H).
  apply rbind_ret_inv in H as (tp & _ & H).
  apply rbind_ret_inv in H as (rd1 & _ & H).
  apply rbind_ret_inv in H as (z1 & _ & H).
  apply rbind_ret_inv in H as (z2 & _ & H).
  apply rbind_ret_inv in H as (z3 & _ & H).
  apply rbind_ret_inv in H as (procs & _ & H).
  injection H as <-.
  assert (Hbal : exists r : Z,
             as_int (dict_get (options cfg) "rwmixread" (VInt 50)) = Some r /\
             w = VInt (100 - r)).
  { unfold py_rsub in Hw.
    destruct (as_int (dict_get (options cfg) "rwmixread" (VInt 50))) as [r|];
      [|discriminate].
    injection Hw as <-. now exists r. }
  destruct Hbal as (r & Hr & ->).
  assert (Hb : forall o, rwmixread o = dict_get (options cfg) "rwmixread" (VInt 50) ->
                         rwmixwrite o = VInt (100 - r) -> balanced o).
  { intros o Ho1 Ho2. exists r, (100 - r). rewrite Ho1. repeat split; [exact Hr | exact Ho2 | lia]. }
  destruct (cfg_workloads cfg) as [|w1 ws] eqn:Hws.
  - cbn. split; [reflexivity|]. split; [reflexivity|].
    split; [now apply Hb|]. split; [reflexivity | congruence].
  - match goal with
    | |- context [backup_global_fio_options ?X] =>
        pose proof (backup_saved X) as Hsv
    end.
    split; [reflexivity|]. split; [reflexivity|].
    split; [now apply Hb|]. split; [reflexivity|].
    intros _. exact Hsv.
Qed.

Lemma triple_run_prepare (E : Env) (P : State -> Prop) (T : event -> Prop) :
  (forall ev, is_pdsh ev = false -> T ev) ->
  triple P (run_prepare E) T (fun _ => P).
Proof.
  intros HT st Hst. split.
  - rewrite run_prepare_run. cbv zeta.
    repeat match goal with
           | |- context [if ?c then _ else _] => destruct c
           end; cbn; repeat constructor; apply HT; reflexivity.
  - intros a st' Hr.
    assert (He : run_prepare E st = (fst (run_prepare E st), Ret (a, st')))
      by (rewrite <- Hr; apply surjective_pairing).
    apply run_prepare_returns in He as ->. exact Hst.
Qed.

Lemma triple_run_finish (E : Env) (T : event -> Prop) :
  (forall ev, is_pdsh ev = false -> T ev) ->
  triple (fun _ => True) (run_finish E) T (fun _ _ => True).
Proof.
  intros HT. unfold run_finish.
  apply triple_seq; [now apply triple_get_self|]. intros s.
  apply triple_seq.
  { apply triple_when; [|easy]. intros _.
    apply triple_seq; [apply triple_emit; [now apply HT | easy]|].
    intros u. now apply triple_block_until. }
  intros u0. apply triple_seq; [apply triple_emit; [now apply HT | easy]|].
  intros u1. apply triple_seq; [apply triple_emit; [now apply HT | easy]|].
  intros u2. apply triple_seq; [apply triple_emit; [now apply HT | easy]|].
  intros u3. apply triple_seq; [now apply triple_get_disk|].
  intros d. apply triple_seq; [now apply triple_put_disk|].
  intros u4. unfold analyze. now apply triple_parse.
Qed.

(** Every command built for dispatch satisfies [Q], given that it does for
    the original-style run and for every overlaid pair. *)
Lemma triple_run_load (E : Env) (J : LibrbdFio -> Prop)
    (J' : gmap string pyval -> LibrbdFio -> Prop) (T : event -> Prop) :
  (forall ev, is_pdsh ev = false -> T ev) ->
  (forall s v cmd h, J s -> workloads (attrs s) = [] ->
     mkfiocmd E s v (time (attrs s)) = Ret cmd -> T (EvPdsh h (clients E) cmd)) ->
  (forall wk spec sw s0, J sw -> In (wk, spec) (workloads (attrs sw)) -> J s0 ->
     let test := test_of spec s0 in
     (forall i s s', J s -> apply_overrides wk test i s = Ret s' -> J' test s') /\
     (forall s r, J' test s -> restore_global_fio_options s = Ret r -> J r) /\
     (forall rt s v cmd h, J' test s -> mkfiocmd E s v rt = Ret cmd ->
                        T (EvPdsh h (clients E) cmd)) /\
     (monitor_enabled test = true ->
        forall s z, J' test s -> sleep_secs (ramp (opts s)) = Ret z ->
                    T (EvSleep z) /\ forall d, T (EvMonitoringStart d))) ->
  triple (fun st => J (self st)) (run_load E) T (fun _ st => J (self st)).
Proof.
  intros HT Horig Hpair. unfold run_load.
  eapply triple_bind with (R := fun s st => J (self st) /\ s = self st);
    [apply triple_get_self; now intros st Hst|].
  intros s. destruct (workloads (attrs s)) eqn:Hw.
  - eapply triple_bind
      with (R := fun _ st => J (self st) /\ s = self st);
      [apply triple_emit; [now apply HT | easy]|].
    intros u.
    eapply triple_bind with (R := fun _ st => J (self st)).
    + eapply triple_weaken;
        [apply (triple_dispatch_volumes E T (fun s1 => J s1 /\ s1 = s)
                  (time (attrs s)) [])| | |].
      * intros s1 i cmd h [HJ1 ->] Hc. now apply (Horig s i).
      * intros st [HJ ->]. now split.
      * easy.
      * intros a st [HJ _]. exact HJ.
    + intros ps. apply triple_wait_all. intros h. now apply HT.
  - assert (Hrw : triple (fun st => J (self st)) (run_workloads E) T
                         (fun _ st => J (self st))).
    { apply (triple_run_workloads E T J J' Hpair); intros; now apply HT. }
    eapply triple_weaken; [exact Hrw | | |]; [now intros st [HJ _] | easy | easy].
Qed.

(** A table that holds the saved options has the read mix, whatever is laid
    over it. *)
Lemma overlay_has_rwmixread (spec g : gmap string pyval) (o : FioOptions) :
  saved g o -> exists v, (spec ∪ g) !! "rwmixread" = Some v.
Proof.
  intros Hs. apply lookup_union_is_Some. right.
  exists (rwmixread o). unfold saved in Hs. tauto.
Qed.

Lemma balanced_same_read (o1 o2 : FioOptions) :
  balanced o1 -> balanced o2 -> rwmixread o1 = rwmixread o2 ->
  rwmixwrite o1 = rwmixwrite o2.
Proof.
  intros (r1 & w1 & Hr1 & Hw1 & H1) (r2 & w2 & Hr2 & Hw2 & H2) Heq.
  rewrite Heq, Hr2 in Hr1. injection Hr1 as <-.
  rewrite Hw1, Hw2. f_equal. lia.
Qed.

(** C7 — The read mix and the write mix add up to 100 wherever a fio command
    is built: [__init__] sets the write mix to 100 minus the read mix; in
    [run_workloads] a [rwmixread] key of the option table sets the read mix
    and recomputes the write mix as 100 minus it, and without the key the
    two are left as they were; a workload that does not name [rwmixread]
    runs with the mixes [__init__] computed; and every command [run] hands
    to [pdsh] was built by [mkfiocmd] from an object whose mixes add up to
    100. *)
Theorem read_write_mix_balanced (E : Env) (b : Benchmark) (cfg : Config)
    (s0 : LibrbdFio) :
  init E b cfg = Ret s0 ->
  balanced (opts s0) /\
  (forall (wk : string) (test : gmap string pyval) (i : nat) (s s' : LibrbdFio),
      apply_overrides wk test i s = Ret s' ->
      match test !! "rwmixread" with
      | Some v => rwmixread (opts s') = v /\ balanced (opts s')
      | None => rwmixread (opts s') = rwmixread (opts s) /\
                rwmixwrite (opts s') = rwmixwrite (opts s)
      end) /\
  (forall (wk : string) (spec : gmap string pyval) (i : nat) (s s' : LibrbdFio),
      In (wk, spec) (cfg_workloads cfg) ->
      spec !! "rwmixread" = None ->
      global_fio_options s = global_fio_options s0 ->
      apply_overrides wk (test_of spec s) i s = Ret s' ->
      rwmixread (opts s') = rwmixread (opts s0) /\
      rwmixwrite (opts s') = rwmixwrite (opts s0)) /\
  (forall (st : State) (h : nat) (nodes cmd : string),
      self st = s0 ->
      In (EvPdsh h nodes cmd) (trace_of (run E) st) ->
      exists (s : LibrbdFio) (v : nat) (rt : pyval),
        mkfiocmd E s v rt = Ret cmd /\ balanced (opts s)).
Proof.
  intros Hinit.
  destruct (init_facts E b cfg s0 Hinit) as (_ & Hwl & Hbal & _ & Hsaved).
  split; [exact Hbal|]. split; [|split].
  - intros wk test i s s' Ho. now apply apply_overrides_opts in Ho.
  - intros wk spec i s s' Hin Hno Hg Ho.
    assert (Hs : saved (global_fio_options s0) (opts s0)).
    { apply Hsaved. intros Hnil. now rewrite Hnil in Hin. }
    apply apply_overrides_opts in Ho as [_ Ho].
    assert (Hv : test_of spec s !! "rwmixread" = Some (rwmixread (opts s0))).
    { unfold test_of. rewrite lookup_union_r by exact Hno. rewrite Hg.
      unfold saved in Hs. tauto. }
    rewrite Hv in Ho. destruct Ho as [Hr Hb'].
    split; [exact Hr|]. now apply balanced_same_read.
  - intros st h nodes cmd Hst Hin.
    set (T := fun ev : event =>
                match ev with
                | EvPdsh _ _ c =>
                    exists (s : LibrbdFio) (v : nat) (rt : pyval),
                      mkfiocmd E s v rt = Ret c /\ balanced (opts s)
                | _ => True
                end).
    set (J := fun s : LibrbdFio =>
                attrs s = attrs s0 /\
                global_fio_options s = global_fio_options s0 /\
                opts s = opts s0).
    set (J' := fun (_ : gmap string pyval) (s : LibrbdFio) =>
                 balanced (opts s) /\ attrs s = attrs s0 /\
                 global_fio_options s = global_fio_options s0).
    assert (HT : forall ev, is_pdsh ev = false -> T ev)
      by (intros [] Hev; cbn; trivial; discriminate).
    assert (Htr : triple (fun x => J (self x)) (run E) T (fun _ _ => True)).
    { unfold run.
      apply (triple_seq (fun x => J (self x))); [now apply triple_run_prepare|].
      intros u.
      eapply triple_bind with (R := fun _ _ => True).
      2:{ intros u'. now apply triple_run_finish. }
      eapply triple_weaken;
        [apply (triple_run_load E J J' T HT) | easy | easy | easy].
      - intros s v c h' (_ & _ & Hopts) _ Hc. cbn.
        exists s, v, (time (attrs s)). split; [exact Hc|]. now rewrite Hopts.
      - intros wk spec sw s1 (Hasw & _ & _) Hinw (_ & Hg1 & _) test.
        assert (Hs : saved (global_fio_options s0) (opts s0)).
        { apply Hsaved. intros Hnil. rewrite Hasw, Hwl, Hnil in Hinw. exact Hinw. }
        split; [|split; [|split]].
        + intros i s s' (Ha & Hg & _) Ho.
          pose proof (apply_overrides_frame _ _ _ _ _ Ho) as (_ & Ha' & Hg').
          apply apply_overrides_opts in Ho as [_ Ho].
          destruct (overlay_has_rwmixread spec (global_fio_options s0) (opts s0) Hs)
            as [v Hv].
          unfold test, test_of in Ho. rewrite Hg1, Hv in Ho.
          split; [tauto|]. split; congruence.
        + intros s r (_ & Ha & Hg) Hr.
          apply restore_frame in Hr as (_ & Ha' & Hg' & _ & Hsv).
          split; [congruence|]. split; [congruence|].
          rewrite Hg in Hsv. now apply (saved_inj (global_fio_options s0)).
        + intros rt s v c h' (Hb & _) Hc. cbn. now exists s, v, rt.
        + intros _ s z _ _. split; [exact I | intros d; exact I]. }
    destruct (Htr st) as [Hall _]; [rewrite Hst; now repeat split|].
    unfold trace_of in Hin.
    rewrite List.Forall_forall in Hall. exact (Hall _ Hin).
Qed.

Lemma read_write_mix_balanced_witness :
  init Demo.env_ok Demo.bench_plain
       (Demo.cfg_sweep Demo.ramp0 "w1" Demo.sweep_randrw)
  = Ret Demo.obj_sweep /\
  balanced (opts Demo.obj_sweep).
Proof.
  split; [vm_compute; reflexivity|].
  apply (proj1 (read_write_mix_balanced Demo.env_ok Demo.bench_plain
                  (Demo.cfg_sweep Demo.ramp0 "w1" Demo.sweep_randrw) Demo.obj_sweep
                  ltac:(vm_compute; reflexivity))).
Defined.

(** ** The ramp sleep of a monitored turn *)

Lemma pdsh_quiet (t : list event) :
  Forall (fun ev => is_pdsh ev = true) t -> Forall quiet t.
Proof.
  intros H. eapply Forall_impl; [exact H|].
  intros [] Hev; try discriminate. now repeat split.
Qed.

(** A monitored turn up to its [time.sleep(self.ramp)]. *)
Lemma run_pair_monitored (E : Env) (wk : string) (test : gmap string pyval)
    (rt : pyval) (ps : list nat) (i : nat) (st : State) (s' : LibrbdFio)
    (t1 : list event) (ps1 : list nat) (st1 : State) :
  apply_overrides wk test i (self st) = Ret s' ->
  dispatch_volumes E rt ps
    {| self := s'; next_handle := next_handle st; disk := disk st |}
  = (t1, Ret (ps1, st1)) ->
  match sleep_secs (ramp (opts (self st))) with
  | Ret z =>
      exists post,
        trace_of (run_pair E wk test true rt ps i) st
        = EvMakeRemoteDir (run_dir s') :: t1
          ++ EvSleep z :: EvMonitoringStart (run_dir s') :: post
  | Raise e =>
      run_pair E wk test true rt ps i st
      = (EvMakeRemoteDir (run_dir s') :: t1, Raise e)
  | Hang => False
  end.
Proof.
  intros Hover Hdisp.
  pose proof (apply_overrides_opts _ _ _ _ _ Hover) as [Hramp _].
  pose proof (dispatch_volumes_run E rt ps
                {| self := s'; next_handle := next_handle st; disk := disk st |})
    as [_ Hself].
  rewrite Hdisp in Hself. specialize (Hself ps1 st1 eq_refl). cbn in Hself.
  assert (Hrun : forall k : list nat -> M (list nat),
             bind (dispatch_volumes E rt ps) k
                  {| self := s'; next_handle := next_handle st; disk := disk st |}
             = (t1 ++ fst (k ps1 st1), snd (k ps1 st1))).
  { intros k. now rewrite bind_run, Hdisp. }
  unfold trace_of, run_pair.
  rewrite bind_get_self, bind_lift, Hover, bind_modify_self, bind_emit, Hrun.
  cbn [fst snd self]. rewrite bind_when, bind_assoc, bind_get_self. unfold sleep.
  rewrite !bind_assoc, bind_lift, Hself, Hramp.
  unfold sleep_secs. destruct (as_int (ramp (opts (self st)))) as [z|].
  - destruct (z <? 0).
    + cbn [fst snd]. now rewrite app_nil_r.
    + rewrite !bind_emit. cbn [fst snd]. eexists. reflexivity.
  - cbn [fst snd]. now rewrite app_nil_r.
Qed.

(** With the ramp left at [None], a monitored turn never gets past its
    sleep. *)
Lemma run_pair_ramp_none (E : Env) (wk : string) (test : gmap string pyval)
    (rt : pyval) (ps : list nat) (i : nat) (st : State) :
  ramp (opts (self st)) = VNone ->
  returns (outcome_of (run_pair E wk test true rt ps i) st) = false /\
  Forall quiet (trace_of (run_pair E wk test true rt ps i) st).
Proof.
  intros Hnone.
  destruct (apply_overrides wk test i (self st)) as [s'| |] eqn:Hover.
  2,3: unfold outcome_of, trace_of, run_pair;
       rewrite bind_get_self, bind_lift, Hover; cbn; now split.
  destruct (dispatch_volumes E rt ps
              {| self := s'; next_handle := next_handle st; disk := disk st |})
    as [t1 r1] eqn:Hdisp.
  pose proof (dispatch_volumes_run E rt ps
                {| self := s'; next_handle := next_handle st; disk := disk st |})
    as [Hpd _].
  rewrite Hdisp in Hpd. cbn [fst] in Hpd. apply pdsh_quiet in Hpd.
  assert (Hmk : quiet (EvMakeRemoteDir (run_dir s'))) by now repeat split.
  destruct r1 as [[ps1 st1]| |].
  - pose proof (run_pair_monitored E wk test rt ps i st s' t1 ps1 st1 Hover Hdisp)
      as Hrun.
    rewrite Hnone in Hrun.
    change (sleep_secs VNone) with (@Raise Z TypeError) in Hrun.
    cbv beta iota in Hrun.
    unfold outcome_of, trace_of. rewrite Hrun. cbn [fst snd returns].
    split; [reflexivity | now constructor].
  - unfold outcome_of, trace_of, run_pair.
    rewrite bind_get_self, bind_lift, Hover, bind_modify_self, bind_emit, bind_run, Hdisp.
    cbn [fst snd returns]. split; [reflexivity | now constructor].
  - unfold outcome_of, trace_of, run_pair.
    rewrite bind_get_self, bind_lift, Hover, bind_modify_self, bind_emit, bind_run, Hdisp.
    cbn [fst snd returns]. split; [reflexivity | now constructor].
Qed.

(** C10 — A turn of the pair loop that has monitoring on calls
    [time.sleep(self.ramp)] with the ramp the object holds, right after the
    dispatch and before monitoring starts: a ramp that [time.sleep] accepts
    is slept, any other faults the turn there. With the ramp [None], which
    [__init__] leaves when the configuration has no [ramp], the turn raises
    [TypeError] once its commands are dispatched; no monitored workload
    then gets to a sleep, a monitoring start or a wait, and it returns only
    if its [iodepth] list is empty. *)
Theorem ramp_none_faults_monitored_sweep (E : Env) (wk : string)
    (spec : gmap string pyval) (st : State) :
  let test := test_of spec (self st) in
  monitor_enabled test = true ->
  (forall (rt : pyval) (ps : list nat) (i : nat) (s' : LibrbdFio)
          (t1 : list event) (ps1 : list nat) (st1 : State),
      apply_overrides wk test i (self st) = Ret s' ->
      dispatch_volumes E rt ps
        {| self := s'; next_handle := next_handle st; disk := disk st |}
      = (t1, Ret (ps1, st1)) ->
      match sleep_secs (ramp (opts (self st))) with
      | Ret z =>
          exists post,
            trace_of (run_pair E wk test (monitor_enabled test) rt ps i) st
            = EvMakeRemoteDir (run_dir s') :: t1
              ++ EvSleep z :: EvMonitoringStart (run_dir s') :: post
      | Raise e =>
          run_pair E wk test (monitor_enabled test) rt ps i st
          = (EvMakeRemoteDir (run_dir s') :: t1, Raise e)
      | Hang => False
      end) /\
  (ramp (opts (self st)) = VNone ->
     (forall (rt : pyval) (ps : list nat) (i : nat) (s' : LibrbdFio)
             (t1 : list event) (ps1 : list nat) (st1 : State),
         apply_overrides wk test i (self st) = Ret s' ->
         dispatch_volumes E rt ps
           {| self := s'; next_handle := next_handle st; disk := disk st |}
         = (t1, Ret (ps1, st1)) ->
         run_pair E wk test (monitor_enabled test) rt ps i st
         = (EvMakeRemoteDir (run_dir s') :: t1, Raise TypeError)) /\
     Forall quiet (trace_of (run_workload E wk spec) st) /\
     (returns (outcome_of (run_workload E wk spec) st) = true ->
      trace_of (run_workload E wk spec) st = [])) /\
  (forall (b : Benchmark) (cfg : Config) (s0 : LibrbdFio),
      init E b cfg = Ret s0 -> options cfg !! "ramp" = None ->
      ramp (opts s0) = VNone).
Proof.
  intros test Hmon. rewrite Hmon. split; [|split].
  - intros rt ps i s' t1 ps1 st1. apply run_pair_monitored.
  - intros Hnone. split; [|].
    + intros rt ps i s' t1 ps1 st1 Hover Hdisp.
      pose proof (run_pair_monitored E wk test rt ps i st s' t1 ps1 st1 Hover Hdisp)
        as Hrun.
      rewrite Hnone in Hrun. exact Hrun.
    + unfold trace_of, outcome_of, run_workload.
      rewrite bind_get_self, bind_lift.
      fold (test_of spec (self st)). fold test.
      destruct (dict_item test "mode") as [v_mode| |]; [|now split|now split].
      rewrite bind_lift.
      destruct (dict_item test "iodepth") as [v_iod| |]; [|now split|now split].
      rewrite bind_lift.
      destruct (py_len v_iod) as [n| |]; [|now split|now split].
      destruct n as [|n]; [cbn; now split|].
      cbn [seq for_acc]. rewrite !bind_assoc.
      fold (monitor_enabled test). rewrite Hmon.
      set (rt := if dict_has test "precond" then _ else _).
      destruct (run_pair_ramp_none E wk test rt [] 0 st Hnone) as [Hret Hq].
      unfold outcome_of, trace_of in Hret, Hq.
      rewrite bind_run.
      destruct (snd (run_pair E wk test true rt [] 0 st)) as [[a st']| |];
        [discriminate| |]; cbn [fst snd returns]; now split.
  - intros b cfg s0 Hinit Hno.
    destruct (init_facts E b cfg s0 Hinit) as (_ & _ & _ & Hr & _).
    rewrite Hr. unfold dict_get. now rewrite Hno.
Qed.

(** ** Handles dispatched and handles waited on *)

Lemma waited_app (t1 t2 : list event) :
  waited (t1 ++ t2) = waited t1 ++ waited t2.
Proof.
  induction t1 as [|ev t1 IH]; [reflexivity|].
  destruct ev; cbn; now rewrite ?IH.
Qed.

(** The dispatch loop waits on nothing and appends the handles it gets. *)
Lemma dispatch_volumes_handles (E : Env) (rt : pyval) (ps : list nat) (st : State)
    (t : list event) (ps1 : list nat) (st1 : State) :
  dispatch_volumes E rt ps st = (t, Ret (ps1, st1)) ->
  waited t = [] /\ ps1 = ps ++ dispatched t.
Proof.
  unfold dispatch_volumes. rewrite bind_get_self, bind_lift.
  destruct (py_range (volumes_per_client (attrs (self st)))) as [vols| |];
    [|discriminate|discriminate].
  revert ps st t. induction vols as [|i vols IH]; intros ps st t; cbn [for_acc].
  - intros [= <- <- <-]. now rewrite app_nil_r.
  - rewrite !bind_assoc, bind_get_self, bind_assoc, bind_lift.
    destruct (mkfiocmd E (self st) i rt) as [cmd| |]; [|discriminate|discriminate].
    rewrite bind_assoc, bind_pdsh. cbv zeta. rewrite bind_ret.
    intros Hrun.
    destruct (for_acc vols (ps ++ [next_handle st]) _ _) as [t2 r2] eqn:Hrest
      in Hrun.
    cbn [fst snd] in Hrun. injection Hrun as <- ->.
    apply IH in Hrest as [Hw ->]. cbn [waited dispatched].
    split; [exact Hw | now rewrite <- app_assoc].
Qed.

(** The wait loop waits on its handles in order and dispatches nothing. *)
Lemma wait_all_handles (E : Env) (ps : list nat) (st : State) (t : list event)
    (u : unit) (st1 : State) :
  for_each ps (wait E) st = (t, Ret (u, st1)) ->
  waited t = ps /\ dispatched t = [] /\ st1 = st.
Proof.
  revert t. induction ps as [|h ps IH]; intros t; cbn [for_each].
  - now intros [= <- <-].
  - rewrite bind_wait. destruct (completes E h); [|discriminate].
    intros Hrun. destruct (for_each ps (wait E) st) as [t2 r2] eqn:Hrest.
    cbn [fst snd] in Hrun. injection Hrun as <- ->.
    destruct (IH t2 eq_refl) as (Hw & Hd & ->). cbn. now rewrite Hw.
Qed.

(** C2 (the code) — A turn of the pair loop that completes waits on every
    handle of the list [ps] it was given, and after them on the handles it
    dispatched itself; the list it hands to the next turn holds them all.
    [run_workloads] creates the list once for a workload, so from the second
    pair on a turn waits again on the handles of all earlier pairs. *)
Theorem pair_waits_earlier_handles_again (E : Env) (wk : string)
    (test : gmap string pyval) (mon : bool) (rt : pyval) (ps : list nat) (i : nat)
    (st : State) (t : list event) (ps' : list nat) (st' : State) :
  run_pair E wk test mon rt ps i st = (t, Ret (ps', st')) ->
  waited t = ps ++ dispatched t /\ ps' = ps ++ dispatched t.
Proof.
  unfold run_pair. rewrite bind_get_self, bind_lift.
  destruct (apply_overrides wk test i (self st)) as [s1| |]; [|discriminate|discriminate].
  rewrite bind_modify_self, bind_emit. intros Hrun.
  match type of Hrun with
  | (_ :: fst (bind ?m ?k ?x), _) = _ =>
      destruct (bind m k x) as [t0 r0] eqn:Hrest
  end.
  cbn [fst snd] in Hrun. injection Hrun as <- ->.
  apply bind_returns in Hrest as (t1 & ps1 & st1 & t2 & Hdisp & Hrest & ->).
  apply dispatch_volumes_handles in Hdisp as [Hw1 ->].
  apply bind_returns in Hrest as (t3 & u3 & st3 & t4 & Hmon & Hrest & ->).
  apply bind_returns in Hrest as (t5 & u5 & st5 & t6 & Hwait & Hrest & ->).
  apply wait_all_handles in Hwait as (Hw5 & Hd5 & ->).
  apply bind_returns in Hrest as (t7 & u7 & st7 & t8 & Hstop & Hrest & ->).
  rewrite bind_get_self, bind_lift in Hrest.
  destruct (restore_global_fio_options (self st7)) as [r| |];
    [|discriminate|discriminate].
  rewrite bind_modify_self in Hrest. injection Hrest as <- <- _.
  assert (H3 : waited t3 = [] /\ dispatched t3 = []).
  { destruct mon; cbn [when] in Hmon.
    - rewrite bind_get_self in Hmon. unfold sleep in Hmon.
      rewrite bind_assoc, bind_lift in Hmon.
      destruct (sleep_secs (ramp (opts (self st1)))); [|discriminate|discriminate].
      rewrite !bind_emit in Hmon. now injection Hmon as <- _.
    - now injection Hmon as <- _. }
  assert (H7 : waited t7 = [] /\ dispatched t7 = []).
  { destruct mon; cbn [when] in Hstop.
    - rewrite bind_get_self in Hstop. now injection Hstop as <- _.
    - now injection Hstop as <- _. }
  destruct H3 as [Hw3 Hd3], H7 as [Hw7 Hd7].
  cbn [waited dispatched].
  rewrite !waited_app, !dispatched_app, Hw1, Hw3, Hw5, Hw7, Hd3, Hd5, Hd7.
  cbn [app waited dispatched]. rewrite !app_nil_r. now split.
Qed.

(** ** Lists of unequal length in a workload *)

Lemma for_acc_ext {A B : Type} (xs : list A) (acc : B) (body body' : B -> A -> M B)
    (st : State) :
  (forall acc x st, In x xs -> body acc x st = body' acc x st) ->
  for_acc xs acc body st = for_acc xs acc body' st.
Proof.
  revert acc st. induction xs as [|x xs IH]; intros acc st H; cbn [for_acc];
    [reflexivity|].
  rewrite !bind_run, H by now left.
  destruct (snd (body' acc x st)) as [[acc' st']| |]; [|reflexivity|reflexivity].
  rewrite IH; [reflexivity|]. intros a y s Hy. apply H. now right.
Qed.

Lemma for_acc_app {A B : Type} (xs ys : list A) (acc : B) (body : B -> A -> M B)
    (st : State) :
  for_acc (xs ++ ys) acc body st
  = bind (for_acc xs acc body) (fun acc' => for_acc ys acc' body) st.
Proof.
  revert acc st. induction xs as [|x xs IH]; intros acc st; cbn [app for_acc].
  - now rewrite bind_ret.
  - rewrite bind_assoc, !(bind_run (body acc x)).
    destruct (snd (body acc x st)) as [[acc' st']| |]; [|reflexivity|reflexivity].
    now rewrite IH.
Qed.

(** A turn reads the option table only through [apply_overrides]. *)
Lemma run_pair_ext (E : Env) (wk : string) (test test' : gmap string pyval)
    (mon : bool) (rt : pyval) (ps : list nat) (i : nat) (st : State) :
  apply_overrides wk test' i (self st) = apply_overrides wk test i (self st) ->
  run_pair E wk test' mon rt ps i st = run_pair E wk test mon rt ps i st.
Proof. intros H. unfold run_pair. now rewrite !bind_get_self, !bind_lift, H. Qed.

(** At an index that [iodepth] has and [numjobs] has not, the lookup
    [test['numjobs'][i]] raises. *)
Lemma apply_overrides_index_error (wk : string) (test : gmap string pyval)
    (ds js : list pyval) (i : nat) (s : LibrbdFio) :
  test !! "iodepth" = Some (VList ds) ->
  test !! "numjobs" = Some (VList js) ->
  (i < length ds)%nat -> (length js <= i)%nat ->
  apply_overrides wk test i s = Raise IndexError.
Proof.
  intros Hd Hj Hi Hk. unfold apply_overrides, dict_item. rewrite Hd, Hj.
  cbn [rbind py_index].
  destruct (nth_error ds i) as [d|] eqn:Hnd.
  - cbn [rbind]. apply nth_error_None in Hk. now rewrite Hk.
  - apply nth_error_None in Hnd. lia.
Qed.

(** Entries of a list past the index of the turn are not read. *)
Lemma apply_overrides_numjobs_prefix (wk : string) (test : gmap string pyval)
    (js js' : list pyval) (i : nat) (s : LibrbdFio) :
  test !! "numjobs" = Some (VList js) ->
  nth_error js' i = nth_error js i ->
  apply_overrides wk (<["numjobs" := VList js']> test) i s
  = apply_overrides wk test i s.
Proof.
  intros Hj Hn. unfold apply_overrides, dict_item, dict_has.
  rewrite lookup_insert_eq, Hj.
  rewrite !(lookup_insert_ne test "numjobs") by discriminate.
  cbn [rbind py_index]. now rewrite Hn.
Qed.

Lemma apply_overrides_iodepth_prefix (wk : string) (test : gmap string pyval)
    (ds ds' : list pyval) (i : nat) (s : LibrbdFio) :
  test !! "iodepth" = Some (VList ds) ->
  nth_error ds' i = nth_error ds i ->
  apply_overrides wk (<["iodepth" := VList ds']> test) i s
  = apply_overrides wk test i s.
Proof.
  intros Hd Hn. unfold apply_overrides, dict_item, dict_has.
  rewrite lookup_insert_eq, Hd.
  rewrite !(lookup_insert_ne test "iodepth") by discriminate.
  cbn [rbind py_index]. now rewrite Hn.
Qed.

Lemma nth_error_firstn_lt {A : Type} (n : nat) (l : list A) (i : nat) :
  (i < n)%nat -> nth_error (firstn n l) i = nth_error l i.
Proof.
  intros Hi. rewrite nth_error_firstn.
  destruct (Nat.ltb_spec i n); [reflexivity | lia].
Qed.

(** ** A workload whose lists differ in length *)

(** With [numjobs] the shorter list, the workload is the one with [iodepth]
    cut to the length of [numjobs], up to the end of that one: where the cut
    workload returns, the full one raises [IndexError] in its next turn,
    before any call of that turn; where the cut one raises or blocks, so
    does the full one. *)
Lemma short_numjobs_run (E : Env) (wk : string) (spec : gmap string pyval)
    (st : State) (ds js : list pyval) :
  let test := test_of spec (self st) in
  test !! "iodepth" = Some (VList ds) ->
  test !! "numjobs" = Some (VList js) ->
  (length js < length ds)%nat ->
  let cut := run_workload E wk (<["iodepth" := VList (firstn (length js) ds)]> spec) st in
  run_workload E wk spec st
  = (fst cut, match snd cut with
              | Ret _ => Raise IndexError
              | Raise e => Raise e
              | Hang => Hang
              end).
Proof.
  intros test Hd Hj Hlt cut. subst cut. unfold run_workload.
  rewrite !bind_get_self, <- insert_union_l.
  fold (test_of spec (self st)). fold test.
  unfold dict_item, dict_has.
  rewrite lookup_insert_eq, !(lookup_insert_ne test "iodepth") by discriminate.
  rewrite Hd, !bind_lift.
  destruct (test !! "mode") as [v_mode|]; cbv beta iota; [|reflexivity].
  rewrite ?bind_lift. cbv beta iota. cbn [py_len]. rewrite ?bind_lift. cbv beta iota.
  rewrite firstn_length_le by lia.
  set (mon := match test !! "monitor" with Some v => py_truth v | None => true end).
  set (rt := if bool_decide (is_Some (test !! "precond")) then _ else _).
  replace (length ds) with (length js + S (length ds - S (length js)))%nat by lia.
  rewrite seq_app. cbn [seq].
  rewrite (bind_run (for_acc (seq 0 (length js) ++ _) _ _)), for_acc_app, bind_run.
  rewrite (bind_run (for_acc (seq 0 (length js)) _ _)).
  rewrite (for_acc_ext (seq 0 (length js)) []
             (run_pair E wk (<["iodepth" := VList (firstn (length js) ds)]> test) mon rt)
             (run_pair E wk test mon rt)).
  2:{ intros acc i s Hi. apply in_seq in Hi. apply run_pair_ext.
      apply (apply_overrides_iodepth_prefix wk test ds); [exact Hd|].
      apply nth_error_firstn_lt. lia. }
  destruct (for_acc (seq 0 (length js)) [] (run_pair E wk test mon rt) st)
    as [t1 [[ps1 st1]|e|]]; cbn [fst snd]; [|reflexivity|reflexivity].
  cbn [for_acc]. rewrite bind_run.
  assert (Hk : run_pair E wk test mon rt ps1 (0 + length js) st1
               = ([], Raise IndexError)).
  { unfold run_pair. rewrite bind_get_self, bind_lift.
    now rewrite (apply_overrides_index_error wk test ds js) by (assumption || lia). }
  rewrite Hk. reflexivity.
Qed.

(** With [numjobs] the longer list, its surplus entries are never read. *)
Lemma long_numjobs_run (E : Env) (wk : string) (spec : gmap string pyval)
    (st : State) (ds js : list pyval) :
  let test := test_of spec (self st) in
  test !! "iodepth" = Some (VList ds) ->
  test !! "numjobs" = Some (VList js) ->
  (length ds <= length js)%nat ->
  run_workload E wk (<["numjobs" := VList (firstn (length ds) js)]> spec) st
  = run_workload E wk spec st.
Proof.
  intros test Hd Hj Hle. unfold run_workload.
  rewrite !bind_get_self, <- insert_union_l.
  fold (test_of spec (self st)). fold test.
  unfold dict_item, dict_has.
  rewrite !(lookup_insert_ne test "numjobs") by discriminate.
  rewrite Hd, !bind_lift.
  destruct (test !! "mode") as [v_mode|]; cbv beta iota; [|reflexivity].
  rewrite ?bind_lift. cbv beta iota. cbn [py_len]. rewrite ?bind_lift. cbv beta iota.
  rewrite !(bind_run (for_acc _ _ _)).
  rewrite (for_acc_ext (seq 0 (length ds)) [] _
             (run_pair E wk test
                match test !! "monitor" with Some v => py_truth v | None => true end
                (if bool_decide (is_Some (test !! "precond"))
                 then precond_time (attrs (self st)) else time (attrs (self st))))).
  + reflexivity.
  + intros acc i s Hi. apply in_seq in Hi. apply run_pair_ext.
    apply (apply_overrides_numjobs_prefix wk test js); [exact Hj|].
    apply nth_error_firstn_lt. lia.
Qed.

(** The second turn of the sample sweep, handed the handle of the first. *)
Lemma pair_waits_earlier_handles_again_witness :
  init Demo.env_ok Demo.bench_plain
       (Demo.cfg_sweep Demo.ramp0 "w1" Demo.sweep_randrw)
  = Ret Demo.obj_sweep /\
  exists t ps' st',
    run_pair Demo.env_ok "w1" (test_of Demo.sweep_randrw Demo.obj_sweep) true VNone
             [0%nat] 1 (Demo.state_of Demo.obj_sweep 1)
    = (t, Ret (ps', st')) /\
    waited t = [0%nat] ++ dispatched t /\ ps' = [0%nat] ++ dispatched t.
Proof.
  split; [vm_compute; reflexivity|].
  lazymatch goal with
  | |- exists t ps' st', run_pair ?E ?wk ?test ?mon ?rt ?ps ?i ?st = _ /\ _ =>
      let r := eval vm_compute in (run_pair E wk test mon rt ps i st) in
      lazymatch r with
      | (?t, Ret (?ps', ?st')) =>
          exists t, ps', st';
          split; [vm_compute; reflexivity|];
          apply (pair_waits_earlier_handles_again E wk test mon rt ps i st t ps' st');
          vm_compute; reflexivity
      end
  end.
Defined.

(** C2, as stated, fails: in the sample sweep of two pairs the handle of the
    first pair is waited on in both turns. *)
Lemma sweep_first_handle_waited_twice :
  let r := boot Demo.env_ok Demo.bench_plain
                (Demo.cfg_sweep Demo.ramp0 "w1" Demo.sweep_randrw) ∅
                (run_workloads Demo.env_ok) in
  returns (snd r) = true /\
  dispatched (fst r) = [0%nat; 1%nat] /\
  waited (fst r) = [0%nat; 0%nat; 1%nat] /\
  wait_count 0 (fst r) = 2%nat.
Proof. vm_compute. repeat split; reflexivity. Qed.

(** The sample sweep with no ramp configured. *)
Lemma ramp_none_faults_monitored_sweep_witness :
  init Demo.env_ok Demo.bench_plain (Demo.cfg_sweep ∅ "w1" Demo.sweep_randrw)
  = Ret Demo.obj_sweep_no_ramp /\
  Forall quiet (trace_of (run_workload Demo.env_ok "w1" Demo.sweep_randrw)
                         (Demo.state_of Demo.obj_sweep_no_ramp 0)) /\
  outcome_of (run_workload Demo.env_ok "w1" Demo.sweep_randrw)
             (Demo.state_of Demo.obj_sweep_no_ramp 0)
  = Raise TypeError /\
  dispatched (trace_of (run_workload Demo.env_ok "w1" Demo.sweep_randrw)
                       (Demo.state_of Demo.obj_sweep_no_ramp 0))
  = [0%nat].
Proof.
  split; [vm_compute; reflexivity|].
  split;
    [ exact (proj1 (proj2 (proj1 (proj2
               (ramp_none_faults_monitored_sweep Demo.env_ok "w1" Demo.sweep_randrw
                  (Demo.state_of Demo.obj_sweep_no_ramp 0)
                  ltac:(vm_compute; reflexivity)))
               ltac:(vm_compute; reflexivity))))
    | split; vm_compute; reflexivity ].
Defined.

(** * Further properties

    ** What [parse] writes, for any file *)

Import Shape.

Lemma concat_cons (l : string) (ls : list string) :
  String.concat "" (l :: ls) = l +:+ String.concat "" ls.
Proof.
  destruct ls as [|l' ls']; cbn [String.concat]; [now rewrite append_nil_r | reflexivity].
Qed.

(** With the flag up, the lines are copied up to the first blank one. *)
Lemma parse_lines_found (lines : list string) (acc : string) :
  snd (fst (parse_lines lines 1 acc)) = acc +:+ String.concat "" (until_blank lines).
Proof.
  revert acc. induction lines as [|l lines IH]; intros acc.
  - cbn. now rewrite append_nil_r.
  - cbn [parse_lines until_blank]. unfold blank.
    destruct (String.length (strip l) =? 0)%nat.
    + cbn. now rewrite append_nil_r.
    + cbn [Nat.eqb]. specialize (IH (acc +:+ l)).
      destruct (parse_lines lines 1 (acc +:+ l)) as [[f out] n]. cbn [fst snd] in *.
      now rewrite IH, concat_cons, append_assoc.
Qed.

Lemma parse_lines_block (lines : list string) (acc : string) :
  snd (fst (parse_lines lines 0 acc)) = acc +:+ String.concat "" (block lines).
Proof.
  unfold block. revert acc. induction lines as [|l lines IH]; intros acc.
  - cbn. now rewrite append_nil_r.
  - cbn [parse_lines until_blank]. unfold blank.
    destruct (String.length (strip l) =? 0)%nat.
    + cbn. now rewrite append_nil_r.
    + cbn [Nat.eqb after_marker]. unfold has_marker.
      destruct (str_in "Starting" l).
      * pose proof (parse_lines_found lines acc) as Hf.
        destruct (parse_lines lines 1 acc) as [[f out] n]. exact Hf.
      * specialize (IH acc).
        destruct (parse_lines lines 0 acc) as [[f out] n]. exact IH.
Qed.

Lemma parse_lines_looked_at (lines : list string) (found : nat) (acc : string) :
  snd (parse_lines lines found acc)
  = Nat.min (List.length lines) (S (List.length (until_blank lines))).
Proof.
  revert found acc. induction lines as [|l lines IH]; intros found acc; [reflexivity|].
  cbn [parse_lines until_blank]. unfold blank.
  destruct (String.length (strip l) =? 0)%nat; [cbn [snd length]; lia|].
  match goal with |- context [parse_lines lines ?f ?a] => specialize (IH f a) end.
  destruct (parse_lines lines _ _) as [[f out] n]. cbn [snd length] in *.
  rewrite IH. lia.
Qed.

(** X1 — For any raw file, [parse] leaves in the json file exactly the lines
    strictly between the first line that contains "Starting" and the first
    blank line of the file (through the end of the file when no blank line
    follows), and it looks at no line past the first blank one. *)
Theorem parse_file_writes_block (st : State) (out_file json_out_file raw : string) :
  disk st !! out_file = Some raw ->
  out_file <> json_out_file ->
  let lines := readlines (universal_newlines raw) in
  parse_file out_file json_out_file st
  = ([], Ret (tt, {| self := self st; next_handle := next_handle st;
                     disk := <[json_out_file := String.concat "" (block lines)]>
                               (disk st) |})) /\
  snd (parse_lines lines 0 "")
  = Nat.min (List.length lines) (S (List.length (until_blank lines))).
Proof.
  intros Hraw Hne lines. split; [|apply parse_lines_looked_at].
  rewrite (parse_file_run _ _ raw) by assumption.
  fold lines. now rewrite parse_lines_block.
Qed.

Lemma parse_file_writes_block_witness :
  parse_file "/arch/output.0.c1" Demo.json_path (Samples.st_raw Demo.raw_two_blocks)
  = ([], Ret (tt, {| self := Demo.obj_sweep; next_handle := 0;
                     disk := <[Demo.json_path :=
                                 String.concat ""
                                   (block (readlines (universal_newlines Demo.raw_two_blocks)))]>
                               (Demo.one_file Demo.raw_two_blocks) |})).
Proof.
  exact (proj1 (parse_file_writes_block (Samples.st_raw Demo.raw_two_blocks)
                  "/arch/output.0.c1" Demo.json_path Demo.raw_two_blocks
                  ltac:(vm_compute; reflexivity) ltac:(discriminate))).
Defined.

(** ** What [parse] leaves alone *)

(** An invariant of the state that survives a write to the json file
    survives [parse_file]. *)
Lemma triple_parse_file_disk (I : State -> Prop) (out_file json_out_file : string)
    (T : event -> Prop) :
  (forall st v, I st ->
     I {| self := self st; next_handle := next_handle st;
          disk := <[json_out_file := v]> (disk st) |}) ->
  triple I (parse_file out_file json_out_file) T (fun _ => I).
Proof.
  intros HI. unfold parse_file.
  eapply triple_bind with (R := fun d st => I st /\ d = disk st);
    [apply triple_get_disk; now intros st Hst|].
  intros d.
  eapply triple_bind with (R := fun _ st => I st /\ d = disk st);
    [apply triple_lift; now intros a st Hst _|].
  intros u.
  eapply triple_bind
    with (R := fun _ st => I st /\ disk st = <[json_out_file := ""]> d).
  { apply triple_put_disk. intros st [Hst ->]. split; [now apply HI | reflexivity]. }
  intros u'. destruct (parse_lines _ 0 "") as [[f out] n].
  apply triple_put_disk. intros st [Hst Hd].
  rewrite <- Hd. now apply HI.
Qed.

Lemma triple_parse_disk (I : State -> Prop) (E : Env) (dir : string)
    (T : event -> Prop) :
  (forall client i st v, In client (split "," (clients E)) -> I st ->
     I {| self := self st; next_handle := next_handle st;
          disk := <[json_path_of dir i (host_info_host E client) := v]> (disk st) |}) ->
  triple I (parse E dir) T (fun _ => I).
Proof.
  intros HI. unfold parse. apply triple_for_each. intros client Hc.
  apply triple_seq; [apply triple_get_self; intros st Hst; exact Hst|].
  intros s. apply triple_seq; [apply triple_lift; intros a st Hst _; exact Hst|].
  intros vols. apply triple_for_each. intros i _.
  apply triple_parse_file_disk. intros st v. now apply HI.
Qed.

Lemma raw_path_not_json (dir x y : string) :
  dir +:+ "/output." +:+ x <> dir +:+ "/json_output." +:+ y.
Proof.
  induction dir as [|c dir IH]; cbn; [discriminate|].
  intros [= H]. now apply IH.
Qed.

(** X2 — When [parse] returns, the object and every local file other than
    the json files of the clients' hosts are as they were; in particular no
    raw output file is changed. *)
Theorem parse_changes_only_json_files (E : Env) (out_dir : string) (st st' : State)
    (t : list event) (u : unit) :
  parse E out_dir st = (t, Ret (u, st')) ->
  self st' = self st /\ next_handle st' = next_handle st /\
  (forall p : string,
      (forall client i, In client (split "," (clients E)) ->
                        p <> json_path_of out_dir i (host_info_host E client)) ->
      disk st' !! p = disk st !! p) /\
  (forall (i : nat) (host : string),
      disk st' !! raw_path out_dir i host = disk st !! raw_path out_dir i host).
Proof.
  intros Hrun.
  assert (Hframe : forall p : string,
             (forall client i, In client (split "," (clients E)) ->
                               p <> json_path_of out_dir i (host_info_host E client)) ->
             self st' = self st /\ next_handle st' = next_handle st /\
             disk st' !! p = disk st !! p).
  { intros p Hp.
    assert (Htr : triple (fun x => self x = self st /\ next_handle x = next_handle st /\
                                   disk x !! p = disk st !! p)
                         (parse E out_dir) (fun _ => True)
                         (fun _ x => self x = self st /\ next_handle x = next_handle st /\
                                     disk x !! p = disk st !! p)).
    { apply triple_parse_disk. intros client i x v Hc (Hs & Hn & Hd). cbn.
      repeat split; try assumption.
      rewrite lookup_insert_ne; [exact Hd|]. intros Heq. now apply (Hp client i). }
    destruct (Htr st) as [_ Hq]; [now repeat split|].
    apply (Hq u st'). now rewrite Hrun. }
  assert (Hraw : forall i host client j,
             raw_path out_dir i host <> json_path_of out_dir j (host_info_host E client)).
  { intros i host client j. unfold raw_path, json_path_of. apply raw_path_not_json. }
  destruct (Hframe (raw_path out_dir 0 "") ltac:(intros; apply Hraw)) as (Hs & Hn & _).
  split; [exact Hs|]. split; [exact Hn|]. split.
  - intros p Hp. now apply Hframe.
  - intros i host. apply Hframe. intros. apply Hraw.
Qed.

Lemma parse_changes_only_json_files_witness :
  parse Demo.env_ok "/arch" (Samples.st_raw Demo.raw_one_block)
  = ([], Ret (tt, {| self := Demo.obj_sweep; next_handle := 0;
                     disk := <[Demo.json_path := ln "{json}"]>
                               (Demo.one_file Demo.raw_one_block) |})) /\
  (<[Demo.json_path := ln "{json}"]> (Demo.one_file Demo.raw_one_block))
    !! raw_path "/arch" 0 "c1"
  = Demo.one_file Demo.raw_one_block !! raw_path "/arch" 0 "c1".
Proof.
  assert (H : parse Demo.env_ok "/arch" (Samples.st_raw Demo.raw_one_block)
              = ([], Ret (tt, {| self := Demo.obj_sweep; next_handle := 0;
                                 disk := <[Demo.json_path := ln "{json}"]>
                                           (Demo.one_file Demo.raw_one_block) |})))
    by (vm_compute; reflexivity).
  split; [exact H|].
  exact (proj2 (proj2 (proj2 (parse_changes_only_json_files _ _ _ _ _ _ H))) 0%nat "c1").
Defined.

(** ** Running [parse] again *)

Lemma for_each_app {A : Type} (xs ys : list A) (body : A -> M unit) (st : State) :
  for_each (xs ++ ys) body st
  = bind (for_each xs body) (fun _ => for_each ys body) st.
Proof.
  revert st. induction xs as [|x xs IH]; intros st; cbn [app for_each].
  - now rewrite bind_ret.
  - rewrite bind_assoc, !(bind_run (body x)).
    destruct (snd (body x st)) as [[[] st']| |]; [|reflexivity|reflexivity].
    now rewrite IH.
Qed.

Lemma state_eta (st : State) :
  {| self := self st; next_handle := next_handle st; disk := disk st |} = st.
Proof. now destruct st. Qed.

(** [parse_file] on any disk: it fails on a missing raw file and otherwise
    rewrites the json file from the raw one. *)
Lemma parse_file_cases (out_file json_out_file : string) (st : State) :
  out_file <> json_out_file ->
  parse_file out_file json_out_file st
  = match disk st !! out_file with
    | Some raw =>
        ([], Ret (tt, {| self := self st; next_handle := next_handle st;
                         disk := <[json_out_file := filtered raw]> (disk st) |}))
    | None => ([], Raise FileNotFoundError)
    end.
Proof.
  intros Hne. destruct (disk st !! out_file) as [raw|] eqn:Hraw.
  - rewrite (parse_file_run _ _ raw) by assumption.
    now rewrite parse_lines_block.
  - unfold parse_file. now rewrite bind_get_disk, bind_lift, Hraw.
Qed.

Lemma for_each_map {A B : Type} (f : A -> B) (body : B -> M unit) (xs : list A)
    (st : State) :
  for_each xs (fun x => body (f x)) st = for_each (List.map f xs) body st.
Proof.
  revert st. induction xs as [|x xs IH]; intros st; [reflexivity|].
  cbn [for_each List.map]. rewrite !bind_run.
  destruct (snd (body (f x) st)) as [[[] st']| |]; [|reflexivity|reflexivity].
  now rewrite IH.
Qed.

(** [parse] as one loop over the files, for an object whose number of volumes
    is a number. *)
Lemma parse_as_pairs (E : Env) (out_dir : string) (vols : list nat) (st : State) :
  py_range (volumes_per_client (attrs (self st))) = Ret vols ->
  parse E out_dir st
  = for_each (file_pairs E out_dir vols) (fun p => parse_file (fst p) (snd p)) st.
Proof.
  unfold parse, file_pairs. generalize (split "," (clients E)) as cs.
  intros cs. revert st. induction cs as [|c cs IH]; intros st Hv; [reflexivity|].
  cbn [for_each flat_map]. rewrite for_each_app.
  rewrite bind_assoc, bind_get_self, bind_assoc, bind_lift, Hv.
  rewrite !bind_run.
  rewrite (for_each_map (fun i => (raw_path out_dir i (host_info_host E c),
                                   json_path_of out_dir i (host_info_host E c)))
                        (fun p => parse_file (fst p) (snd p))).
  match goal with |- context [for_each (List.map ?f vols) ?g st] =>
    pose proof (proj2 (triple_for_each (fun x => self x = self st) (List.map f vols) g
                         (fun _ => True)
                         ltac:(intros p _; apply triple_parse_file; now intros) st eq_refl))
      as Hself;
    destruct (for_each (List.map f vols) g st) as [t1 [[[] st1]| |]]
  end; cbn [fst snd]; [|reflexivity|reflexivity].
  rewrite IH; [reflexivity|]. now rewrite (Hself tt st1 eq_refl).
Qed.

Lemma append_inj_l (s a b : string) : s +:+ a = s +:+ b -> a = b.
Proof.
  induction s as [|c s IH]; cbn; [easy|]. intros [= H]. now apply IH.
Qed.

Lemma file_pairs_paired (E : Env) (out_dir : string) (vols : list nat) :
  Forall (paired out_dir) (file_pairs E out_dir vols).
Proof.
  unfold file_pairs. apply List.Forall_forall. intros p Hp.
  apply in_flat_map in Hp as (c & _ & Hp). apply in_map_iff in Hp as (i & <- & _).
  now exists (dec (Z.of_nat i) +:+ "." +:+ host_info_host E c).
Qed.

Lemma paired_same_json (out_dir : string) (p q : string * string) :
  paired out_dir p -> paired out_dir q -> snd p = snd q -> fst p = fst q.
Proof.
  intros (x & Hpo & Hpj) (y & Hqo & Hqj) Heq.
  rewrite Hpj, Hqj in Heq. apply append_inj_l in Heq. cbn in Heq.
  injection Heq as Heq. change (x = y) in Heq. congruence.
Qed.

Lemma paired_raw_not_json (out_dir : string) (p q : string * string) :
  paired out_dir p -> paired out_dir q -> fst p <> snd q.
Proof.
  intros (x & Hpo & _) (y & _ & Hqj). rewrite Hpo, Hqj. apply raw_path_not_json.
Qed.

(** One pass over the files: every raw file was there and is unchanged, and
    every json file holds what the filter makes of its raw file. *)
Lemma parse_pass (out_dir : string) (pairs : list (string * string)) (st st' : State)
    (t : list event) (u : unit) :
  Forall (paired out_dir) pairs ->
  for_each pairs (fun p => parse_file (fst p) (snd p)) st = (t, Ret (u, st')) ->
  self st' = self st /\ next_handle st' = next_handle st /\
  (forall p, ~ In p (List.map snd pairs) -> disk st' !! p = disk st !! p) /\
  Forall (fun p => exists raw, disk st !! fst p = Some raw /\
                               disk st' !! snd p = Some (filtered raw)) pairs.
Proof.
  intros Hwf. revert st t. induction Hwf as [|[o j] pairs Hp Hwf IH]; intros st t.
  - cbn. intros H. inversion H; subst. repeat split; constructor.
  - cbn [for_each fst snd]. rewrite bind_run.
    assert (Hne : o <> j) by exact (paired_raw_not_json out_dir (o, j) (o, j) Hp Hp).
    rewrite (parse_file_cases o j st Hne).
    destruct (disk st !! o) as [raw|] eqn:Hraw; cbn [fst snd]; [|discriminate].
    intros Hrest.
    match type of Hrest with
    | (_, snd (for_each _ _ ?x)) = _ =>
        set (st1 := x) in *; destruct (for_each pairs _ st1) as [t2 r2] eqn:Hloop
    end.
    cbn [fst snd] in Hrest. injection Hrest as <- ->.
    destruct (IH st1 t2 Hloop) as (Hs & Hn & Hframe & Hall).
    split; [exact Hs|]. split; [exact Hn|]. split.
    + intros p Hnot. rewrite Hframe.
      * subst st1. cbn. apply lookup_insert_ne. intros <-. apply Hnot. now left.
      * intros Hin. apply Hnot. now right.
    + assert (Hold : forall q, In q pairs -> disk st1 !! fst q = disk st !! fst q).
      { intros q Hq. subst st1. cbn. apply lookup_insert_ne. intros Heq.
        rewrite List.Forall_forall in Hwf.
        exact (paired_raw_not_json out_dir q (o, j) (Hwf q Hq) Hp (eq_sym Heq)). }
      constructor.
      * exists raw. split; [exact Hraw|]. cbn [fst snd].
        destruct (in_dec string_dec j (List.map snd pairs)) as [Hin | Hnot].
        -- apply in_map_iff in Hin as (q & Hqj & Hq).
           rewrite List.Forall_forall in Hall, Hwf.
           destruct (Hall q Hq) as (raw' & Hraw' & Hjson).
           rewrite Hold in Hraw' by exact Hq.
           rewrite (paired_same_json out_dir q (o, j) (Hwf q Hq) Hp Hqj) in Hraw'.
           cbn in Hraw'. rewrite Hqj in Hjson. congruence.
        -- rewrite Hframe by exact Hnot. subst st1. cbn. apply lookup_insert_eq.
      * rewrite List.Forall_forall in Hall |- *. intros q Hq.
        destruct (Hall q Hq) as (raw' & Hraw' & Hjson).
        exists raw'. split; [now rewrite <- Hold | exact Hjson].
Qed.

(** A pass over files that already hold their filtered content changes
    nothing. *)
Lemma parse_pass_again (out_dir : string) (pairs : list (string * string))
    (st : State) :
  Forall (paired out_dir) pairs ->
  Forall (fun p => exists raw, disk st !! fst p = Some raw /\
                               disk st !! snd p = Some (filtered raw)) pairs ->
  for_each pairs (fun p => parse_file (fst p) (snd p)) st = ([], Ret (tt, st)).
Proof.
  intros Hwf Hall. induction Hwf as [|[o j] pairs Hp Hwf IH]; [reflexivity|].
  inversion Hall as [|? ? (raw & Hraw & Hjson) Hall']; subst.
  cbn [for_each fst snd] in *. rewrite bind_run.
  assert (Hne : o <> j) by exact (paired_raw_not_json out_dir (o, j) (o, j) Hp Hp).
  rewrite (parse_file_cases o j st Hne), Hraw. cbn [fst snd].
  rewrite insert_id by exact Hjson. rewrite state_eta.
  now rewrite (IH Hall').
Qed.

(** X3 — [parse] is idempotent: once it has returned, a second call on the
    files it left returns too and changes no file (each json file already
    holds what the filter makes of its raw file). *)
Theorem parse_idempotent (E : Env) (out_dir : string) (st st' : State)
    (t : list event) (u : unit) :
  parse E out_dir st = (t, Ret (u, st')) ->
  parse E out_dir st' = ([], Ret (tt, st')).
Proof.
  intros Hrun.
  destruct (py_range (volumes_per_client (attrs (self st)))) as [vols| |] eqn:Hv.
  - rewrite (parse_as_pairs E out_dir vols st Hv) in Hrun.
    pose proof (file_pairs_paired E out_dir vols) as Hwf.
    destruct (parse_pass out_dir _ st st' t u Hwf Hrun) as (Hs & _ & Hframe & Hall).
    rewrite (parse_as_pairs E out_dir vols st') by now rewrite Hs.
    apply (parse_pass_again out_dir); [exact Hwf|].
    rewrite List.Forall_forall in Hall, Hwf |- *. intros p Hp.
    destruct (Hall p Hp) as (raw & Hraw & Hjson).
    exists raw. split; [|exact Hjson].
    rewrite Hframe; [exact Hraw|].
    intros Hin. apply in_map_iff in Hin as (q & Hq & Hqin).
    exact (paired_raw_not_json out_dir p q (Hwf p Hp) (Hwf q Hqin) (eq_sym Hq)).
  - exfalso. revert Hrun. unfold parse.
    destruct (split "," (clients E)) as [|c cs] eqn:Hsp.
    + destruct (clients E) as [|a r]; cbn in Hsp; [discriminate|].
      destruct (Ascii.eqb a ","); [discriminate|].
      destruct (split "," r); discriminate.
    + cbn [for_each]. rewrite bind_assoc, bind_get_self, bind_assoc, bind_lift, Hv.
      discriminate.
  - exfalso. revert Hrun. unfold parse.
    destruct (split "," (clients E)) as [|c cs] eqn:Hsp.
    + destruct (clients E) as [|a r]; cbn in Hsp; [discriminate|].
      destruct (Ascii.eqb a ","); [discriminate|].
      destruct (split "," r); discriminate.
    + cbn [for_each]. rewrite bind_assoc, bind_get_self, bind_assoc, bind_lift, Hv.
      discriminate.
Qed.

Lemma parse_idempotent_witness :
  parse Demo.env_ok "/arch"
        {| self := Demo.obj_sweep; next_handle := 0;
           disk := <[Demo.json_path := ln "{json}"]> (Demo.one_file Demo.raw_one_block) |}
  = ([], Ret (tt, {| self := Demo.obj_sweep; next_handle := 0;
                     disk := <[Demo.json_path := ln "{json}"]>
                               (Demo.one_file Demo.raw_one_block) |})).
Proof.
  apply (parse_idempotent Demo.env_ok "/arch" (Samples.st_raw Demo.raw_one_block) _ [] tt).
  vm_compute. reflexivity.
Defined.

(** ** When [parse] returns *)

Lemma parse_pass_returns (out_dir : string) (pairs : list (string * string))
    (st : State) :
  Forall (paired out_dir) pairs ->
  (returns (snd (for_each pairs (fun p => parse_file (fst p) (snd p)) st)) = true
   <-> Forall (fun p => is_Some (disk st !! fst p)) pairs) /\
  (returns (snd (for_each pairs (fun p => parse_file (fst p) (snd p)) st)) = false ->
   snd (for_each pairs (fun p => parse_file (fst p) (snd p)) st) = Raise FileNotFoundError).
Proof.
  intros Hwf. revert st. induction Hwf as [|[o j] pairs Hp Hwf IH]; intros st.
  - cbn. split; [split; [constructor | reflexivity] | discriminate].
  - cbn [for_each fst snd]. rewrite bind_run.
    assert (Hne : o <> j) by exact (paired_raw_not_json out_dir (o, j) (o, j) Hp Hp).
    rewrite (parse_file_cases o j st Hne).
    destruct (disk st !! o) as [raw|] eqn:Hraw; cbn [fst snd].
    + match goal with |- context [for_each pairs _ ?x] => set (st1 := x) end.
      destruct (IH st1) as [Hiff Hfail].
      assert (Hsame : Forall (fun p => is_Some (disk st1 !! fst p)) pairs
                      <-> Forall (fun p => is_Some (disk st !! fst p)) pairs).
      { rewrite !List.Forall_forall. rewrite List.Forall_forall in Hwf.
        split; intros H q Hq; specialize (H q Hq); subst st1; cbn in *.
        - rewrite lookup_insert_ne in H; [exact H|]. intros Heq.
          exact (paired_raw_not_json out_dir q (o, j) (Hwf q Hq) Hp (eq_sym Heq)).
        - rewrite lookup_insert_ne; [exact H|]. intros Heq.
          exact (paired_raw_not_json out_dir q (o, j) (Hwf q Hq) Hp (eq_sym Heq)). }
      split; [|exact Hfail].
      rewrite Hiff, Hsame. split.
      * intros H. constructor; [cbn; rewrite Hraw; now eexists | exact H].
      * intros H. now inversion H.
    + split; [|reflexivity]. split; [discriminate|].
      intros H. inversion H as [|? ? [x Hx] _]; subst. cbn in Hx. congruence.
Qed.

(** X20 — [parse] skips no file. For an object whose number of volumes is a
    number, a call that returns has opened the raw output file of every
    volume of every client: each of them was on the disk when the call
    started. One missing raw file makes the whole call fail. *)
Theorem parse_needs_every_raw_file (E : Env) (out_dir : string) (vols : list nat)
    (st : State) :
  py_range (volumes_per_client (attrs (self st))) = Ret vols ->
  (returns (outcome_of (parse E out_dir) st) = true ->
   forall client i, In client (split "," (clients E)) -> In i vols ->
                    is_Some (disk st !! raw_path out_dir i (host_info_host E client))) /\
  (forall client i, In client (split "," (clients E)) -> In i vols ->
                    disk st !! raw_path out_dir i (host_info_host E client) = None ->
                    returns (outcome_of (parse E out_dir) st) = false).
Proof.
  intros Hv.
  assert (Hneed : returns (outcome_of (parse E out_dir) st) = true ->
                  forall client i, In client (split "," (clients E)) -> In i vols ->
                    is_Some (disk st !! raw_path out_dir i (host_info_host E client))).
  { unfold outcome_of. rewrite (parse_as_pairs E out_dir vols st Hv).
    destruct (parse_pass_returns out_dir _ st (file_pairs_paired E out_dir vols))
      as [Hiff _].
    rewrite Hiff, List.Forall_forall. unfold file_pairs.
    intros H client i Hc Hi.
    apply (H (raw_path out_dir i (host_info_host E client),
              json_path_of out_dir i (host_info_host E client))).
    apply in_flat_map. exists client. split; [exact Hc|].
    apply in_map_iff. now exists i. }
  split; [exact Hneed|].
  intros client i Hc Hi Hnone.
  destruct (returns (outcome_of (parse E out_dir) st)) eqn:Hret; [|reflexivity].
  destruct (Hneed eq_refl client i Hc Hi) as [raw Hraw]. congruence.
Qed.

Lemma parse_needs_every_raw_file_witness :
  returns (outcome_of (parse Demo.env_ok "/arch") (Samples.st_raw Demo.raw_one_block)) = true /\
  is_Some (disk (Samples.st_raw Demo.raw_one_block) !! raw_path "/arch" 0 "c1").
Proof.
  assert (H : returns (outcome_of (parse Demo.env_ok "/arch")
                                  (Samples.st_raw Demo.raw_one_block)) = true)
    by (vm_compute; reflexivity).
  split; [exact H|].
  apply (proj1 (parse_needs_every_raw_file Demo.env_ok "/arch" [0%nat]
                  (Samples.st_raw Demo.raw_one_block) ltac:(vm_compute; reflexivity))
               H "c1" 0%nat).
  - vm_compute. now left.
  - now left.
Defined.

(** ** Workloads that leave out their lists *)

(** The ten options as [__init__] reads them from the configuration. *)
Lemma init_options (E : Env) (b : Benchmark) (cfg : Config) (s0 : LibrbdFio) :
  init E b cfg = Ret s0 ->
  exists w : pyval,
    py_rsub 100 (dict_get (options cfg) "rwmixread" (VInt 50)) = Ret w /\
    opts s0
    = {| time_based := VBool (py_truth (dict_get (options cfg) "time_based" (VBool false)));
         ramp := dict_get (options cfg) "ramp" VNone;
         iodepth := dict_get (options cfg) "iodepth" (VInt 16);
         numjobs := dict_get (options cfg) "numjobs" (VInt 1);
         mode := dict_get (options cfg) "mode" (VStr "write");
         end_fsync := dict_get (options cfg) "end_fsync" (VInt 0);
         rwmixread := dict_get (options cfg) "rwmixread" (VInt 50);
         rwmixwrite := w;
         log_avg_msec := dict_get (options cfg) "log_avg_msec" VNone;
         op_size := dict_get (options cfg) "op_size" (VInt 4194304) |} /\
    (cfg_workloads cfg = [] -> global_fio_options s0 = ∅).
Proof.
  unfold init. intros H.
  apply rbind_ret_inv in H as (w & Hw & H).
  apply rbind_ret_inv in H as (pv & _ & H).
  apply rbind_ret_inv in H as (tp & _ & H).
  apply rbind_ret_inv in H as (rd1 & _ & H).
  apply rbind_ret_inv in H as (z1 & _ & H).
  apply rbind_ret_inv in H as (z2 & _ & H).
  apply rbind_ret_inv in H as (z3 & _ & H).
  apply rbind_ret_inv in H as (procs & _ & H).
  injection H as <-. exists w. split; [exact Hw|].
  destruct (cfg_workloads cfg); cbn; now split.
Qed.


Lemma number_has_no_len (v : pyval) (z : Z) :
  as_int v = Some z -> py_len v = Raise TypeError.
Proof. destruct v; cbn; intros H; try discriminate; reflexivity. Qed.

Lemma number_has_no_item (v : pyval) (z : Z) (i : nat) :
  as_int v = Some z -> py_index v i = Raise TypeError.
Proof. destruct v; cbn; intros H; try discriminate; reflexivity. Qed.

(** X4 — A workload inherits the global [iodepth] and [numjobs] for the keys
    it leaves out, and these are scalars: when the global [iodepth] is a
    number (16 by default) a workload without an [iodepth] list raises
    [TypeError] at [len(test['iodepth'])], and when the global [numjobs] is a
    number (1 by default) a workload with a non-empty [iodepth] list and no
    [numjobs] list raises [TypeError] at [test['numjobs'][0]]; in both cases
    before any remote call. *)
Theorem workload_needs_its_own_lists (E : Env) (b : Benchmark) (cfg : Config)
    (wk : string) (spec : gmap string pyval) (st : State) :
  init E b cfg = Ret (self st) ->
  In (wk, spec) (cfg_workloads cfg) ->
  (forall z : Z,
      spec !! "iodepth" = None ->
      as_int (dict_get (options cfg) "iodepth" (VInt 16)) = Some z ->
      run_workload E wk spec st = ([], Raise TypeError)) /\
  (forall (z : Z) (d : pyval) (ds : list pyval),
      spec !! "iodepth" = Some (VList (d :: ds)) ->
      spec !! "numjobs" = None ->
      as_int (dict_get (options cfg) "numjobs" (VInt 1)) = Some z ->
      run_workload E wk spec st = ([], Raise TypeError)).
Proof.
  intros Hinit Hin.
  destruct (init_facts E b cfg (self st) Hinit) as (_ & _ & _ & _ & Hsaved).
  destruct (init_options E b cfg (self st) Hinit) as (w & _ & Hopts & _).
  assert (Hs : saved (global_fio_options (self st)) (opts (self st))).
  { apply Hsaved. intros Hnil. now rewrite Hnil in Hin. }
  assert (Hmode : exists v, (spec ∪ global_fio_options (self st)) !! "mode" = Some v).
  { apply lookup_union_is_Some. right. exists (mode (opts (self st))).
    unfold saved in Hs. tauto. }
  destruct Hmode as [v_mode Hmode].
  split.
  - intros z Hno Hnum. unfold run_workload.
    rewrite bind_get_self, bind_lift. unfold dict_item at 1. rewrite Hmode.
    rewrite bind_lift. unfold dict_item.
    rewrite lookup_union_r by exact Hno.
    replace (global_fio_options (self st) !! "iodepth")
      with (Some (iodepth (opts (self st)))) by (unfold saved in Hs; symmetry; tauto).
    rewrite Hopts. cbn [iodepth]. rewrite bind_lift.
    now rewrite (number_has_no_len _ z Hnum).
  - intros z d ds Hd Hno Hnum. unfold run_workload.
    rewrite bind_get_self, bind_lift. unfold dict_item at 1. rewrite Hmode.
    rewrite bind_lift. unfold dict_item at 1.
    rewrite (lookup_union_Some_l _ _ _ _ Hd). rewrite bind_lift. cbn [py_len length seq for_acc].
    rewrite !bind_assoc. unfold run_pair at 1.
    rewrite !bind_assoc, bind_get_self, bind_assoc, bind_lift.
    unfold apply_overrides, dict_item.
    rewrite (lookup_union_Some_l _ _ _ _ Hd). cbn [rbind py_index nth_error].
    rewrite lookup_union_r by exact Hno.
    replace (global_fio_options (self st) !! "numjobs")
      with (Some (numjobs (opts (self st)))) by (unfold saved in Hs; symmetry; tauto).
    rewrite Hopts. cbn [numjobs rbind].
    now rewrite (number_has_no_item _ z 0 Hnum).
Qed.

Lemma workload_needs_its_own_lists_witness :
  run_workload Demo.env_ok "w1" Samples.spec_no_lists
               (Demo.state_of Samples.obj_no_lists 0)
  = ([], Raise TypeError).
Proof.
  apply (proj1 (workload_needs_its_own_lists Demo.env_ok Demo.bench_plain
                  Samples.cfg_no_lists "w1" Samples.spec_no_lists
                  (Demo.state_of Samples.obj_no_lists 0)
                  ltac:(vm_compute; reflexivity) ltac:(left; reflexivity)) 16).
  - reflexivity.
  - reflexivity.
Defined.

(** ** A turn of the pair loop, event by event *)

(** The wait loop, when it returns: one wait per handle, in order, each on a
    command that has ended. *)
Lemma wait_all_trace (E : Env) (ps : list nat) (st : State) (t : list event)
    (u : unit) (st1 : State) :
  for_each ps (wait E) st = (t, Ret (u, st1)) ->
  t = List.map EvWait ps /\ Forall (fun h => completes E h = true) ps /\ st1 = st.
Proof.
  revert t. induction ps as [|h ps IH]; intros t; cbn [for_each].
  - intros H. inversion H; subst. now repeat split.
  - rewrite bind_wait. destruct (completes E h) eqn:Hc; [|discriminate].
    intros Hrun. destruct (for_each ps (wait E) st) as [t2 r2] eqn:Hrest.
    cbn [fst snd] in Hrun. injection Hrun as <- ->.
    destruct (IH t2 eq_refl) as (-> & Hall & ->).
    split; [reflexivity|]. split; [now constructor | reflexivity].
Qed.

(** A completed turn, call by call, with the state it ends in. *)
Lemma turn_shape (E : Env) (wk : string) (test : gmap string pyval)
    (mon : bool) (rt : pyval) (ps : list nat) (i : nat) (st : State)
    (t : list event) (ps' : list nat) (st' : State) :
  run_pair E wk test mon rt ps i st = (t, Ret (ps', st')) ->
  exists (s' : LibrbdFio) (t1 : list event) (st1 : State) (mid last : list event),
    apply_overrides wk test i (self st) = Ret s' /\
    dispatch_volumes E rt ps
      {| self := s'; next_handle := next_handle st; disk := disk st |}
    = (t1, Ret (ps', st1)) /\
    Forall (fun ev => is_pdsh ev = true) t1 /\
    Forall (fun h => completes E h = true) ps' /\
    (if mon
     then exists z, sleep_secs (ramp (opts (self st))) = Ret z /\
                    mid = [EvSleep z; EvMonitoringStart (run_dir s')] /\
                    last = [EvMonitoringStop (run_dir s')]
     else mid = [] /\ last = []) /\
    t = EvMakeRemoteDir (run_dir s') :: t1 ++ mid ++ List.map EvWait ps' ++ last /\
    restore_global_fio_options s' = Ret (self st') /\
    next_handle st' = next_handle st1 /\ disk st' = disk st1.
Proof.
  unfold run_pair. rewrite bind_get_self, bind_lift.
  destruct (apply_overrides wk test i (self st)) as [s1| |] eqn:Hover;
    [|discriminate|discriminate].
  rewrite bind_modify_self, bind_emit. intros Hrun.
  match type of Hrun with
  | (_ :: fst (bind ?m ?k ?x), _) = _ =>
      destruct (bind m k x) as [t0 r0] eqn:Hrest
  end.
  cbn [fst snd] in Hrun. injection Hrun as <- ->.
  apply bind_returns in Hrest as (t1 & ps1 & st1 & t2 & Hdisp & Hrest & ->).
  pose proof (dispatch_volumes_run E rt ps
                {| self := s1; next_handle := next_handle st; disk := disk st |})
    as [Hpd Hself].
  rewrite Hdisp in Hpd, Hself. cbn [fst snd] in Hpd, Hself.
  specialize (Hself ps1 st1 eq_refl). cbn [self] in Hself.
  pose proof (apply_overrides_opts _ _ _ _ _ Hover) as [Hramp _].
  apply bind_returns in Hrest as (t3 & u3 & st3 & t4 & Hmon & Hrest & ->).
  apply bind_returns in Hrest as (t5 & u5 & st5 & t6 & Hwait & Hrest & ->).
  apply wait_all_trace in Hwait as (-> & Hdone & ->).
  apply bind_returns in Hrest as (t7 & u7 & st7 & t8 & Hstop & Hrest & ->).
  rewrite bind_get_self, bind_lift in Hrest.
  destruct (restore_global_fio_options (self st7)) as [r| |] eqn:Hr;
    [|discriminate|discriminate].
  rewrite bind_modify_self in Hrest. injection Hrest as <- <- <-.
  exists s1, t1, st1, t3, t7.
  assert (H3 : st3 = st1 /\
               if mon
               then exists z, sleep_secs (ramp (opts (self st))) = Ret z /\
                              t3 = [EvSleep z; EvMonitoringStart (run_dir s1)]
               else t3 = []).
  { destruct mon; cbn [when] in Hmon.
    - rewrite bind_get_self in Hmon. unfold sleep in Hmon.
      rewrite bind_assoc, bind_lift, Hself, Hramp in Hmon.
      destruct (sleep_secs (ramp (opts (self st)))) as [z| |];
        [|discriminate|discriminate].
      rewrite !bind_emit in Hmon. injection Hmon as <- <- <-.
      split; [reflexivity | now exists z].
    - now injection Hmon as <- <- <-. }
  destruct H3 as [-> H3].
  assert (H7 : st7 = st1 /\
               if mon then t7 = [EvMonitoringStop (run_dir s1)] else t7 = []).
  { destruct mon; cbn [when] in Hstop.
    - rewrite bind_get_self, Hself in Hstop. now injection Hstop as <- <- <-.
    - now injection Hstop as <- <- <-. }
  destruct H7 as [-> H7].
  split; [reflexivity|]. split; [exact Hdisp|]. split; [exact Hpd|].
  split; [exact Hdone|]. split.
  - destruct mon; [|now split].
    destruct H3 as (z & Hz & ->). exists z. now repeat split.
  - split; [now rewrite app_nil_r|]. cbn [self next_handle disk].
    split; [now rewrite <- Hself | now split].
Qed.


(** X5 — A turn of the pair loop that completes made its calls in this
    order: the run directory, then every dispatch, then (with monitoring on)
    the ramp sleep and the monitoring start, then one wait for each handle of
    its list in list order, each on a command that has ended, then (with
    monitoring on) the monitoring stop; the options are restored after the
    last of them. *)
Theorem completed_turn_shape (E : Env) (wk : string) (test : gmap string pyval)
    (mon : bool) (rt : pyval) (ps : list nat) (i : nat) (st : State)
    (t : list event) (ps' : list nat) (st' : State) :
  run_pair E wk test mon rt ps i st = (t, Ret (ps', st')) ->
  exists (s' : LibrbdFio) (t1 : list event) (st1 : State) (mid last : list event),
    apply_overrides wk test i (self st) = Ret s' /\
    dispatch_volumes E rt ps
      {| self := s'; next_handle := next_handle st; disk := disk st |}
    = (t1, Ret (ps', st1)) /\
    Forall (fun ev => is_pdsh ev = true) t1 /\
    Forall (fun h => completes E h = true) ps' /\
    (if mon
     then exists z, sleep_secs (ramp (opts (self st))) = Ret z /\
                    mid = [EvSleep z; EvMonitoringStart (run_dir s')] /\
                    last = [EvMonitoringStop (run_dir s')]
     else mid = [] /\ last = []) /\
    t = EvMakeRemoteDir (run_dir s') :: t1 ++ mid ++ List.map EvWait ps' ++ last /\
    restore_global_fio_options s' = Ret (self st').
Proof.
  intros Hrun.
  destruct (turn_shape _ _ _ _ _ _ _ _ _ _ _ Hrun)
    as (s' & t1 & st1 & mid & last & H1 & H2 & H3 & H4 & H5 & H6 & H7 & _).
  exists s', t1, st1, mid, last. now repeat split.
Qed.

Lemma completed_turn_shape_witness :
  Samples.turn0 (Demo.state_of Demo.obj_sweep 0)
  = (Samples.turn0_trace, Ret (Samples.turn0_handles, Samples.turn0_state)) /\
  exists (s' : LibrbdFio) (t1 mid last : list event),
    Samples.turn0_trace
    = EvMakeRemoteDir (run_dir s') :: t1 ++ mid
      ++ List.map EvWait Samples.turn0_handles ++ last /\
    restore_global_fio_options s' = Ret (self Samples.turn0_state).
Proof.
  assert (H : Samples.turn0 (Demo.state_of Demo.obj_sweep 0)
              = (Samples.turn0_trace, Ret (Samples.turn0_handles, Samples.turn0_state)))
    by (vm_compute; reflexivity).
  split; [exact H|].
  destruct (completed_turn_shape _ _ _ _ _ _ _ _ _ _ _ H)
    as (s' & t1 & st1 & mid & last & _ & _ & _ & _ & _ & Ht & Hr).
  exists s', t1, mid, last. split; [exact Ht | exact Hr].
Defined.

(** ** What one dispatch loop sends *)

Lemma dispatch_loop_commands (E : Env) (mk : LibrbdFio -> nat -> result string)
    (n a : nat) (ps : list nat)
    (st : State) (t : list event) (ps1 : list nat) (st1 : State) :
  for_acc (seq a n) ps
    (fun ps i =>
       (s <- get_self ;;
        fio_cmd <- lift (mk s i) ;;
        p <- pdsh (clients E) fio_cmd ;;
        ret (ps ++ [p]))%fio) st
  = (t, Ret (ps1, st1)) ->
  exists cmds : list string,
    List.length cmds = n /\
    (forall k cmd, nth_error cmds k = Some cmd ->
                   mk (self st) (a + k)%nat = Ret cmd) /\
    t = imap (fun k cmd => EvPdsh (next_handle st + k) (clients E) cmd) cmds /\
    ps1 = ps ++ seq (next_handle st) n /\
    st1 = {| self := self st; next_handle := next_handle st + n; disk := disk st |}.
Proof.
  revert a ps st t. induction n as [|n IH]; intros a ps st t; cbn [seq for_acc].
  - intros H. inversion H; subst. exists []. cbn.
    rewrite app_nil_r, Nat.add_0_r, state_eta. repeat split. intros [|k] cmd; discriminate.
  - rewrite !bind_assoc, bind_get_self, bind_assoc, bind_lift.
    destruct (mk (self st) a) as [cmd| |] eqn:Hcmd; [|discriminate|discriminate].
    rewrite bind_assoc, bind_pdsh. cbv zeta. rewrite bind_ret. intros Hrun.
    match type of Hrun with
    | (_ :: fst (for_acc _ _ ?body ?x), _) = _ =>
        destruct (for_acc (seq (S a) n) (ps ++ [next_handle st]) body x)
          as [t2 r2] eqn:Hrest
    end.
    cbn [fst snd] in Hrun. injection Hrun as <- ->.
    apply IH in Hrest as (cmds & Hlen & Hcmds & -> & -> & ->). cbn [self next_handle disk].
    exists (cmd :: cmds). cbn [length]. split; [now rewrite Hlen|]. split; [|split; [|split]].
    + intros [|k] c Hk; cbn in Hk.
      * injection Hk as <-. now rewrite Nat.add_0_r.
      * replace (a + S k)%nat with (S a + k)%nat by lia. now apply Hcmds.
    + cbn [imap]. rewrite Nat.add_0_r. f_equal. apply imap_ext.
      intros k c _. cbn. f_equal. lia.
    + rewrite <- app_assoc. reflexivity.
    + f_equal. lia.
Qed.

(** What a completed dispatch loop has sent. *)
Lemma dispatch_commands (E : Env) (rt : pyval) (ps : list nat) (st : State)
    (t : list event) (ps1 : list nat) (st1 : State) :
  dispatch_volumes E rt ps st = (t, Ret (ps1, st1)) ->
  exists (v : Z) (cmds : list string),
    as_int (volumes_per_client (attrs (self st))) = Some v /\
    List.length cmds = Z.to_nat v /\
    (forall k cmd, nth_error cmds k = Some cmd ->
                   mkfiocmd E (self st) k rt = Ret cmd) /\
    t = imap (fun k cmd => EvPdsh (next_handle st + k) (clients E) cmd) cmds /\
    ps1 = ps ++ seq (next_handle st) (List.length cmds) /\
    st1 = {| self := self st; next_handle := next_handle st + List.length cmds;
             disk := disk st |}.
Proof.
  unfold dispatch_volumes. rewrite bind_get_self, bind_lift. unfold py_range.
  destruct (as_int (volumes_per_client (attrs (self st)))) as [v|]; [|discriminate].
  intros Hrun.
  apply (dispatch_loop_commands E (fun s i => mkfiocmd E s i rt)) in Hrun
    as (cmds & Hlen & Hcmds & -> & -> & ->).
  exists v, cmds. rewrite Hlen. repeat split; try reflexivity. exact Hcmds.
Qed.

(** X6 — A dispatch loop that completes has handed to [pdsh], for the clients
    of the settings, one command per volume number from 0 up to
    [volumes_per_client] (none when it is zero or negative), each built by
    [mkfiocmd] for that volume from the object as it stands, in this order;
    the handles go to the end of the list and the object is left as it
    was. *)
Theorem dispatch_volumes_commands (E : Env) (rt : pyval) (ps : list nat) (st : State)
    (t : list event) (ps1 : list nat) (st1 : State) :
  dispatch_volumes E rt ps st = (t, Ret (ps1, st1)) ->
  exists (v : Z) (cmds : list string),
    as_int (volumes_per_client (attrs (self st))) = Some v /\
    List.length cmds = Z.to_nat v /\
    (forall k cmd, nth_error cmds k = Some cmd ->
                   mkfiocmd E (self st) k rt = Ret cmd) /\
    t = imap (fun k cmd => EvPdsh (next_handle st + k) (clients E) cmd) cmds /\
    ps1 = ps ++ seq (next_handle st) (List.length cmds) /\
    st1 = {| self := self st; next_handle := next_handle st + List.length cmds;
             disk := disk st |}.
Proof. apply dispatch_commands. Qed.

Lemma dispatch_volumes_commands_witness :
  dispatch_volumes Demo.env_ok VNone [] (Demo.state_of Demo.obj_sweep 0)
  = (Samples.dispatch0_trace, Ret ([0%nat], Demo.state_of Demo.obj_sweep 1)) /\
  exists cmds : list string,
    List.length cmds = 1%nat /\
    Samples.dispatch0_trace
    = imap (fun k cmd => EvPdsh (0 + k) (clients Demo.env_ok) cmd) cmds.
Proof.
  assert (H : dispatch_volumes Demo.env_ok VNone [] (Demo.state_of Demo.obj_sweep 0)
              = (Samples.dispatch0_trace, Ret ([0%nat], Demo.state_of Demo.obj_sweep 1)))
    by (vm_compute; reflexivity).
  split; [exact H|].
  destruct (dispatch_volumes_commands _ _ _ _ _ _ _ H)
    as (v & cmds & Hv & Hlen & _ & Ht & _).
  exists cmds. split; [|exact Ht].
  vm_compute in Hv. injection Hv as <-. exact Hlen.
Defined.

(** ** The object after a turn *)

(** The run directory [apply_overrides] names. *)
Lemma apply_overrides_run_dir (wk : string) (test : gmap string pyval) (i : nat)
    (s s' : LibrbdFio) :
  apply_overrides wk test i s = Ret s' ->
  exists op iod nj : Z,
    py_int (op_size (opts s')) = Ret op /\
    py_int (iodepth (opts s')) = Ret iod /\
    py_int (numjobs (opts s')) = Ret nj /\
    run_dir s'
    = base_run_dir (attrs s) +:+ "/" +:+ wk +:+ "_" +:+ py_str (mode (opts s')) +:+ "_"
      +:+ dec op +:+ "/iodepth-" +:+ fmt_0d 3 iod +:+ "/numjobs-" +:+ fmt_0d 3 nj.
Proof.
  intros H. pose proof (apply_overrides_frame _ _ _ _ _ H) as (_ & Ha & _).
  unfold apply_overrides in H.
  apply rbind_ret_inv in H as (v_iod & _ & H).
  apply rbind_ret_inv in H as (iod & _ & H).
  apply rbind_ret_inv in H as (v_nj & _ & H).
  apply rbind_ret_inv in H as (job & _ & H).
  apply rbind_ret_inv in H as (v_mode & _ & H).
  apply rbind_ret_inv in H as (s1 & _ & H).
  apply rbind_ret_inv in H as (s2 & _ & H).
  apply rbind_ret_inv in H as (v_mode' & _ & H).
  apply rbind_ret_inv in H as (z1 & Hz1 & H).
  apply rbind_ret_inv in H as (z2 & Hz2 & H).
  apply rbind_ret_inv in H as (z3 & Hz3 & H).
  injection H as <-. cbn in Ha. exists z1, z2, z3. cbn.
  split; [exact Hz1|]. split; [exact Hz2|]. split; [exact Hz3|]. now rewrite <- Ha.
Qed.

(** X7 — When a turn completes, the ten options are back at the values of
    the saved table, while the run directory stays the one the turn named,
    [<base_run_dir>/<wk>_<mode>_<op_size>/iodepth-NNN/numjobs-NNN]: the restore
    does not put the run directory back. Nothing else of the object and no
    local file has changed. *)
Theorem completed_turn_state (E : Env) (wk : string) (test : gmap string pyval)
    (mon : bool) (rt : pyval) (ps : list nat) (i : nat) (st : State)
    (t : list event) (ps' : list nat) (st' : State) :
  run_pair E wk test mon rt ps i st = (t, Ret (ps', st')) ->
  bench (self st') = bench (self st) /\
  attrs (self st') = attrs (self st) /\
  global_fio_options (self st') = global_fio_options (self st) /\
  saved (global_fio_options (self st)) (opts (self st')) /\
  disk st' = disk st /\
  exists (s' : LibrbdFio) (op iod nj : Z),
    apply_overrides wk test i (self st) = Ret s' /\
    py_int (op_size (opts s')) = Ret op /\
    py_int (iodepth (opts s')) = Ret iod /\
    py_int (numjobs (opts s')) = Ret nj /\
    run_dir (self st')
    = base_run_dir (attrs (self st)) +:+ "/" +:+ wk +:+ "_" +:+ py_str (mode (opts s'))
      +:+ "_" +:+ dec op +:+ "/iodepth-" +:+ fmt_0d 3 iod
      +:+ "/numjobs-" +:+ fmt_0d 3 nj.
Proof.
  intros Hrun.
  destruct (turn_shape _ _ _ _ _ _ _ _ _ _ _ Hrun)
    as (s' & t1 & st1 & mid & last & Hover & Hdisp & _ & _ & _ & _ & Hr & _).
  pose proof (apply_overrides_frame _ _ _ _ _ Hover) as (Hb & Ha & Hg).
  pose proof (restore_frame _ _ Hr) as (Hb' & Ha' & Hg' & Hd' & Hsv).
  destruct (apply_overrides_run_dir _ _ _ _ _ Hover) as (op & iod & nj & H1 & H2 & H3 & Hd).
  split; [congruence|]. split; [congruence|]. split; [congruence|].
  split; [now rewrite <- Hg|]. split.
  - assert (Htr : triple (fun x => disk x = disk st) (run_pair E wk test mon rt ps i)
                         (fun _ => True) (fun _ x => disk x = disk st)).
    { unfold run_pair.
      apply triple_seq; [apply triple_get_self; now intros x Hx|]. intros s.
      apply triple_seq; [apply triple_lift; now intros a x Hx _|]. intros s1.
      apply triple_seq; [apply triple_modify_self; now intros x Hx|]. intros u0.
      apply triple_seq; [apply triple_emit; [exact I | now intros x Hx]|]. intros u1.
      apply triple_seq.
      { unfold dispatch_volumes.
        apply triple_seq; [apply triple_get_self; now intros x Hx|]. intros s2.
        apply triple_seq; [apply triple_lift; now intros a x Hx _|]. intros vols.
        apply triple_for_acc. intros acc k _.
        apply triple_seq; [apply triple_get_self; now intros x Hx|]. intros s3.
        apply triple_seq; [apply triple_lift; now intros a x Hx _|]. intros cmd.
        apply triple_seq; [apply triple_pdsh; [easy | now intros x Hx]|]. intros p.
        apply triple_ret. now intros x Hx. }
      intros ps2. apply triple_seq.
      { apply triple_when; [|now intros _ x Hx]. intros _.
        apply triple_seq; [apply triple_get_self; now intros x Hx|]. intros s2.
        unfold sleep. apply triple_seq.
        - apply triple_seq; [apply triple_lift; now intros a x Hx _|]. intros z.
          apply triple_emit; [exact I | now intros x Hx].
        - intros u2. apply triple_emit; [exact I | now intros x Hx]. }
      intros u3. apply triple_seq; [now apply triple_wait_all|]. intros u4.
      apply triple_seq.
      { apply triple_when; [|now intros _ x Hx]. intros _.
        apply triple_seq; [apply triple_get_self; now intros x Hx|]. intros s2.
        apply triple_emit; [exact I | now intros x Hx]. }
      intros u5.
      apply triple_seq; [apply triple_get_self; now intros x Hx|]. intros s2.
      apply triple_seq; [apply triple_lift; now intros a x Hx _|]. intros r.
      apply triple_seq; [apply triple_modify_self; now intros x Hx|]. intros u6.
      apply triple_ret. now intros x Hx. }
    destruct (Htr st eq_refl) as [_ Hq]. apply (Hq ps' st'). now rewrite Hrun.
  - exists s', op, iod, nj. repeat split; try assumption. now rewrite Hd'.
Qed.

Lemma completed_turn_state_witness :
  Samples.turn0 (Demo.state_of Demo.obj_sweep 0)
  = (Samples.turn0_trace, Ret (Samples.turn0_handles, Samples.turn0_state)) /\
  attrs (self Samples.turn0_state) = attrs Demo.obj_sweep /\
  saved (global_fio_options Demo.obj_sweep) (opts (self Samples.turn0_state)) /\
  disk Samples.turn0_state = ∅.
Proof.
  assert (H : Samples.turn0 (Demo.state_of Demo.obj_sweep 0)
              = (Samples.turn0_trace, Ret (Samples.turn0_handles, Samples.turn0_state)))
    by (vm_compute; reflexivity).
  split; [exact H|].
  destruct (completed_turn_state _ _ _ _ _ _ _ _ _ _ _ H) as (_ & Ha & _ & Hs & Hd & _).
  split; [exact Ha|]. split; [exact Hs | exact Hd].
Defined.

(** ** Workloads with monitoring off *)

Lemma triple_run_pair_unmonitored (E : Env) (T : event -> Prop) (wk : string)
    (test : gmap string pyval) (rt : pyval) (ps : list nat) (i : nat) :
  (forall d, T (EvMakeRemoteDir d)) ->
  (forall h nodes cmd, T (EvPdsh h nodes cmd)) ->
  (forall h, T (EvWait h)) ->
  triple (fun _ => True) (run_pair E wk test false rt ps i) T (fun _ _ => True).
Proof.
  intros Hmk Hpdsh Hwait. unfold run_pair.
  apply triple_seq; [now apply triple_get_self|]. intros s.
  apply triple_seq; [now apply triple_lift|]. intros s1.
  apply triple_seq; [now apply triple_modify_self|]. intros u0.
  apply triple_seq; [apply triple_emit; [apply Hmk | easy]|]. intros u1.
  apply triple_seq.
  { apply (triple_dispatch_volumes E T (fun _ => True)). intros. apply Hpdsh. }
  intros ps2. cbn [when].
  apply triple_seq; [now apply triple_ret|]. intros u3.
  apply triple_seq; [now apply triple_wait_all|]. intros u4.
  apply triple_seq; [now apply triple_ret|]. intros u5.
  apply triple_seq; [now apply triple_get_self|]. intros s2.
  apply triple_seq; [now apply triple_lift|]. intros r.
  apply triple_seq; [now apply triple_modify_self|]. intros u6.
  now apply triple_ret.
Qed.

(** X8 — A workload whose [monitor] option is false never sleeps for the
    ramp and never starts or stops monitoring, in none of its turns, however
    the workload ends. *)
Theorem unmonitored_workload_never_monitors (E : Env) (wk : string)
    (spec : gmap string pyval) (st : State) :
  monitor_enabled (test_of spec (self st)) = false ->
  Forall unmonitored (trace_of (run_workload E wk spec) st).
Proof.
  intros Hmon.
  assert (Hrest : triple (fun _ => True)
            (_ <- lift (dict_item (test_of spec (self st)) "mode") ;;
             v_iodepth <- lift (dict_item (test_of spec (self st)) "iodepth") ;;
             n <- lift (py_len v_iodepth) ;;
             _ <- for_acc (seq 0 n) []
                    (run_pair E wk (test_of spec (self st)) false
                       (if dict_has (test_of spec (self st)) "precond"
                        then precond_time (attrs (self st)) else time (attrs (self st)))) ;;
             ret tt)%fio unmonitored (fun _ _ => True)).
  { apply triple_seq; [now apply triple_lift|]. intros v.
    apply triple_seq; [now apply triple_lift|]. intros v_iod.
    apply triple_seq; [now apply triple_lift|]. intros n.
    apply triple_seq; [|intros ps; now apply triple_ret].
    apply triple_for_acc. intros acc i _.
    apply triple_run_pair_unmonitored; intros; now repeat split. }
  destruct (Hrest st I) as [Hall _].
  unfold trace_of, run_workload. rewrite bind_get_self.
  fold (test_of spec (self st)). fold (monitor_enabled (test_of spec (self st))).
  rewrite Hmon. exact Hall.
Qed.

Lemma unmonitored_workload_never_monitors_witness :
  Forall unmonitored
         (trace_of (run_workload Demo.env_ok "w1" Samples.sweep_unmonitored)
                   (Demo.state_of Samples.obj_unmonitored 0)) /\
  returns (outcome_of (run_workload Demo.env_ok "w1" Samples.sweep_unmonitored)
                      (Demo.state_of Samples.obj_unmonitored 0)) = true.
Proof.
  split; [|vm_compute; reflexivity].
  apply unmonitored_workload_never_monitors. vm_compute. reflexivity.
Defined.

(** ** More on the top-level [run] *)

(** X9 — With a recovery test configured and a [recov_test_type] that is
    neither "blocking" nor "background", [run] raises [UnboundLocalError]
    where it passes the callback to [create_recovery_test]: the prologue up
    to the autoscaler check has run, nothing is registered, no client load is
    dispatched and nothing is collected. *)
Theorem run_unknown_recovery_kind (E : Env) (st : State) :
  recovery_test (bench (self st)) = true ->
  eq_str (recov_test_type (attrs (self st))) "blocking" = false ->
  eq_str (recov_test_type (attrs (self st))) "background" = false ->
  run E st
  = ([EvBenchmarkRun; EvDropCaches;
      EvMakeRemoteDir (run_dir (self st));
      EvDumpConfig (run_dir (self st));
      EvSleep 5;
      EvCheckPgAutoscaler (wait_pgautoscaler_timeout (attrs (self st)))
                          (run_dir (self st) +:+ "/pgautoscaler.log")],
     Raise UnboundLocalError).
Proof.
  intros Hrec Hbl Hbg. unfold run. rewrite bind_run, run_prepare_run. cbv zeta.
  now rewrite Hrec, Hbl, Hbg.
Qed.

Lemma run_finish_trace (E : Env) (st : State) :
  fst (run_finish E st)
  = let rest := [EvMonitoringStop (run_dir (self st));
                 EvDumpHistoricOps (run_dir (self st));
                 EvSyncFiles (run_dir (self st) +:+ "/*") (out_dir (attrs (self st)))] in
    if recovery_test (bench (self st))
    then EvWaitRecoveryDone :: (if recovery_finished E then rest else [])
    else rest.
Proof.
  unfold run_finish. rewrite bind_get_self, bind_when.
  assert (Hrest : forall x,
             fst ((emit (EvMonitoringStop (run_dir (self st))) ;;
                   emit (EvDumpHistoricOps (run_dir (self st))) ;;
                   emit (EvSyncFiles (run_dir (self st) +:+ "/*")
                                     (out_dir (attrs (self st)))) ;;
                   d <- get_disk ;;
                   put_disk (synced E (run_dir (self st) +:+ "/*")
                                    (out_dir (attrs (self st))) d) ;;
                   analyze E (out_dir (attrs (self st))))%fio x)
             = [EvMonitoringStop (run_dir (self st));
                EvDumpHistoricOps (run_dir (self st));
                EvSyncFiles (run_dir (self st) +:+ "/*") (out_dir (attrs (self st)))]).
  { intros x. rewrite !bind_emit, bind_get_disk, bind_put_disk. cbn [fst].
    unfold analyze. now rewrite silent_parse. }
  destruct (recovery_test (bench (self st))).
  - rewrite bind_assoc, bind_emit, bind_block_until. cbn [fst].
    destruct (recovery_finished E); [|reflexivity]. now rewrite Hrest.
  - apply Hrest.
Qed.

Lemma run_unknown_recovery_kind_witness :
  run Demo.env_ok (Demo.state_of Samples.obj_odd_kind 0)
  = ([EvBenchmarkRun; EvDropCaches;
      EvMakeRemoteDir (run_dir Samples.obj_odd_kind);
      EvDumpConfig (run_dir Samples.obj_odd_kind);
      EvSleep 5;
      EvCheckPgAutoscaler (wait_pgautoscaler_timeout (attrs Samples.obj_odd_kind))
                          (run_dir Samples.obj_odd_kind +:+ "/pgautoscaler.log")],
     Raise UnboundLocalError).
Proof.
  apply (run_unknown_recovery_kind Demo.env_ok (Demo.state_of Samples.obj_odd_kind 0));
    vm_compute; reflexivity.
Defined.

(** X10 — Without a recovery test configured, [run] makes no call of the
    recovery hand-shake: it registers no callback, and it waits neither for
    the start-I/O signal nor for the end of a recovery, whatever the
    workloads and however the run ends. *)
Theorem run_without_recovery_test (E : Env) (st : State) :
  recovery_test (bench (self st)) = false ->
  Forall no_recovery_call (trace_of (run E) st).
Proof.
  intros Hrec.
  set (P := fun x : State => recovery_test (bench (self x)) = false).
  assert (Htr : triple P (run E) no_recovery_call (fun _ _ => True)).
  { unfold run. apply (triple_seq P).
    { intros x Hx. rewrite run_prepare_run. cbv zeta. unfold P in Hx. rewrite Hx.
      split; [now repeat constructor|]. cbn. now intros [] x' [= <-]. }
    intros u. eapply triple_bind with (R := fun _ => P).
    - unfold run_load.
      eapply triple_bind with (R := fun s x => P x); [apply triple_get_self; now intros|].
      intros s. destruct (workloads (attrs s)).
      + apply (triple_seq P); [apply triple_emit; [exact I | now intros]|]. intros u0.
        apply (triple_seq P).
        * apply (triple_dispatch_volumes E no_recovery_call
                   (fun s0 => recovery_test (bench s0) = false)). now intros.
        * intros ps. now apply triple_wait_all.
      + apply (triple_run_workloads E no_recovery_call
                 (fun s0 => recovery_test (bench s0) = false)
                 (fun _ s0 => recovery_test (bench s0) = false)); try easy.
        intros wk spec sw s0 _ _ _ test. repeat split; try easy.
        * intros i s1 s1' H1 Ho. apply apply_overrides_frame in Ho as (-> & _). exact H1.
        * intros s1 r H1 Hr. apply restore_frame in Hr as (-> & _). exact H1.
    - intros u1. unfold run_finish.
      eapply triple_bind with (R := fun s x => P x /\ s = self x);
        [apply triple_get_self; now intros|].
      intros s x [Hx ->]. unfold P in Hx. rewrite bind_when, Hx.
      assert (Hrest : triple (fun _ => True)
                (emit (EvMonitoringStop (run_dir (self x))) ;;
                 emit (EvDumpHistoricOps (run_dir (self x))) ;;
                 emit (EvSyncFiles (run_dir (self x) +:+ "/*") (out_dir (attrs (self x)))) ;;
                 d <- get_disk ;;
                 put_disk (synced E (run_dir (self x) +:+ "/*")
                                  (out_dir (attrs (self x))) d) ;;
                 analyze E (out_dir (attrs (self x))))%fio
                no_recovery_call (fun _ _ => True)).
      { apply triple_seq; [now apply triple_emit|]. intros u2.
        apply triple_seq; [now apply triple_emit|]. intros u3.
        apply triple_seq; [now apply triple_emit|]. intros u4.
        apply triple_seq; [now apply triple_get_disk|]. intros d.
        apply triple_seq; [now apply triple_put_disk|]. intros u5.
        unfold analyze. now apply triple_parse. }
      exact (Hrest x I). }
  destruct (Htr st Hrec) as [Hall _]. exact Hall.
Qed.

Lemma run_without_recovery_test_witness :
  Forall no_recovery_call (trace_of (run Demo.env_ok) (Demo.state_of Demo.obj_sweep 0)).
Proof.
  apply run_without_recovery_test. vm_compute. reflexivity.
Defined.

(** ** The original-style run *)

Lemma run_prepare_no_load (E : Env) (st : State) :
  waited (fst (run_prepare E st)) = [] /\ dispatched (fst (run_prepare E st)) = [].
Proof.
  rewrite run_prepare_run. cbv zeta.
  repeat match goal with
         | |- context [if ?c then _ else _] => destruct c
         end; now cbn.
Qed.

Lemma run_finish_no_load (E : Env) (st : State) :
  waited (fst (run_finish E st)) = [] /\ dispatched (fst (run_finish E st)) = [].
Proof.
  rewrite run_finish_trace. cbv zeta.
  repeat match goal with
         | |- context [if ?c then _ else _] => destruct c
         end; now cbn.
Qed.

Lemma pdsh_events_handles (nodes : string) (cmds : list string) (h : nat) :
  dispatched (imap (fun k cmd => EvPdsh (h + k) nodes cmd) cmds)
  = seq h (List.length cmds) /\
  waited (imap (fun k cmd => EvPdsh (h + k) nodes cmd) cmds) = [].
Proof.
  revert h. induction cmds as [|c cmds IH]; intros h; [now cbn|].
  cbn [imap dispatched waited length seq]. rewrite Nat.add_0_r.
  destruct (IH (S h)) as [Hd Hw].
  rewrite (imap_ext _ (fun k cmd => EvPdsh (S h + k) nodes cmd))
    by (intros k x _; cbn; f_equal; lia).
  now rewrite Hd, Hw.
Qed.

Lemma wait_events_handles (ps : list nat) :
  waited (List.map EvWait ps) = ps /\ dispatched (List.map EvWait ps) = [].
Proof.
  induction ps as [|h ps [IHw IHd]]; [now cbn|]. cbn. now rewrite IHw, IHd.
Qed.

(** X11 — In the original style (no workload table) a [run] that returns has
    waited on every handle it dispatched exactly once and in dispatch order:
    there is one dispatch per volume, the handles are pairwise distinct, and
    the waits are on the same handles in the same order. *)
Theorem original_run_waits_once (E : Env) (st st' : State) (t : list event) (u : unit) :
  workloads (attrs (self st)) = [] ->
  run E st = (t, Ret (u, st')) ->
  exists v : Z,
    as_int (volumes_per_client (attrs (self st))) = Some v /\
    dispatched t = seq (next_handle st) (Z.to_nat v) /\
    waited t = dispatched t /\
    NoDup (dispatched t).
Proof.
  intros Hw Hrun. unfold run in Hrun.
  apply bind_returns in Hrun as (tp & up & stp & t1 & Hprep & Hrun & ->).
  apply bind_returns in Hrun as (tl & ul & stl & tf & Hload & Hfin & ->).
  pose proof (run_prepare_no_load E st) as [Hpw Hpd]. rewrite Hprep in Hpw, Hpd.
  apply run_prepare_returns in Hprep as ->.
  pose proof (run_finish_no_load E stl) as [Hfw Hfd]. rewrite Hfin in Hfw, Hfd.
  cbn [fst] in Hpw, Hpd, Hfw, Hfd.
  unfold run_load in Hload. rewrite bind_get_self, Hw, bind_emit in Hload.
  match type of Hload with
  | (_ :: fst (bind ?m ?k ?x), _) = _ => destruct (bind m k x) as [t0 r0] eqn:Hrest
  end.
  cbn [fst snd] in Hload. injection Hload as <- ->.
  apply bind_returns in Hrest as (td & ps & std & tw & Hdisp & Hwait & ->).
  apply dispatch_commands in Hdisp
    as (v & cmds & Hv & Hlen & _ & -> & -> & ->).
  apply wait_all_trace in Hwait as (-> & _ & _).
  destruct (pdsh_events_handles (clients E) cmds (next_handle st)) as [Hdd Hdw].
  destruct (wait_events_handles ([] ++ seq (next_handle st) (length cmds))) as [Hww Hwd].
  assert (Hd : dispatched (tp ++ (EvMonitoringStart (run_dir (self st))
                 :: imap (fun k cmd => EvPdsh (next_handle st + k) (clients E) cmd) cmds
                    ++ List.map EvWait ([] ++ seq (next_handle st) (length cmds))) ++ tf)
               = seq (next_handle st) (length cmds)).
  { rewrite !dispatched_app. cbn [dispatched]. rewrite dispatched_app.
    rewrite Hpd, Hfd, Hdd, Hwd. now rewrite !app_nil_r. }
  exists v. split; [exact Hv|]. rewrite Hd, <- Hlen. split; [reflexivity|]. split.
  - rewrite !waited_app. cbn [waited]. rewrite waited_app.
    rewrite Hpw, Hfw, Hdw, Hww. cbn. now rewrite app_nil_r.
  - apply NoDup_ListNoDup, seq_NoDup.
Qed.

(** ** The set-up methods *)

Import Setup.

Lemma has_char_eqb (c d : ascii) (r : string) :
  has_char c (String d r) = Ascii.eqb d c || has_char c r.
Proof. cbn. now rewrite Ascii.eqb_sym. Qed.

Lemma rpartition_tail_clean (sep : ascii) (s : string) :
  has_char sep (rpartition_tail sep s) = false.
Proof.
  induction s as [|c r IH]; [reflexivity|]. cbn [rpartition_tail].
  destruct (has_char sep r) eqn:Hr; [exact IH|].
  destruct (Ascii.eqb c sep) eqn:Hc; [exact Hr|].
  now rewrite has_char_eqb, Hc, Hr.
Qed.

Lemma rpartition_tail_id (sep : ascii) (s : string) :
  has_char sep s = false -> rpartition_tail sep s = s.
Proof.
  destruct s as [|c r]; [reflexivity|]. rewrite has_char_eqb.
  intros H. apply orb_false_iff in H as [Hc Hr]. cbn [rpartition_tail].
  now rewrite Hr, Hc.
Qed.

Lemma rpartition_tail_idem (sep : ascii) (s : string) :
  rpartition_tail sep (rpartition_tail sep s) = rpartition_tail sep s.
Proof. apply rpartition_tail_id, rpartition_tail_clean. Qed.

(** The inner loop: [node] is cut at every volume, which changes it at the
    first one only. *)
Lemma mkimage_inner (vols : list nat) (node prefix : string)
    (size pool data_pool osize : pyval) :
  wfor vols node (fun node volnum =>
    let node := rpartition_tail "@" node in
    (wcall (CMkImage (prefix +:+ node +:+ "-" +:+ dec (Z.of_nat volnum))
                     size pool data_pool osize) ;;
     wret node)%setup)
  = (List.map (fun volnum =>
                 CMkImage (prefix +:+ rpartition_tail "@" node +:+ "-"
                           +:+ dec (Z.of_nat volnum))
                          size pool data_pool osize) vols,
     Ret (match vols with [] => node | _ :: _ => rpartition_tail "@" node end)).
Proof.
  revert node. induction vols as [|v vols IH]; intros node; [reflexivity|].
  cbn [wfor List.map]. cbv zeta. unfold wcall at 1, wret at 1. cbn [wbind app].
  rewrite IH, rpartition_tail_idem. cbn [wbind app].
  now destruct vols.
Qed.

Lemma mkimage_loop_calls (nodes : list string) (s : LibrbdFio) (prefix : string)
    (pool data_pool : pyval) (vols : list nat) :
  py_range (volumes_per_client (attrs s)) = Ret vols ->
  mkimage_loop nodes s prefix pool data_pool
  = (images prefix nodes vols s pool data_pool, Ret tt).
Proof.
  intros Hv. unfold mkimage_loop, images.
  set (body := fun (_ : unit) (node : string) => _).
  induction nodes as [|node nodes IH]; [reflexivity|].
  cbn [wfor flat_map]. unfold body at 1. rewrite Hv.
  unfold wlift. cbn [wbind app]. rewrite mkimage_inner.
  unfold wret at 1. cbn [wbind app]. rewrite IH. now rewrite app_nil_r.
Qed.

Lemma mkrecovimage_calls (nodes : list string) (s : LibrbdFio) (data_pool : pyval)
    (vols : list nat) :
  py_range (volumes_per_client (attrs s)) = Ret vols ->
  mkrecovimage nodes s data_pool
  = (CMonitoringStart (run_dir s +:+ "/recovery_pool_monitoring")
       :: (if use_existing_volumes (attrs s) then []
           else CRmPool (recov_pool_name (attrs s)) (recov_pool_profile (attrs s))
                  :: CMkPool (recov_pool_name (attrs s)) (recov_pool_profile (attrs s)) "rbd"
                  :: images "cbt-librbdfio-recov-" nodes vols s
                            (recov_pool_name (attrs s)) data_pool)
       ++ [CMonitoringStop],
     Ret tt).
Proof.
  intros Hv. unfold mkrecovimage. cbv zeta.
  destruct (use_existing_volumes (attrs s)); [reflexivity|].
  rewrite (mkimage_loop_calls _ _ _ _ _ vols Hv). unfold wcall. cbn [wbind app].
  rewrite ?app_nil_r. reflexivity.
Qed.



(** X13 — [initialize], when the idle sleep and the number of volumes are
    numbers: the directory is cleaned and made, idle monitoring runs for
    [idle_monitor_sleep] seconds and its files are synced; then, for a
    background recovery test, [mkrecovimage] creates the recovery pool and
    images, and only after that [mkimages] runs. The recovery images
    therefore carry the data pool the object held on entry, not the one
    [mkimages] names afterwards. *)
Theorem initialize_calls (nodes : list string) (s : LibrbdFio) (dp0 : pyval)
    (vols : list nat) (secs : Z) :
  sleep_secs (idle_monitor_sleep (attrs s)) = Ret secs ->
  py_range (volumes_per_client (attrs s)) = Ret vols ->
  let a := attrs s in
  initialize nodes s dp0
  = ([CInitialize; CCleanRemoteDir (run_dir s); CMakeRemoteDir (run_dir s);
      CMonitoringStart (run_dir s +:+ "/idle_monitoring"); CSleep secs;
      CMonitoringStop; CSyncFiles (run_dir s +:+ "/*") (out_dir a)]
     ++ (if recovery_test (bench s) && eq_str (recov_test_type a) "background"
         then CMonitoringStart (run_dir s +:+ "/recovery_pool_monitoring")
                :: (if use_existing_volumes a then []
                    else CRmPool (recov_pool_name a) (recov_pool_profile a)
                           :: CMkPool (recov_pool_name a) (recov_pool_profile a) "rbd"
                           :: images "cbt-librbdfio-recov-" nodes vols s
                                     (recov_pool_name a) dp0)
                ++ [CMonitoringStop]
         else [])
     ++ fst (mkimages nodes s dp0),
     snd (mkimages nodes s dp0)).
Proof.
  intros Hs Hv a. subst a.
  unfold initialize. rewrite Hs. unfold wlift, wcall. cbn [wbind app].
  destruct (recovery_test (bench s) && eq_str (recov_test_type (attrs s)) "background").
  - rewrite (mkrecovimage_calls _ _ _ vols Hv). cbn [wbind app].
    destruct (mkimages nodes s dp0) as [t r]. cbn [fst snd].
    destruct r; cbn; rewrite <- ?app_assoc; reflexivity.
  - unfold wret. cbn [wbind app].
    destruct (mkimages nodes s dp0) as [t r]. cbn [fst snd]. now destruct r.
Qed.

Lemma initialize_calls_witness :
  exists t : list call,
    initialize Samples.nodes_setup Samples.obj_setup VNone
    = ([CInitialize; CCleanRemoteDir (run_dir Samples.obj_setup);
        CMakeRemoteDir (run_dir Samples.obj_setup);
        CMonitoringStart (run_dir Samples.obj_setup +:+ "/idle_monitoring"); CSleep 60;
        CMonitoringStop;
        CSyncFiles (run_dir Samples.obj_setup +:+ "/*") "/arch";
        CMonitoringStart (run_dir Samples.obj_setup +:+ "/recovery_pool_monitoring");
        CRmPool (VStr "cbt-librbdfio-recov") (VStr "default");
        CMkPool (VStr "cbt-librbdfio-recov") (VStr "default") "rbd";
        CMkImage "cbt-librbdfio-recov-c1-0" (VInt 65536) (VStr "cbt-librbdfio-recov")
                 VNone (VInt 22);
        CMkImage "cbt-librbdfio-recov-c1-1" (VInt 65536) (VStr "cbt-librbdfio-recov")
                 VNone (VInt 22);
        CMkImage "cbt-librbdfio-recov-c2-0" (VInt 65536) (VStr "cbt-librbdfio-recov")
                 VNone (VInt 22);
        CMkImage "cbt-librbdfio-recov-c2-1" (VInt 65536) (VStr "cbt-librbdfio-recov")
                 VNone (VInt 22);
        CMonitoringStop] ++ t,
       Ret (VStr "cbt-librbdfio-data")).
Proof.
  exists (fst (mkimages Samples.nodes_setup Samples.obj_setup VNone)).
  rewrite (initialize_calls Samples.nodes_setup Samples.obj_setup VNone
             [0%nat; 1%nat] 60 ltac:(vm_compute; reflexivity)
             ltac:(vm_compute; reflexivity)).
  vm_compute. reflexivity.
Defined.

(** X14 — When [idle_monitor_sleep] is no number, or a negative one,
    [initialize] raises at the sleep ([TypeError], resp. [ValueError]): the
    run directory has been cleaned and made and idle monitoring has been
    started, and it is never stopped; no pool and no image has been
    touched. *)
Theorem initialize_bad_idle_sleep (nodes : list string) (s : LibrbdFio) (dp0 : pyval)
    (e : exn) :
  sleep_secs (idle_monitor_sleep (attrs s)) = Raise e ->
  initialize nodes s dp0
  = ([CInitialize; CCleanRemoteDir (run_dir s); CMakeRemoteDir (run_dir s);
      CMonitoringStart (run_dir s +:+ "/idle_monitoring")],
     Raise e) /\
  (e = TypeError /\ as_int (idle_monitor_sleep (attrs s)) = None \/
   e = ValueError /\ exists z, as_int (idle_monitor_sleep (attrs s)) = Some z /\ z < 0).
Proof.
  intros Hs. split.
  - unfold initialize. now rewrite Hs.
  - unfold sleep_secs in Hs.
    destruct (as_int (idle_monitor_sleep (attrs s))) as [z|].
    + destruct (Z.ltb_spec z 0); [|discriminate].
      injection Hs as <-. right. split; [reflexivity|]. now exists z.
    + injection Hs as <-. now left.
Qed.

Lemma initialize_bad_idle_sleep_witness :
  initialize Samples.nodes_setup Samples.obj_bad_idle VNone
  = ([CInitialize; CCleanRemoteDir (run_dir Samples.obj_bad_idle);
      CMakeRemoteDir (run_dir Samples.obj_bad_idle);
      CMonitoringStart (run_dir Samples.obj_bad_idle +:+ "/idle_monitoring")],
     Raise TypeError).
Proof.
  apply (initialize_bad_idle_sleep Samples.nodes_setup Samples.obj_bad_idle VNone TypeError).
  vm_compute. reflexivity.
Defined.

(** ** [prefill] *)

(** X15 — [prefill] does nothing unless existing volumes are used. With
    them, a call that returns has dispatched to the clients one command per
    volume, in order, each built from the [prefill] options, and after the
    last dispatch has waited on each handle exactly once, in the same
    order. *)
Theorem prefill_waits_once (E : Env) (prefill_vols : gmap string pyval)
    (st st' : State) (t : list event) (u : unit) :
  prefill E prefill_vols st = (t, Ret (u, st')) ->
  if use_existing_volumes (attrs (self st))
  then exists (v : Z) (cmds : list string),
         as_int (volumes_per_client (attrs (self st))) = Some v /\
         List.length cmds = Z.to_nat v /\
         (forall k cmd, nth_error cmds k = Some cmd ->
                        mk_prefill_cmd E (self st) prefill_vols k = Ret cmd) /\
         t = imap (fun k cmd => EvPdsh (next_handle st + k) (clients E) cmd) cmds
             ++ List.map EvWait (seq (next_handle st) (List.length cmds)) /\
         Forall (fun h => completes E h = true) (seq (next_handle st) (List.length cmds))
  else t = [] /\ st' = st.
Proof.
  unfold prefill. rewrite bind_get_self.
  destruct (use_existing_volumes (attrs (self st))); cbn [when].
  - rewrite bind_lift. unfold py_range.
    destruct (as_int (volumes_per_client (attrs (self st)))) as [v|]; [|discriminate].
    intros Hrun.
    apply bind_returns in Hrun as (t1 & ps1 & st1 & t2 & Hdisp & Hwait & ->).
    apply (dispatch_loop_commands E (fun s i => mk_prefill_cmd E s prefill_vols i))
      in Hdisp as (cmds & Hlen & Hcmds & -> & -> & ->).
    apply wait_all_trace in Hwait as (-> & Hdone & _).
    exists v, cmds. rewrite Hlen. cbn [app] in *. now repeat split.
  - intros H. inversion H; subst. now split.
Qed.

Lemma prefill_waits_once_witness :
  exists cmds : list string,
    List.length cmds = 3%nat /\
    trace_of (prefill Demo.env_ok default_prefill_vols) (Demo.state_of Samples.obj_existing 0)
    = imap (fun k cmd => EvPdsh (0 + k) (clients Demo.env_ok) cmd) cmds
      ++ [EvWait 0; EvWait 1; EvWait 2].
Proof.
  lazymatch goal with
  | |- exists cmds, _ /\ trace_of ?m ?st = _ =>
      let r := eval vm_compute in (m st) in
      lazymatch r with
      | (?t, Ret (?u, ?st')) =>
          assert (H : m st = (t, Ret (u, st'))) by (vm_compute; reflexivity);
          pose proof (prefill_waits_once _ _ _ _ _ _ H) as Hp;
          unfold trace_of; rewrite H; cbn [fst]
      end
  end.
  change (use_existing_volumes (attrs (self (Demo.state_of Samples.obj_existing 0))))
    with true in Hp.
  destruct Hp as (v & cmds & Hv & Hlen & _ & Ht & _).
  vm_compute in Hv. injection Hv as <-.
  exists cmds. split; [exact Hlen|]. rewrite Ht, Hlen. reflexivity.
Defined.



Lemma original_run_waits_once_witness :
  run Demo.env_ok (Demo.state_of Samples.obj_original 0)
  = (Samples.run0_trace, Ret (tt, Samples.run0_state)) /\
  dispatched Samples.run0_trace = [0%nat] /\
  waited Samples.run0_trace = dispatched Samples.run0_trace.
Proof.
  assert (H : run Demo.env_ok (Demo.state_of Samples.obj_original 0)
              = (Samples.run0_trace, Ret (tt, Samples.run0_state)))
    by (vm_compute; reflexivity).
  split; [exact H|].
  destruct (original_run_waits_once Demo.env_ok (Demo.state_of Samples.obj_original 0)
              Samples.run0_state Samples.run0_trace tt
              ltac:(vm_compute; reflexivity) H)
    as (v & Hv & Hd & Hw & _).
  vm_compute in Hv. injection Hv as <-. split; [exact Hd | exact Hw].
Defined.

(** ** Restoring right after [__init__] *)

Lemma set_opts_same (s : LibrbdFio) : set_opts (fun _ => opts s) s = s.
Proof. now destruct s. Qed.

(** X17 — [__init__] saves the options only when there is a workload table.
    On an object built without one, [restore_global_fio_options] raises
    [KeyError]; on one built with a table it returns and leaves the object
    exactly as [__init__] built it. *)
Theorem restore_after_init (E : Env) (b : Benchmark) (cfg : Config) (s0 : LibrbdFio) :
  init E b cfg = Ret s0 ->
  (cfg_workloads cfg = [] -> restore_global_fio_options s0 = Raise KeyError) /\
  (cfg_workloads cfg <> [] -> restore_global_fio_options s0 = Ret s0).
Proof.
  intros Hinit.
  destruct (init_facts E b cfg s0 Hinit) as (_ & _ & _ & _ & Hsaved).
  destruct (init_options E b cfg s0 Hinit) as (w & _ & _ & Hempty).
  split.
  - intros Hnil. unfold restore_global_fio_options, dict_item.
    now rewrite (Hempty Hnil), lookup_empty.
  - intros Hne. rewrite (restore_of_saved s0 (opts s0) (Hsaved Hne)).
    now rewrite set_opts_same.
Qed.

Lemma restore_after_init_witness :
  restore_global_fio_options Samples.obj_original = Raise KeyError /\
  restore_global_fio_options Demo.obj_sweep = Ret Demo.obj_sweep.
Proof.
  split.
  - apply (proj1 (restore_after_init Demo.env_ok Demo.bench_plain Demo.cfg_original
                    Samples.obj_original ltac:(vm_compute; reflexivity))).
    reflexivity.
  - apply (proj2 (restore_after_init Demo.env_ok Demo.bench_plain
                    (Demo.cfg_sweep Demo.ramp0 "w1" Demo.sweep_randrw)
                    Demo.obj_sweep ltac:(vm_compute; reflexivity))).
    discriminate.
Defined.

(** ** When [mkfiocmd] can build its command *)

(** ['%d' % v] returns for a number and raises [TypeError] otherwise. *)
Lemma fmt_d_checked (v : pyval) : type_checked (fmt_d v) (is_num v).
Proof.
  unfold type_checked, fmt_d, is_num.
  destruct (as_int v) as [z|]; [left; now eexists | now right].
Qed.

(** The same, for a format that is skipped when [skip] holds. *)
Lemma opt_fmt_checked (skip : bool) (v : pyval) (c : string) (f : string -> string) :
  type_checked (if skip then Ret c else (t <- fmt_d v ;; Ret (f t))%res)
               (skip || is_num v).
Proof.
  destruct skip; [left; now eexists|].
  destruct (fmt_d_checked v) as [(x & -> & ->) | (-> & ->)]; [left; now eexists | now right].
Qed.

Lemma existing_checked (u : bool) (rb : pyval) :
  type_checked (if u then (n <- py_len rb ;; Ret (negb (n =? 0)%nat))%res else Ret false)
               (negb u || has_len rb).
Proof.
  destruct u; [|left; now eexists].
  destruct rb; cbn; try (now right); left; now eexists.
Qed.

(** Six checked steps in a row return when all checks hold and raise
    [TypeError] otherwise. *)
Lemma checked_chain {A1 A2 A3 A4 A5 A6 B : Type}
    (r1 : result A1) (r2 : A1 -> result A2) (r3 : A1 -> A2 -> result A3)
    (r4 : result A4) (r5 : result A5) (r6 : result A6)
    (k : A1 -> A2 -> A3 -> A4 -> A5 -> A6 -> B) (c1 c2 c3 c4 c5 c6 : bool) :
  type_checked r1 c1 ->
  (forall x1, type_checked (r2 x1) c2) ->
  (forall x1 x2, type_checked (r3 x1 x2) c3) ->
  type_checked r4 c4 -> type_checked r5 c5 -> type_checked r6 c6 ->
  let m := (x1 <- r1 ;; x2 <- r2 x1 ;; x3 <- r3 x1 x2 ;; x4 <- r4 ;; x5 <- r5 ;;
            x6 <- r6 ;; Ret (k x1 x2 x3 x4 x5 x6))%res in
  returns m = c1 && c2 && c3 && c4 && c5 && c6 /\
  (returns m = false -> m = Raise TypeError).
Proof.
  intros H1 H2 H3 H4 H5 H6 m. subst m.
  destruct H1 as [(x1 & -> & ->) | (-> & ->)]; [|now split]. cbn [rbind].
  destruct (H2 x1) as [(x2 & -> & ->) | (-> & ->)]; [|now split]. cbn [rbind].
  destruct (H3 x1 x2) as [(x3 & -> & ->) | (-> & ->)]; [|now split]. cbn [rbind].
  destruct H4 as [(x4 & -> & ->) | (-> & ->)]; [|now split]. cbn [rbind].
  destruct H5 as [(x5 & -> & ->) | (-> & ->)]; [|now split]. cbn [rbind].
  destruct H6 as [(x6 & -> & ->) | (-> & ->)]; now split.
Qed.

(** The checks of [mkfiocmd], step by step. *)
Lemma mkfiocmd_checked (E : Env) (s : LibrbdFio) (volnum : nat) (rt : pyval) :
  returns (mkfiocmd E s volnum rt)
  = (negb (use_existing_volumes (attrs s)) || has_len (rbdname (attrs s)))
    && (is_none (time (attrs s)) || is_num rt)
    && (is_none (ramp (opts s)) || is_num (ramp (opts s)))
    && is_num (op_size (opts s))
    && is_num (iodepth (opts s))
    && is_num (end_fsync (opts s)) /\
  (returns (mkfiocmd E s volnum rt) = false ->
   mkfiocmd E s volnum rt = Raise TypeError).
Proof.
  unfold mkfiocmd.
  apply (checked_chain _ (fun _ => _) (fun _ _ => _) _ _ _ (fun _ _ _ _ _ _ => _)).
  - apply existing_checked.
  - intros ex. apply opt_fmt_checked.
  - intros ex c5. apply opt_fmt_checked.
  - apply fmt_d_checked.
  - apply fmt_d_checked.
  - apply fmt_d_checked.
Qed.





(** ** Preconditioning workloads *)

Lemma mkfiocmd_runtime_fault (E : Env) (s : LibrbdFio) (volnum : nat) (rt : pyval) :
  is_none (time (attrs s)) = false -> as_int rt = None ->
  mkfiocmd E s volnum rt = Raise TypeError.
Proof.
  intros Ht Hrt.
  destruct (mkfiocmd_checked E s volnum rt) as [Hok Hfail].
  apply Hfail. rewrite Hok, Ht. unfold is_num at 1. rewrite Hrt.
  cbn [orb]. now rewrite andb_false_r.
Qed.

(** X19 — A workload with a [precond] key runs for [precond_time]. When the
    object has a [time] and its [precond_time] is no number ([None] by
    default), no turn of that workload ever dispatches a command: a turn
    whose overrides apply and that has at least one volume raises
    [TypeError] in [mkfiocmd], after it has made its run directory. *)
Theorem precond_needs_precond_time (E : Env) (wk : string) (spec : gmap string pyval)
    (st : State) :
  let test := test_of spec (self st) in
  dict_has test "precond" = true ->
  is_none (time (attrs (self st))) = false ->
  as_int (precond_time (attrs (self st))) = None ->
  Forall (fun ev => is_pdsh ev = false) (trace_of (run_workload E wk spec) st) /\
  (forall (i : nat) (ps : list nat) (s' : LibrbdFio) (v : Z),
      apply_overrides wk test i (self st) = Ret s' ->
      as_int (volumes_per_client (attrs (self st))) = Some v -> 0 < v ->
      run_pair E wk test (monitor_enabled test) (precond_time (attrs (self st))) ps i st
      = ([EvMakeRemoteDir (run_dir s')], Raise TypeError)).
Proof.
  intros test Hpre Htime Hrt. split.
  - set (rt := precond_time (attrs (self st))) in *.
    set (J := fun s : LibrbdFio => attrs s = attrs (self st)).
    assert (Hrest : triple (fun x => J (self x))
              (_ <- lift (dict_item test "mode") ;;
               v_iodepth <- lift (dict_item test "iodepth") ;;
               n <- lift (py_len v_iodepth) ;;
               _ <- for_acc (seq 0 n) []
                      (run_pair E wk test (monitor_enabled test) rt) ;;
               ret tt)%fio (fun ev => is_pdsh ev = false) (fun _ _ => True)).
    { apply (triple_seq (fun x => J (self x))); [apply triple_lift; now intros|]. intros v.
      apply (triple_seq (fun x => J (self x))); [apply triple_lift; now intros|].
      intros v_iod.
      apply (triple_seq (fun x => J (self x))); [apply triple_lift; now intros|]. intros n.
      eapply triple_bind with (R := fun _ x => J (self x));
        [|intros ps; now apply triple_ret].
      apply triple_for_acc. intros acc i _.
      apply (triple_run_pair E (fun ev => is_pdsh ev = false) J J); try easy.
      - intros s s' Hs Ho. apply apply_overrides_frame in Ho as (_ & Ha & _).
        unfold J in *. congruence.
      - intros s r Hs Hr. apply restore_frame in Hr as (_ & Ha & _).
        unfold J in *. congruence.
      - intros s v1 cmd h Hs Hc. exfalso. unfold J in Hs.
        rewrite (mkfiocmd_runtime_fault E s v1 rt) in Hc;
          [discriminate | now rewrite Hs | exact Hrt]. }
    destruct (Hrest st eq_refl) as [Hall _].
    unfold trace_of, run_workload. rewrite bind_get_self.
    fold (test_of spec (self st)). fold test. fold (monitor_enabled test).
    unfold dict_has in Hpre. unfold dict_has. rewrite Hpre. exact Hall.
  - intros i ps s' v Hover Hv Hpos.
    pose proof (apply_overrides_frame _ _ _ _ _ Hover) as (_ & Ha & _).
    unfold run_pair.
    rewrite bind_get_self, bind_lift, Hover, bind_modify_self, bind_emit.
    unfold dispatch_volumes.
    rewrite !bind_assoc, bind_get_self, bind_assoc, bind_lift. cbn [self].
    unfold py_range. rewrite Ha, Hv.
    destruct (Z.to_nat v) as [|n] eqn:Hn; [lia|]. cbn [seq for_acc].
    rewrite !bind_assoc, bind_get_self, bind_assoc, bind_lift. cbn [self].
    rewrite (mkfiocmd_runtime_fault E s' 0 _); [reflexivity | now rewrite Ha | exact Hrt].
Qed.

Lemma precond_needs_precond_time_witness :
  Forall (fun ev => is_pdsh ev = false)
         (trace_of (run_workload Demo.env_ok "w1" Samples.sweep_precond)
                   (Demo.state_of Samples.obj_precond 0)) /\
  outcome_of (run_workload Demo.env_ok "w1" Samples.sweep_precond)
             (Demo.state_of Samples.obj_precond 0)
  = Raise TypeError.
Proof.
  split; [|vm_compute; reflexivity].
  apply (proj1 (precond_needs_precond_time Demo.env_ok "w1" Samples.sweep_precond
                  (Demo.state_of Samples.obj_precond 0)
                  ltac:(vm_compute; reflexivity) ltac:(vm_compute; reflexivity)
                  ltac:(vm_compute; reflexivity))).
Defined.

(** ** The handles of a whole workload *)

Lemma turn_handles (E : Env) (wk : string) (test : gmap string pyval) (mon : bool)
    (rt : pyval) (ps : list nat) (i : nat) (st : State) (t : list event)
    (ps' : list nat) (st' : State) (v : Z) :
  run_pair E wk test mon rt ps i st = (t, Ret (ps', st')) ->
  as_int (volumes_per_client (attrs (self st))) = Some v ->
  dispatched t = seq (next_handle st) (Z.to_nat v) /\
  waited t = ps ++ seq (next_handle st) (Z.to_nat v) /\
  ps' = ps ++ seq (next_handle st) (Z.to_nat v) /\
  next_handle st' = (next_handle st + Z.to_nat v)%nat /\
  attrs (self st') = attrs (self st).
Proof.
  intros Hrun Hv.
  destruct (turn_shape _ _ _ _ _ _ _ _ _ _ _ Hrun)
    as (s' & t1 & st1 & mid & last & Hover & Hdisp & _ & _ & Hmid & -> & Hr & Hn & _).
  pose proof (apply_overrides_frame _ _ _ _ _ Hover) as (_ & Ha & _).
  pose proof (restore_frame _ _ Hr) as (_ & Ha' & _).
  apply dispatch_commands in Hdisp as (v' & cmds & Hv' & Hlen & _ & -> & -> & ->).
  cbn [self next_handle] in *. rewrite Ha, Hv in Hv'. injection Hv' as <-.
  rewrite Hlen in *.
  destruct (pdsh_events_handles (clients E) cmds (next_handle st)) as [Hdd Hdw].
  rewrite Hlen in Hdd.
  destruct (wait_events_handles (ps ++ seq (next_handle st) (Z.to_nat v))) as [Hww Hwd].
  assert (Hm : waited mid = [] /\ dispatched mid = [] /\
               waited last = [] /\ dispatched last = []).
  { destruct mon.
    - destruct Hmid as (z & _ & -> & ->). now cbn.
    - destruct Hmid as [-> ->]. now cbn. }
  destruct Hm as (Hmw & Hmd & Hlw & Hld).
  cbn [dispatched waited]. rewrite !dispatched_app, !waited_app.
  rewrite Hdd, Hdw, Hww, Hwd, Hmw, Hmd, Hlw, Hld. cbn [app]. rewrite !app_nil_r.
  repeat split; try reflexivity; [exact Hn | congruence].
Qed.

Lemma sweep_waits_step (h v n : nat) (ps : list nat) :
  List.concat (List.map (fun k => ps ++ seq h ((k + 1) * v)) (seq 0 (S n)))
  = (ps ++ seq h v)
    ++ List.concat (List.map (fun k => (ps ++ seq h v) ++ seq (h + v) ((k + 1) * v))
                             (seq 0 n)).
Proof.
  cbn [seq List.map List.concat]. replace ((0 + 1) * v)%nat with v by lia. f_equal.
  rewrite <- seq_shift, List.map_map. f_equal. apply List.map_ext. intros k.
  rewrite <- app_assoc. f_equal.
  replace ((S k + 1) * v)%nat with (v + (k + 1) * v)%nat by lia.
  now rewrite seq_app.
Qed.

(** All the turns of one workload. *)
Lemma turns_handles (E : Env) (wk : string) (test : gmap string pyval) (mon : bool)
    (rt : pyval) (v : Z) (n a : nat) (ps : list nat) (st : State) (t : list event)
    (ps' : list nat) (st' : State) :
  as_int (volumes_per_client (attrs (self st))) = Some v ->
  for_acc (seq a n) ps (run_pair E wk test mon rt) st = (t, Ret (ps', st')) ->
  dispatched t = seq (next_handle st) (n * Z.to_nat v) /\
  waited t
  = List.concat (List.map (fun k => ps ++ seq (next_handle st) ((k + 1) * Z.to_nat v))
                          (seq 0 n)).
Proof.
  revert a ps st t. induction n as [|n IH]; intros a ps st t Hv; cbn [seq for_acc].
  - intros H. inversion H; subst. now split.
  - intros Hrun.
    apply bind_returns in Hrun as (t1 & ps1 & st1 & t2 & Hturn & Hrest & ->).
    destruct (turn_handles _ _ _ _ _ _ _ _ _ _ _ v Hturn Hv)
      as (Hd & Hw & -> & Hn & Ha).
    apply IH in Hrest as [Hd2 Hw2]; [|now rewrite Ha].
    rewrite dispatched_app, waited_app, Hd, Hw, Hd2, Hw2, Hn. split.
    + replace (S n * Z.to_nat v)%nat with (Z.to_nat v + n * Z.to_nat v)%nat by lia.
      now rewrite seq_app.
    + symmetry. apply (sweep_waits_step (next_handle st) (Z.to_nat v) n ps).
Qed.

Lemma sweep_waits_length (h v n : nat) :
  (2 * List.length (sweep_waits h v n) = v * (n * (n + 1)))%nat.
Proof.
  unfold sweep_waits. induction n as [|n IH]; [cbn; lia|].
  rewrite seq_S, List.map_app, List.concat_app, List.length_app. cbn [List.map List.concat].
  rewrite app_nil_r, List.length_seq. cbn [Nat.add] in *. nia.
Qed.

(** X21 — In a workload that completes, with [n] pairs and [v] volumes per
    client, [n * v] commands are dispatched, and turn [k] (from 0) waits on
    the handles of all the turns up to [k]: the handle list is created once
    per workload and never emptied, so the waits number [v * n * (n + 1) / 2]
    instead of [n * v]. *)
Theorem workload_waits_accumulate (E : Env) (wk : string) (spec : gmap string pyval)
    (st st' : State) (t : list event) (u : unit) (v : Z) :
  run_workload E wk spec st = (t, Ret (u, st')) ->
  as_int (volumes_per_client (attrs (self st))) = Some v ->
  exists (v_iodepth : pyval) (n : nat),
    test_of spec (self st) !! "iodepth" = Some v_iodepth /\
    py_len v_iodepth = Ret n /\
    dispatched t = seq (next_handle st) (n * Z.to_nat v) /\
    waited t = sweep_waits (next_handle st) (Z.to_nat v) n /\
    (2 * List.length (waited t) = Z.to_nat v * (n * (n + 1)))%nat.
Proof.
  unfold run_workload. rewrite bind_get_self, bind_lift.
  fold (test_of spec (self st)).
  destruct (dict_item (test_of spec (self st)) "mode") as [v_mode| |];
    [|discriminate|discriminate].
  rewrite bind_lift. unfold dict_item at 1.
  destruct (test_of spec (self st) !! "iodepth") as [v_iod|] eqn:Hiod; [|discriminate].
  rewrite bind_lift.
  destruct (py_len v_iod) as [n| |] eqn:Hlen; [|discriminate|discriminate].
  intros Hrun Hv.
  apply bind_returns in Hrun as (t1 & ps1 & st1 & t2 & Hloop & Hret & ->).
  injection Hret as <- _. rewrite app_nil_r.
  apply (turns_handles _ _ _ _ _ v) in Hloop as [Hd Hw]; [|exact Hv].
  exists v_iod, n. split; [reflexivity|]. split; [exact Hlen|]. split; [exact Hd|].
  assert (Hwaits : waited t1 = sweep_waits (next_handle st) (Z.to_nat v) n).
  { rewrite Hw. unfold sweep_waits. reflexivity. }
  split; [exact Hwaits|]. rewrite Hwaits. apply sweep_waits_length.
Qed.

Lemma workload_waits_accumulate_witness :
  run_workload Demo.env_ok "w1" Demo.sweep_randrw (Demo.state_of Demo.obj_sweep 0)
  = (Samples.sweep0_trace, Ret (tt, Samples.sweep0_state)) /\
  dispatched Samples.sweep0_trace = [0%nat; 1%nat] /\
  waited Samples.sweep0_trace = [0%nat; 0%nat; 1%nat].
Proof.
  assert (H : run_workload Demo.env_ok "w1" Demo.sweep_randrw
                           (Demo.state_of Demo.obj_sweep 0)
              = (Samples.sweep0_trace, Ret (tt, Samples.sweep0_state)))
    by (vm_compute; reflexivity).
  split; [exact H|].
  destruct (workload_waits_accumulate Demo.env_ok "w1" Demo.sweep_randrw
              (Demo.state_of Demo.obj_sweep 0) Samples.sweep0_state
              Samples.sweep0_trace tt 1 H ltac:(vm_compute; reflexivity))
    as (v_iod & n & Hiod & Hlen & Hd & Hw & _).
  vm_compute in Hiod. injection Hiod as <-. vm_compute in Hlen. injection Hlen as <-.
  split; [exact Hd | exact Hw].
Defined.

(** * Lists of different lengths *)

(** The dispatches of a workload that completes: one per volume in each of
    its turns, with consecutive handles. *)
Lemma workload_dispatches (E : Env) (wk : string) (spec : gmap string pyval)
    (st st' : State) (t : list event) (u : unit) (v : Z) (ds : list pyval) :
  run_workload E wk spec st = (t, Ret (u, st')) ->
  as_int (volumes_per_client (attrs (self st))) = Some v ->
  test_of spec (self st) !! "iodepth" = Some (VList ds) ->
  dispatched t = seq (next_handle st) (length ds * Z.to_nat v).
Proof.
  unfold run_workload. rewrite bind_get_self, bind_lift.
  fold (test_of spec (self st)).
  destruct (dict_item (test_of spec (self st)) "mode") as [v_mode| |];
    [|discriminate|discriminate].
  rewrite bind_lift. unfold dict_item at 1.
  intros Hrun Hv Hd. rewrite Hd in Hrun. rewrite bind_lift in Hrun. cbn [py_len] in Hrun.
  apply bind_returns in Hrun as (t1 & ps1 & st1 & t2 & Hloop & Hret & ->).
  injection Hret as <- _. rewrite app_nil_r.
  now apply (turns_handles _ _ _ _ _ v) in Hloop as [Hdisp _].
Qed.

(** A workload with an empty [iodepth] list makes no call. *)
Lemma empty_sweep_silent (E : Env) (wk : string) (spec : gmap string pyval)
    (st : State) :
  test_of spec (self st) !! "iodepth" = Some (VList []) ->
  fst (run_workload E wk spec st) = [].
Proof.
  intros Hd. unfold run_workload. rewrite bind_get_self, bind_lift.
  fold (test_of spec (self st)).
  destruct (dict_item (test_of spec (self st)) "mode") as [v_mode| |];
    [|reflexivity|reflexivity].
  rewrite bind_lift. unfold dict_item at 1. rewrite Hd, bind_lift. reflexivity.
Qed.

(** C1 (as the code has it) — [run_workloads] compares no lengths and has
    no error of its own for them: it runs one turn per index of [iodepth]
    and reads [test['numjobs'][i]] at the start of turn [i], which raises
    [IndexError] at an index that [numjobs] lacks. When [numjobs] is the
    shorter list, with [m] entries, the workload makes exactly the calls of
    the same workload with [iodepth] cut to its first [m] entries; where the
    cut workload raises or blocks, so does the full one, and where the cut
    one completes the full one raises [IndexError] before any further call.
    In that case its calls include [m] times [volumes_per_client] dispatches
    (none when either is zero), so dispatches can precede the error; with
    [m = 0] no call is made at all. When [numjobs] is the longer list its
    surplus entries are never read and the workload runs as with [numjobs]
    cut to the length of [iodepth]. *)
Theorem length_mismatch_not_checked (E : Env) (wk : string)
    (spec : gmap string pyval) (st : State) (ds js : list pyval) :
  let test := test_of spec (self st) in
  test !! "iodepth" = Some (VList ds) ->
  test !! "numjobs" = Some (VList js) ->
  (forall (i : nat) (s : LibrbdFio),
      (i < length ds)%nat -> (length js <= i)%nat ->
      apply_overrides wk test i s = Raise IndexError) /\
  ((length js < length ds)%nat ->
   let cut := run_workload E wk (<["iodepth" := VList (firstn (length js) ds)]> spec) st in
   run_workload E wk spec st
   = (fst cut, match snd cut with
               | Ret _ => Raise IndexError
               | Raise e => Raise e
               | Hang => Hang
               end) /\
   (forall v : Z,
       as_int (volumes_per_client (attrs (self st))) = Some v ->
       returns (snd cut) = true ->
       dispatched (fst cut) = seq (next_handle st) (length js * Z.to_nat v)) /\
   (js = [] -> fst cut = [])) /\
  ((length ds <= length js)%nat ->
   run_workload E wk (<["numjobs" := VList (firstn (length ds) js)]> spec) st
   = run_workload E wk spec st).
Proof.
  intros test Hd Hj. split; [|split].
  - intros i s. now apply apply_overrides_index_error.
  - intros Hlt cut.
    assert (Hcut : test_of (<["iodepth" := VList (firstn (length js) ds)]> spec) (self st)
                   !! "iodepth" = Some (VList (firstn (length js) ds))).
    { unfold test_of. rewrite <- insert_union_l. apply lookup_insert_eq. }
    split; [|split].
    + now apply short_numjobs_run.
    + intros v Hv Hret. subst cut.
      destruct (run_workload E wk (<["iodepth" := VList (firstn (length js) ds)]> spec) st)
        as [t [[u st']| |]] eqn:Hrun; [|discriminate|discriminate].
      cbn [fst].
      rewrite (workload_dispatches _ _ _ _ _ _ _ v _ Hrun Hv Hcut).
      now rewrite firstn_length_le by lia.
    + intros ->. subst cut. apply empty_sweep_silent. exact Hcut.
  - now apply long_numjobs_run.
Qed.

(** The sample workload with two queue depths and one job count: one turn
    runs and dispatches, the second raises. *)
Lemma length_mismatch_not_checked_witness :
  init Demo.env_ok Demo.bench_plain
       (Demo.cfg_sweep Demo.ramp0 "w1" Demo.sweep_short_numjobs)
  = Ret Demo.obj_short_numjobs /\
  run_workload Demo.env_ok "w1" Demo.sweep_short_numjobs
               (Demo.state_of Demo.obj_short_numjobs 0)
  = (Samples.short_cut_trace, Raise IndexError) /\
  dispatched Samples.short_cut_trace = [0%nat].
Proof.
  split; [vm_compute; reflexivity|].
  assert (Hcut : run_workload Demo.env_ok "w1" Samples.sweep_short_cut
                              (Demo.state_of Demo.obj_short_numjobs 0)
                 = (Samples.short_cut_trace, Ret (tt, Samples.short_cut_state)))
    by (vm_compute; reflexivity).
  destruct (proj1 (proj2 (length_mismatch_not_checked Demo.env_ok "w1"
                            Demo.sweep_short_numjobs
                            (Demo.state_of Demo.obj_short_numjobs 0)
                            [VInt 4; VInt 8] [VInt 1]
                            ltac:(vm_compute; reflexivity)
                            ltac:(vm_compute; reflexivity)))
                  ltac:(vm_compute; lia)) as (Hrun & Hdisp & _).
  change (<["iodepth" := VList (firstn (length [VInt 1]) [VInt 4; VInt 8])]>
            Demo.sweep_short_numjobs) with Samples.sweep_short_cut in Hrun, Hdisp.
  rewrite Hcut in Hrun, Hdisp. cbn [fst snd] in Hrun, Hdisp.
  split; [exact Hrun|].
  exact (Hdisp 1 ltac:(vm_compute; reflexivity) eq_refl).
Defined.

(** C1, as stated, fails: with the longer [numjobs] the sample workload runs
    to its end and dispatches; with the shorter one it dispatches its first
    pair and then raises [IndexError]. *)
Lemma length_mismatch_dispatches :
  let long := boot Demo.env_ok Demo.bench_plain
                   (Demo.cfg_sweep Demo.ramp0 "w1" Demo.sweep_long_numjobs) ∅
                   (run_workloads Demo.env_ok) in
  let short := boot Demo.env_ok Demo.bench_plain
                    (Demo.cfg_sweep Demo.ramp0 "w1" Demo.sweep_short_numjobs) ∅
                    (run_workloads Demo.env_ok) in
  returns (snd long) = true /\ dispatched (fst long) = [0%nat] /\
  snd short = Raise IndexError /\ dispatched (fst short) = [0%nat].
Proof. vm_compute. repeat split; reflexivity. Qed.
